(** * mini-editor: the editor state reducer, its undo history, the plugin
    event dispatcher and the markdown-link membership test

    A shallow embedding of [EditorContext.tsx] (the reducer [editorReducer],
    its helper [recordChange], the composer's initial state and
    [enhancedDispatch]) and of [isSelectionInMarkdownLink.ts], followed by
    the properties established about them.

    Conventions of the embedding.
    - A JavaScript [number] that is used as an index, a length or a
      timestamp is a [Z].  A JavaScript string is a [string]; one [ascii]
      stands for one code unit.
    - [Date.now()] is an explicit argument [now] of the code that reads it.
      The debug logging ([log]) changes nothing and is left out.
    - The reducer returns either the very object it was given or a newly
      built one; [Outcome] keeps the two apart, and has a third case for a
      [TypeError] raised while reading a field of [undefined].
    - A function stored in the state (a plugin-level reducer hook) is a
      reference [FnRef]; the behaviour of the referenced closures is a
      section variable. *)

From Stdlib Require Import ZArith Lia Bool Ascii.
From stdpp Require Import base list strings.

Local Open Scope Z_scope.

(* ===================================================================== *)
(** ** JavaScript primitives used by the sources *)
(* ===================================================================== *)

Module JS.

(** Index resolution shared by [String.prototype.slice] and
    [Array.prototype.slice]: a negative index counts from the end. *)
Definition rel (len i : Z) : Z :=
  if i <? 0 then Z.max (len + i) 0 else Z.min i len.

(** Index resolution of [String.prototype.substring]. *)
Definition clamp (len i : Z) : Z := Z.max 0 (Z.min i len).

Fixpoint str_take (n : nat) (s : string) : string :=
  match n, s with
  | S n', String c s' => String c (str_take n' s')
  | _, _ => EmptyString
  end.

Fixpoint str_drop (n : nat) (s : string) : string :=
  match n, s with
  | S n', String _ s' => str_drop n' s'
  | _, _ => s
  end.

(** [s.length] *)
Definition len (s : string) : Z := Z.of_nat (String.length s).

(** [s.slice(start, end)] *)
Definition slice2 (s : string) (start end_ : Z) : string :=
  let from := rel (len s) start in
  let to := rel (len s) end_ in
  str_take (Z.to_nat (to - from)) (str_drop (Z.to_nat from) s).

(** [s.slice(start)] *)
Definition slice1 (s : string) (start : Z) : string :=
  slice2 s start (len s).

(** [s.substring(start, end)]: both bounds clamped, swapped when
    reversed. *)
Definition substring2 (s : string) (start end_ : Z) : string :=
  let a := clamp (len s) start in
  let b := clamp (len s) end_ in
  str_take (Z.to_nat (Z.max a b - Z.min a b)) (str_drop (Z.to_nat (Z.min a b)) s).

(** [s.substring(start)] *)
Definition substring1 (s : string) (start : Z) : string :=
  substring2 s start (len s).

(** [s[i]]; [None] is [undefined]. *)
Definition charAt (s : string) (i : Z) : option ascii :=
  if i <? 0 then None else String.get (Z.to_nat i) s.

(** [s.indexOf(pat)], scanning [s] from position [i]. *)
Fixpoint indexOf_from (pat s : string) (i : Z) : Z :=
  if String.prefix pat s then i
  else match s with
       | EmptyString => -1
       | String _ s' => indexOf_from pat s' (i + 1)
       end.

Definition indexOf (s pat : string) : Z := indexOf_from pat s 0.

(** [s.lastIndexOf(pat)]: the last position where [pat] starts. *)
Fixpoint lastIndexOf_from (pat s : string) (i : Z) : Z :=
  match s with
  | EmptyString => if String.prefix pat EmptyString then i else -1
  | String _ s' =>
      let later := lastIndexOf_from pat s' (i + 1) in
      if later =? -1
      then (if String.prefix pat s then i else -1)
      else later
  end.

Definition lastIndexOf (s pat : string) : Z := lastIndexOf_from pat s 0.

(** [arr[i]]; [None] is [undefined]. *)
Definition get {A} (arr : list A) (i : Z) : option A :=
  if i <? 0 then None else arr !! Z.to_nat i.

(** [arr.slice(start, end)] *)
Definition arr_slice2 {A} (arr : list A) (start end_ : Z) : list A :=
  let n := Z.of_nat (length arr) in
  let from := rel n start in
  let to := rel n end_ in
  take (Z.to_nat (to - from)) (drop (Z.to_nat from) arr).

(** [arr.slice(start)] *)
Definition arr_slice1 {A} (arr : list A) (start : Z) : list A :=
  arr_slice2 arr start (Z.of_nat (length arr)).

End JS.

(* ===================================================================== *)
(** ** Data model (EditorContext.tsx) *)
(* ===================================================================== *)

Definition HISTORY_LIMIT : Z := 1000.
Definition HISTORY_TIME_GAP : Z := 200.

Inductive SelectionDirection : Type := FORWARD | BACKWARD | NONE.

#[global] Instance SelectionDirection_eq_dec : EqDecision SelectionDirection.
Proof. solve_decision. Defined.

Record KeyDownEvent : Type := {
  key : string;
  ctrlKey : bool;
  metaKey : bool;
  shiftKey : bool;
  altKey : bool
}.

(** Of a paste event the handlers read [clipboardData.getData("text/plain")]. *)
Record PasteEvent : Type := {
  clipboardText : string
}.

Record EditorHistoryRecord : Type := {
  h_text : string;
  h_selectionStart : Z;
  h_selectionEnd : Z;
  h_selectionDirection : SelectionDirection;
  timestamp : Z
}.

Record History : Type := {
  stack : list EditorHistoryRecord;
  offset : Z
}.

(** A reference to a function value held in the state. *)
Definition FnRef : Type := nat.

(** What the reducer can tell about a value of [state.plugins]: whether
    it is a truthy object with a [reducer] property. *)
Inductive PluginValue : Type :=
| NoReducer
| HasReducer (reducer : FnRef).

(** [plugins] lists the enumerable keys of the object in the order in
    which [for ... in] visits them. *)
Record EditorState : Type := {
  text : string;
  selectionStart : Z;
  selectionEnd : Z;
  selectionDirection : SelectionDirection;
  editorHasFocus : bool;
  plugins : option (list (string * PluginValue));
  history : option History
}.

(** The members of the [EditorAction] union; [OTHER] is the catch-all
    member [{ type: string; payload?: unknown }]. *)
Inductive EditorAction : Type :=
| SET_TEXT (text : string)
| SET_SELECTION (selectionStart selectionEnd : Z)
                (selectionDirection : option SelectionDirection)
| SET_FOCUS (payload : bool)
| ADD_PREFIX_POSTFIX (prefix postfix : string)
| UNDO
| REDO
| SET_TEXT_AND_SELECTION (text : string) (selectionStart selectionEnd : Z)
                         (selectionDirection : option SelectionDirection)
| REPLACE_SELECTION (text : string) (selected : option bool)
| KEY_DOWN (payload : KeyDownEvent)
| PASTE (payload : PasteEvent)
| OTHER (type : string).

(** [action.type] *)
Definition action_type (a : EditorAction) : string :=
  match a with
  | SET_TEXT _ => "SET_TEXT"
  | SET_SELECTION _ _ _ => "SET_SELECTION"
  | SET_FOCUS _ => "SET_FOCUS"
  | ADD_PREFIX_POSTFIX _ _ => "ADD_PREFIX_POSTFIX"
  | UNDO => "UNDO"
  | REDO => "REDO"
  | SET_TEXT_AND_SELECTION _ _ _ _ => "SET_TEXT_AND_SELECTION"
  | REPLACE_SELECTION _ _ => "REPLACE_SELECTION"
  | KEY_DOWN _ => "KEY_DOWN"
  | PASTE _ => "PASTE"
  | OTHER ty => ty
  end.

(** The labels of the [switch] in [editorReducer]. *)
Definition known_action_types : list string :=
  [ "SET_FOCUS"; "ADD_PREFIX_POSTFIX"; "UNDO"; "REDO"; "SET_SELECTION";
    "SET_TEXT"; "SET_TEXT_AND_SELECTION"; "REPLACE_SELECTION";
    "KEY_DOWN"; "PASTE" ].

(** The [changes: Partial<EditorState>] that the reducer passes to
    [recordChange]; [None] is an absent key. *)
Record Changes : Type := {
  c_text : option string;
  c_selectionStart : option Z;
  c_selectionEnd : option Z;
  c_selectionDirection : option SelectionDirection
}.

(** What a call of the reducer hands back. *)
Inductive Outcome : Type :=
| Same                        (* [return state]: the argument itself *)
| Fresh (s : EditorState)     (* a newly built object *)
| Throws.                     (* a TypeError escaped *)

(** The state the store holds after the call; [None] when it threw. *)
Definition state_after (s : EditorState) (o : Outcome) : option EditorState :=
  match o with
  | Same => Some s
  | Fresh s' => Some s'
  | Throws => None
  end.

(* ===================================================================== *)
(** ** recordChange *)
(* ===================================================================== *)

(** [{ ...state, ...changes }] *)
Definition spread (state : EditorState) (changes : Changes) : EditorState :=
  {| text := default (text state) (c_text changes);
     selectionStart := default (selectionStart state) (c_selectionStart changes);
     selectionEnd := default (selectionEnd state) (c_selectionEnd changes);
     selectionDirection :=
       default (selectionDirection state) (c_selectionDirection changes);
     editorHasFocus := editorHasFocus state;
     plugins := plugins state;
     history := history state |}.

Definition with_history (s : EditorState) (h : History) : EditorState :=
  {| text := text s;
     selectionStart := selectionStart s;
     selectionEnd := selectionEnd s;
     selectionDirection := selectionDirection s;
     editorHasFocus := editorHasFocus s;
     plugins := plugins s;
     history := Some h |}.

(** [{ ...record, timestamp: ts }] *)
Definition with_timestamp (r : EditorHistoryRecord) (ts : Z) : EditorHistoryRecord :=
  {| h_text := h_text r;
     h_selectionStart := h_selectionStart r;
     h_selectionEnd := h_selectionEnd r;
     h_selectionDirection := h_selectionDirection r;
     timestamp := ts |}.

(** The candidate record: [changes.f ?? state.f] for each field, stamped
    with [Date.now()]. *)
Definition candidate (state : EditorState) (changes : Changes) (now : Z)
  : EditorHistoryRecord :=
  {| h_text := default (text state) (c_text changes);
     h_selectionStart := default (selectionStart state) (c_selectionStart changes);
     h_selectionEnd := default (selectionEnd state) (c_selectionEnd changes);
     h_selectionDirection :=
       default (selectionDirection state) (c_selectionDirection changes);
     timestamp := now |}.

(** The history part of [recordChange], in the order of the source: drop
    the redo entries, limit the length, then group or push.  The write
    [newStack[newOffset] = ...] happens only where [newStack[newOffset]]
    was read as an object, hence in range. *)
Definition recordHistory (h : History) (record : EditorHistoryRecord) : History :=
  let stack0 := stack h in
  let offset0 := offset h in
  let n := Z.of_nat (length stack0) in
  let '(newStack, newOffset) :=
    if negb (n =? 0) && (-1 <? offset0) && (offset0 <? n - 1)
    then (JS.arr_slice2 stack0 0 (offset0 + 1), offset0)
    else (stack0, offset0) in
  let count := Z.of_nat (length newStack) in
  let '(newStack, newOffset) :=
    if HISTORY_LIMIT <? count
    then let extras := count - HISTORY_LIMIT in
         (JS.arr_slice1 newStack extras, Z.max (offset0 - extras) 0)
    else (newStack, newOffset) in
  match JS.get newStack newOffset with
  | Some last =>
      if timestamp record - timestamp last <? HISTORY_TIME_GAP
      then {| stack := <[Z.to_nat newOffset := with_timestamp record (timestamp last)]> newStack;
              offset := newOffset |}
      else {| stack := newStack ++ [record]; offset := newOffset + 1 |}
  | None => {| stack := newStack ++ [record]; offset := newOffset + 1 |}
  end.

Definition recordChange (state : EditorState) (changes : Changes) (now : Z)
  : EditorState :=
  match history state with
  | None => spread state changes
  | Some h =>
      with_history (spread state changes)
                   (recordHistory h (candidate state changes now))
  end.

(* ===================================================================== *)
(** ** editorReducer *)
(* ===================================================================== *)

(** The state rebuilt by UNDO and REDO from a record of the stack. *)
Definition restore (state : EditorState) (r : EditorHistoryRecord) (h : History)
    (newOffset : Z) : EditorState :=
  {| text := h_text r;
     selectionStart := h_selectionStart r;
     selectionEnd := h_selectionEnd r;
     selectionDirection := h_selectionDirection r;
     editorHasFocus := editorHasFocus state;
     plugins := plugins state;
     history := Some {| stack := stack h; offset := newOffset |} |}.

(** [state.selectionDirection === selectionDirection], the right-hand side
    possibly [undefined]. *)
Definition direction_is (d : SelectionDirection) (p : option SelectionDirection) : bool :=
  match p with
  | Some d' => bool_decide (d = d')
  | None => false
  end.

Section Reducer.

(** [call f state action]: what the closure behind [f] returns when the
    reducer calls it; [None] is [null], [Some Same] is the state object
    it was given. *)
Variable call : FnRef -> EditorState -> EditorAction -> option Outcome.

(** The [for (const pluginId in state.plugins)] loop.  Besides the
    result it reports which plugins had their hook called, in order. *)
Fixpoint offerToPlugins (ps : list (string * PluginValue))
    (state : EditorState) (action : EditorAction)
  : list string * option Outcome :=
  match ps with
  | [] => ([], None)
  | (pluginId, NoReducer) :: rest => offerToPlugins rest state action
  | (pluginId, HasReducer f) :: rest =>
      match call f state action with
      | Some result => ([pluginId], Some result)
      | None =>
          let '(called, result) := offerToPlugins rest state action in
          (pluginId :: called, result)
      end
  end.

Definition pluginPhase (state : EditorState) (action : EditorAction)
  : list string * option Outcome :=
  match plugins state with
  | Some ps => offerToPlugins ps state action
  | None => ([], None)
  end.

(** The [switch (action.type)] of the reducer. *)
Definition reduceBuiltin (state : EditorState) (action : EditorAction) (now : Z)
  : Outcome :=
  match action with
  | SET_FOCUS editorHasFocus' =>
      Fresh {| text := text state;
               selectionStart := selectionStart state;
               selectionEnd := selectionEnd state;
               selectionDirection := selectionDirection state;
               editorHasFocus := editorHasFocus';
               plugins := plugins state;
               history := history state |}
  | ADD_PREFIX_POSTFIX prefix postfix =>
      let textBefore := JS.slice2 (text state) 0 (selectionStart state) in
      let selectedText :=
        JS.slice2 (text state) (selectionStart state) (selectionEnd state) in
      let textAfter := JS.slice1 (text state) (selectionEnd state) in
      let updatedText :=
        textBefore +:+ prefix +:+ selectedText +:+ postfix +:+ textAfter in
      let newSelectionStart := selectionStart state + JS.len prefix in
      let newSelectionEnd := newSelectionStart + JS.len selectedText in
      if bool_decide (text state = updatedText)
         && (selectionStart state =? newSelectionStart)
         && (selectionEnd state =? newSelectionEnd)
      then Same
      else Fresh (recordChange state
                    {| c_text := Some updatedText;
                       c_selectionStart := Some newSelectionStart;
                       c_selectionEnd := Some newSelectionEnd;
                       c_selectionDirection := None |} now)
  | UNDO =>
      match history state with
      | None => Same
      | Some h =>
          if offset h <=? 0 then Same
          else match JS.get (stack h) (offset h - 1) with
               | Some prevRecord =>
                   Fresh (restore state prevRecord h (offset h - 1))
               | None => Throws
               end
      end
  | REDO =>
      match history state with
      | None => Same
      | Some h =>
          if Z.of_nat (length (stack h)) - 1 <=? offset h then Same
          else match JS.get (stack h) (offset h + 1) with
               | Some nextRecord =>
                   Fresh (restore state nextRecord h (offset h + 1))
               | None => Throws
               end
      end
  | SET_SELECTION selectionStart' selectionEnd' selectionDirection' =>
      if (selectionStart state =? selectionStart')
         && (selectionEnd state =? selectionEnd')
         && direction_is (selectionDirection state) selectionDirection'
      then Same
      else Fresh (recordChange state
                    {| c_text := None;
                       c_selectionStart := Some selectionStart';
                       c_selectionEnd := Some selectionEnd';
                       c_selectionDirection :=
                         Some (default NONE selectionDirection') |} now)
  | SET_TEXT text' =>
      if bool_decide (text state = text') then Same
      else Fresh (recordChange state
                    {| c_text := Some text';
                       c_selectionStart := None;
                       c_selectionEnd := None;
                       c_selectionDirection := None |} now)
  | SET_TEXT_AND_SELECTION text' selectionStart' selectionEnd' selectionDirection' =>
      if bool_decide (text state = text')
         && (selectionStart state =? selectionStart')
         && (selectionEnd state =? selectionEnd')
         && direction_is (selectionDirection state) selectionDirection'
      then Same
      else Fresh (recordChange state
                    {| c_text := Some text';
                       c_selectionStart := Some selectionStart';
                       c_selectionEnd := Some selectionEnd';
                       c_selectionDirection :=
                         Some (default NONE selectionDirection') |} now)
  | REPLACE_SELECTION newText selected =>
      let textBefore := JS.slice2 (text state) 0 (selectionStart state) in
      let textAfter := JS.slice1 (text state) (selectionEnd state) in
      let updatedText := textBefore +:+ newText +:+ textAfter in
      if bool_decide (text state = updatedText)
         && (selectionStart state =? selectionStart state)
         && (selectionEnd state =? selectionEnd state)
      then Same
      else Fresh (recordChange state
                    {| c_text := Some updatedText;
                       c_selectionStart :=
                         Some (if default false selected
                               then selectionStart state
                               else selectionStart state + JS.len newText);
                       c_selectionEnd := Some (selectionStart state + JS.len newText);
                       c_selectionDirection := None |} now)
  | KEY_DOWN _ => Same
  | PASTE _ => Same
  | OTHER _ => Same
  end.

(** [editorReducer]: the plugin hooks first, then the switch.  [OTHER]
    stands for a type string that is none of the labels of the switch.
    An action of the catch-all member whose type is a label is not
    represented: the source runs the case of that label on it, and the
    case reads a payload that such an action need not have. *)
Definition editorReducer (state : EditorState) (action : EditorAction) (now : Z)
  : Outcome :=
  match snd (pluginPhase state action) with
  | Some result => result
  | None => reduceBuiltin state action now
  end.

(** Dispatching a sequence of actions, each with the clock value at
    which the reducer runs; [None] once a call threw. *)
Fixpoint dispatchAll (state : EditorState) (actions : list (EditorAction * Z))
  : option EditorState :=
  match actions with
  | [] => Some state
  | (action, now) :: rest =>
      match state_after state (editorReducer state action now) with
      | Some state' => dispatchAll state' rest
      | None => None
      end
  end.

End Reducer.

(** The state [EditorComposer] starts from. *)
Definition initialState (initialValue : string) (now : Z) : EditorState :=
  {| text := initialValue;
     selectionStart := 0;
     selectionEnd := 0;
     selectionDirection := NONE;
     editorHasFocus := false;
     plugins := Some [];
     history := Some {| stack := [ {| h_text := initialValue;
                                      h_selectionStart := 0;
                                      h_selectionEnd := 0;
                                      h_selectionDirection := NONE;
                                      timestamp := now |} ];
                        offset := 0 |} |}.

(* ===================================================================== *)
(** ** Plugin registry and enhancedDispatch *)
(* ===================================================================== *)

(** A handler receives the event and the state snapshot; what it does
    with its third argument [dispatch] is the list of actions it passes
    to it, in order.  The boolean is its return value.  The call of
    [preventDefault] on the native event acts on the host's input element,
    not on the editor, and is left out. *)
Definition PluginEventHandler (T : Type) : Type :=
  T -> EditorState -> list EditorAction * bool.

Record PluginHandlers : Type := {
  keyDown : option (PluginEventHandler KeyDownEvent);
  paste : option (PluginEventHandler PasteEvent)
}.

(** [pluginsRef.current], a [Map]: its entries in insertion order. *)
Definition Registry : Type := list (string * PluginHandlers).

(** [Map.prototype.set]: an existing key keeps its place. *)
Fixpoint map_set (id : string) (handlers : PluginHandlers) (reg : Registry)
  : Registry :=
  match reg with
  | [] => [(id, handlers)]
  | (k, v) :: rest =>
      if String.eqb k id then (k, handlers) :: rest
      else (k, v) :: map_set id handlers rest
  end.

(** [Map.prototype.delete] *)
Fixpoint map_delete (id : string) (reg : Registry) : Registry :=
  match reg with
  | [] => []
  | (k, v) :: rest =>
      if String.eqb k id then rest else (k, v) :: map_delete id rest
  end.

Definition registerPlugin (id : string) (handlers : PluginHandlers)
    (reg : Registry) : Registry :=
  map_set id handlers reg.

(** The function [registerPlugin] returns. *)
Definition unregisterPlugin (id : string) (reg : Registry) : Registry :=
  map_delete id reg.

(** What an observer of [enhancedDispatch] sees, in order. *)
Inductive Effect : Type :=
| Dispatched (action : EditorAction)  (* [dispatch(action)] of the reducer *)
| Invoked (id : string).              (* the handler of plugin [id] called *)

(** The loop [for (const [id, handlers] of pluginsRef.current.entries())]
    with its [break], for the handler kind selected by [pick]. *)
Fixpoint distribute {T : Type}
    (pick : PluginHandlers -> option (PluginEventHandler T))
    (entries : Registry) (event : T) (state : EditorState) : list Effect :=
  match entries with
  | [] => []
  | (id, handlers) :: rest =>
      match pick handlers with
      | Some handler =>
          let '(sent, handled) := handler event state in
          Invoked id :: map Dispatched sent
            ++ (if handled then [] else distribute pick rest event state)
      | None => distribute pick rest event state
      end
  end.

Definition enhancedDispatch (reg : Registry) (state : EditorState)
    (action : EditorAction) : list Effect :=
  Dispatched action ::
  match action with
  | KEY_DOWN keyDownEvent => distribute keyDown reg keyDownEvent state
  | PASTE pasteEvent => distribute paste reg pasteEvent state
  | _ => []
  end.

(** The [keyDownHandler] of BoldPlugin. *)
Definition boldKeyDownHandler : PluginEventHandler KeyDownEvent :=
  fun event state =>
    if selectionStart state =? selectionEnd state then ([], false)
    else
      let isModifierActive := metaKey event || ctrlKey event in
      if isModifierActive && String.eqb (key event) "b"
         && negb (altKey event) && negb (shiftKey event)
      then ([ADD_PREFIX_POSTFIX "**" "**"], true)
      else ([], false).

(** The [keyDownHandler] of UndoRedoPlugin. *)
Definition undoRedoKeyDownHandler : PluginEventHandler KeyDownEvent :=
  fun event _state =>
    let isModifierActive := metaKey event || ctrlKey event in
    if isModifierActive && String.eqb (key event) "z" && negb (shiftKey event)
    then ([UNDO], true)
    else if (isModifierActive && String.eqb (key event) "z" && shiftKey event)
            || (isModifierActive && String.eqb (key event) "y")
    then ([REDO], true)
    else ([], false).

(* ===================================================================== *)
(** ** isSelectionInMarkdownLink *)
(* ===================================================================== *)

Definition is_char (c : ascii) (o : option ascii) : bool :=
  match o with
  | Some c' => Ascii.eqb c' c
  | None => false
  end.

(** The backward scan [for (let i = openParenIndex - 1; i >= 0; i--)]:
    [findOpenBracket text n bracketCount] visits the positions
    [n - 1, ..., 0] and yields [openBracketIndex]. *)
Fixpoint findOpenBracket (text : string) (n : nat) (bracketCount : Z) : Z :=
  match n with
  | O => -1
  | S i =>
      let c := JS.charAt text (Z.of_nat i) in
      let bracketCount := if is_char "]" c then bracketCount + 1 else bracketCount in
      if is_char "[" c
      then (if bracketCount - 1 =? 0 then Z.of_nat i
            else findOpenBracket text i (bracketCount - 1))
      else findOpenBracket text i bracketCount
  end.

Definition isSelectionInMarkdownLink (text : string)
    (selectionStart selectionEnd : Z) : bool :=
  let sliceStart := JS.substring2 text 0 selectionStart in
  let openParenIndex := JS.lastIndexOf sliceStart "](" in
  if negb (openParenIndex =? -1) then
    let openBracketIndex := findOpenBracket text (Z.to_nat openParenIndex) 1 in
    if openBracketIndex =? -1 then false
    else
      let sliceEnd := JS.substring1 text selectionEnd in
      let closeParenIndex := JS.indexOf sliceEnd ")" in
      if negb (closeParenIndex =? -1) then
        let urlStart := openParenIndex + 2 in
        let urlEnd := JS.len text - JS.len sliceEnd + closeParenIndex in
        if (urlStart <=? selectionStart) && (selectionEnd <=? urlEnd)
        then true
        else false
      else false
  else false.

(** The [pasteHandler] of AutoLinkPlugin; [isValidHttpUrl] is the URL
    parser of the host, taken as an argument. *)
Definition autoLinkPasteHandler (isValidHttpUrl : string -> bool)
  : PluginEventHandler PasteEvent :=
  fun event state =>
    let pastedText := clipboardText event in
    if negb (isValidHttpUrl pastedText)
       || (selectionStart state =? selectionEnd state)
    then ([], false)
    else if isSelectionInMarkdownLink (text state) (selectionStart state)
                                      (selectionEnd state)
    then ([], false)
    else ([ADD_PREFIX_POSTFIX "[" ("](" +:+ pastedText +:+ ")")], true).

(* ===================================================================== *)
(** ** Notions used to state the properties *)
(* ===================================================================== *)

Definition has_reducer (v : PluginValue) : bool :=
  match v with
  | HasReducer _ => true
  | NoReducer => false
  end.

(** The plugin ids whose value carries a reducer hook, in iteration order. *)
Definition hookIds (ps : list (string * PluginValue)) : list string :=
  map fst (List.filter (fun kv => has_reducer (snd kv)) ps).

(** No value of [state.plugins] carries a reducer hook; so it is in every
    state the composer builds, whose [plugins] is the empty object. *)
Definition hookFree (s : EditorState) : bool :=
  forallb (fun kv => negb (has_reducer (snd kv))) (default [] (plugins s)).

(** The record [r] is a snapshot of the live fields of [s]. *)
Definition snapshot_of (s : EditorState) (r : EditorHistoryRecord) : Prop :=
  h_text r = text s /\
  h_selectionStart r = selectionStart s /\
  h_selectionEnd r = selectionEnd s /\
  h_selectionDirection r = selectionDirection s.

(** History is present, [offset] indexes the stack, and the record there
    is a snapshot of the live fields. *)
Definition Consistent (s : EditorState) : Prop :=
  exists h r, history s = Some h /\
              JS.get (stack h) (offset h) = Some r /\
              snapshot_of s r.

(** The five action kinds whose case ends in [recordChange]. *)
Definition is_mutating (a : EditorAction) : bool :=
  match a with
  | ADD_PREFIX_POSTFIX _ _ | SET_SELECTION _ _ _ | SET_TEXT _
  | SET_TEXT_AND_SELECTION _ _ _ _ | REPLACE_SELECTION _ _ => true
  | _ => false
  end.

(** At clock value [now] the record at the current offset is at least
    HISTORY_TIME_GAP old, so that a change is pushed as a new entry. *)
Definition opens_new_entry (s : EditorState) (now : Z) : Prop :=
  exists h last, history s = Some h /\
                 JS.get (stack h) (offset h) = Some last /\
                 HISTORY_TIME_GAP <= now - timestamp last.

(** The payload of [a] repeats the corresponding fields of [s]. *)
Definition restates (s : EditorState) (a : EditorAction) : Prop :=
  match a with
  | SET_SELECTION ss se d =>
      ss = selectionStart s /\ se = selectionEnd s /\
      d = Some (selectionDirection s)
  | SET_TEXT t => t = text s
  | SET_TEXT_AND_SELECTION t ss se d =>
      t = text s /\ ss = selectionStart s /\ se = selectionEnd s /\
      d = Some (selectionDirection s)
  | _ => False
  end.

(** The entries [recordChange] keeps when [offset] indexes the stack:
    those up to [offset], less the oldest ones beyond HISTORY_LIMIT. *)
Definition kept (h : History) : list EditorHistoryRecord :=
  let upto := take (S (Z.to_nat (offset h))) (stack h) in
  drop (length upto - Z.to_nat HISTORY_LIMIT) upto.

(** The changes that the SET_TEXT case passes to [recordChange]. *)
Definition setTextChanges (t : string) : Changes :=
  {| c_text := Some t; c_selectionStart := None; c_selectionEnd := None;
     c_selectionDirection := None |}.

(** A table of closures in which every reducer hook returns [null]. *)
Definition noHooks : FnRef -> EditorState -> EditorAction -> option Outcome :=
  fun _ _ _ => None.

(** [s] is consistent and the record [r0] lies [i] entries below the one
    at the current offset. *)
Definition Below (s : EditorState) (i : nat) (r0 : EditorHistoryRecord) : Prop :=
  exists h r, history s = Some h /\
              JS.get (stack h) (offset h) = Some r /\
              snapshot_of s r /\
              JS.get (stack h) (offset h - Z.of_nat i) = Some r0.

(** The plugin ids that have a handler of the kind selected by [pick], in
    registry order. *)
Definition handlerIds {T : Type}
    (pick : PluginHandlers -> option (PluginEventHandler T))
    (reg : Registry) : list string :=
  map fst (List.filter (fun kv => bool_decide (is_Some (pick (snd kv)))) reg).

(** The plugin ids whose handler was invoked, in the order of the calls. *)
Fixpoint invokedIds (trace : list Effect) : list string :=
  match trace with
  | [] => []
  | Invoked id :: rest => id :: invokedIds rest
  | Dispatched _ :: rest => invokedIds rest
  end.

(** Every handler of the kind [pick] in [reg] returns [false] on the
    event. *)
Definition allDecline {T : Type}
    (pick : PluginHandlers -> option (PluginEventHandler T))
    (reg : Registry) (event : T) (s : EditorState) : Prop :=
  forall id handlers handler,
    (id, handlers) ∈ reg -> pick handlers = Some handler ->
    snd (handler event s) = false.

(** The stack of [s], if any, holds at most HISTORY_LIMIT + 1 records. *)
Definition Bounded (s : EditorState) : Prop :=
  forall h, history s = Some h ->
            Z.of_nat (length (stack h)) <= HISTORY_LIMIT + 1.

(** Length of the stack and offset of a state, when it has a history. *)
Definition historyShape (s : EditorState) : option (nat * Z) :=
  match history s with
  | Some h => Some (length (stack h), offset h)
  | None => None
  end.

(** [n] text changes, one second apart, each different from the text
    before it. *)
Definition keystrokes (n : nat) : list (EditorAction * Z) :=
  map (fun i => (SET_TEXT (if Nat.even i then "a" else "b"),
                 1000 * Z.of_nat (S i)))
      (seq 0 n).

Section Notions.

Variable call : FnRef -> EditorState -> EditorAction -> option Outcome.

(** Every reducer hook that is offered the action returns [null]. *)
Definition Unclaimed (s : EditorState) (a : EditorAction) : Prop :=
  snd (pluginPhase call s a) = None.

(** Each action of the run is a mutating one that changes the state and
    arrives late enough to be pushed as a history entry of its own. *)
Fixpoint Recorded (s : EditorState) (actions : list (EditorAction * Z)) : Prop :=
  match actions with
  | [] => True
  | (a, now) :: rest =>
      is_mutating a = true /\
      editorReducer call s a now <> Same /\
      opens_new_entry s now /\
      forall s', state_after s (editorReducer call s a now) = Some s' ->
                 Recorded s' rest
  end.

End Notions.

(** Follows the spec's words for the link test: the nearest "](" before
    the selection start exists; scanning backward from it with a nesting
    count finds its unmatched "["; the ")" that closes that "](" exists
    at or after the selection end; and the selection lies within the URL
    span between the two. *)
Definition specSelectionInMarkdownLink (text : string)
    (selectionStart selectionEnd : Z) : bool :=
  let openParenIndex :=
    JS.lastIndexOf (JS.substring2 text 0 selectionStart) "](" in
  if openParenIndex =? -1 then false
  else if findOpenBracket text (Z.to_nat openParenIndex) 1 =? -1 then false
  else
    let urlStart := openParenIndex + 2 in
    let closing := JS.indexOf (JS.substring1 text urlStart) ")" in
    if closing =? -1 then false
    else
      let urlEnd := urlStart + closing in
      let closesAfterSelection := selectionEnd <=? urlEnd in
      let withinUrlSpan :=
        (urlStart <=? selectionStart) && (selectionEnd <=? urlEnd) in
      closesAfterSelection && withinUrlSpan.

(* ===================================================================== *)
(** ** Sample data for the concrete runs *)
(* ===================================================================== *)

(** A state without history: text "abc", all of it selected. *)
Definition abcSelected : EditorState :=
  {| text := "abc"; selectionStart := 0; selectionEnd := 3;
     selectionDirection := NONE; editorHasFocus := true;
     plugins := Some []; history := None |}.

(** Ctrl+B *)
Definition ctrlB : KeyDownEvent :=
  {| key := "b"; ctrlKey := true; metaKey := false; shiftKey := false;
     altKey := false |}.

(** A table of closures: hook 1 returns the state it is given for every
    action, every other hook returns [null]. *)
Definition sampleHooks : FnRef -> EditorState -> EditorAction -> option Outcome :=
  fun f _ _ => if Nat.eqb f 1 then Some Same else None.

(** The composer's initial state with three plugin values put in. *)
Definition hookedState : EditorState :=
  {| text := "abc"; selectionStart := 0; selectionEnd := 0;
     selectionDirection := NONE; editorHasFocus := false;
     plugins := Some [("a", NoReducer); ("b", HasReducer 0%nat);
                      ("c", HasReducer 1%nat); ("d", HasReducer 2%nat)];
     history := history (initialState "abc" 0) |}.

Definition boldHandlers : PluginHandlers :=
  {| keyDown := Some boldKeyDownHandler; paste := None |}.

Definition undoRedoHandlers : PluginHandlers :=
  {| keyDown := Some undoRedoKeyDownHandler; paste := None |}.

(** The text of the repository's test with two links. *)
Definition twoLinks : string :=
  "[link1](https://example1.com) and [link2](https://example2.com)".

(* ===================================================================== *)
(** ** The other plugins (ItalicPlugin, BracketWrapPlugin) *)
(* ===================================================================== *)

(** The [keyDownHandler] of ItalicPlugin. *)
Definition italicKeyDownHandler : PluginEventHandler KeyDownEvent :=
  fun event state =>
    if selectionStart state =? selectionEnd state then ([], false)
    else
      let isModifierActive := metaKey event || ctrlKey event in
      if isModifierActive && String.eqb (key event) "i"
         && negb (altKey event) && negb (shiftKey event)
      then ([ADD_PREFIX_POSTFIX "_" "_"], true)
      else ([], false).

(** A string of one code unit, given by its number. *)
Definition codeUnit (n : nat) : string := String (Ascii.ascii_of_nat n) EmptyString.

(** [BRACKET_PAIRS]: round, square and curly brackets, the double quote
    (code unit 34), the single quote, the backtick and the guillemets
    (code units 171 and 187). *)
Definition BRACKET_PAIRS : list (string * string) :=
  [ ("(", ")"); ("[", "]"); ("{", "}");
    (codeUnit 34, codeUnit 34); ("'", "'"); ("`", "`");
    (codeUnit 171, codeUnit 187) ].

(** [BRACKET_PAIRS[key]] for an own key; [None] when [key] is none. *)
Fixpoint pairOf (pairs : list (string * string)) (key : string) : option string :=
  match pairs with
  | [] => None
  | (opening, closing) :: rest =>
      if String.eqb opening key then Some closing else pairOf rest key
  end.

(** The [keyDownHandler] of BracketWrapPlugin.  [key in BRACKET_PAIRS]
    also holds for the names the object inherits from its prototype, and
    [BRACKET_PAIRS[key]] is then the inherited value, which the reducer
    concatenates as a string: [inherited key] is that string, [None] for
    a name that is not inherited. *)
Definition bracketWrapKeyDownHandler (inherited : string -> option string)
  : PluginEventHandler KeyDownEvent :=
  fun event state =>
    if selectionStart state =? selectionEnd state then ([], false)
    else match pairOf BRACKET_PAIRS (key event) with
         | Some postfix => ([ADD_PREFIX_POSTFIX (key event) postfix], true)
         | None =>
             match inherited (key event) with
             | Some postfix => ([ADD_PREFIX_POSTFIX (key event) postfix], true)
             | None => ([], false)
             end
         end.

Definition italicHandlers : PluginHandlers :=
  {| keyDown := Some italicKeyDownHandler; paste := None |}.

Definition bracketWrapHandlers (inherited : string -> option string)
  : PluginHandlers :=
  {| keyDown := Some (bracketWrapKeyDownHandler inherited); paste := None |}.

Definition autoLinkHandlers (isValidHttpUrl : string -> bool) : PluginHandlers :=
  {| keyDown := None; paste := Some (autoLinkPasteHandler isValidHttpUrl) |}.

(* ===================================================================== *)
(** ** Editable.tsx: the handlers of the textarea *)
(* ===================================================================== *)

(** What the handlers read from [event.target], the textarea. *)
Record TextArea : Type := {
  value : string;
  ta_selectionStart : Z;
  ta_selectionEnd : Z;
  ta_selectionDirection : SelectionDirection
}.

(** [handleChange]: the action it passes to the context's dispatch. *)
Definition handleChange (target : TextArea) : list EditorAction :=
  [ SET_TEXT_AND_SELECTION (value target) (ta_selectionStart target)
      (ta_selectionEnd target) (Some (ta_selectionDirection target)) ].

(** [handleTextSelection]: dispatches only when the selection of the
    textarea differs from the one in the state. *)
Definition handleTextSelection (target : TextArea) (state : EditorState)
  : list EditorAction :=
  if negb (ta_selectionStart target =? selectionStart state)
     || negb (ta_selectionEnd target =? selectionEnd state)
     || negb (bool_decide (ta_selectionDirection target = selectionDirection state))
  then [ SET_SELECTION (ta_selectionStart target) (ta_selectionEnd target)
           (Some (ta_selectionDirection target)) ]
  else [].

(** [handleKeyDown] and [handlePaste] *)
Definition handleKeyDown (e : KeyDownEvent) : list EditorAction := [KEY_DOWN e].

Definition handlePaste (e : PasteEvent) : list EditorAction := [PASTE e].

(** The textarea as the effect of Editable leaves it: showing the state. *)
Definition textAreaOf (s : EditorState) : TextArea :=
  {| value := text s;
     ta_selectionStart := selectionStart s;
     ta_selectionEnd := selectionEnd s;
     ta_selectionDirection := selectionDirection s |}.

(* ===================================================================== *)
(** ** HistoryViewer.tsx *)
(* ===================================================================== *)

(** One entry of [historyItems]: its React key, whether its class has
    "current", and what it shows.  The time is shown through the locale's
    formatting of [item_time]. *)
Record HistoryItem : Type := {
  item_key : Z;
  item_current : bool;
  item_text : string;
  item_selectionStart : Z;
  item_selectionEnd : Z;
  item_selectionDirection : SelectionDirection;
  item_time : Z
}.

(** The text shown for a record: cut after 550 code units. *)
Definition shownText (t : string) : string :=
  if 550 <? JS.len t then JS.substring2 t 0 550 +:+ "..." else t.

Definition historyItem (h : History) (i : Z) (record : EditorHistoryRecord)
  : HistoryItem :=
  {| item_key := timestamp record;
     item_current := i =? offset h;
     item_text := shownText (h_text record);
     item_selectionStart := h_selectionStart record;
     item_selectionEnd := h_selectionEnd record;
     item_selectionDirection := h_selectionDirection record;
     item_time := timestamp record |}.

(** The loop [for (let i = history.stack.length - 1; i >= 0; i--)]:
    [historyItemsFrom h n] visits the indices [n - 1, ..., 0], all of them
    inside the stack. *)
Fixpoint historyItemsFrom (h : History) (n : nat) : list HistoryItem :=
  match n with
  | O => []
  | S i =>
      match JS.get (stack h) (Z.of_nat i) with
      | Some record => historyItem h (Z.of_nat i) record :: historyItemsFrom h i
      | None => historyItemsFrom h i
      end
  end.

(** [historyItems]; nothing is rendered without a history. *)
Definition historyItems (s : EditorState) : option (list HistoryItem) :=
  match history s with
  | Some h => Some (historyItemsFrom h (length (stack h)))
  | None => None
  end.

(** "Can Undo" and "Can Redo" of the viewer. *)
Definition canUndo (h : History) : bool := 0 <? offset h.

Definition canRedo (h : History) : bool :=
  offset h <? Z.of_nat (length (stack h)) - 1.

(* ===================================================================== *)
(** ** Further notions *)
(* ===================================================================== *)

(** Consecutive records of the stack are at least HISTORY_TIME_GAP apart
    in time. *)
Definition Spaced (st : list EditorHistoryRecord) : Prop :=
  forall i a b, st !! i = Some a -> st !! S i = Some b ->
                timestamp a + HISTORY_TIME_GAP <= timestamp b.

(** The selection bounds lie inside the text, in order. *)
Definition InRange (s : EditorState) : Prop :=
  0 <= selectionStart s <= selectionEnd s /\ selectionEnd s <= JS.len (text s).

(** The ids of a registry, in order. *)
Definition registryIds (reg : Registry) : list string := map fst reg.

(** The handlers registered under [id], if any. *)
Fixpoint registered (id : string) (reg : Registry) : option PluginHandlers :=
  match reg with
  | [] => None
  | (k, v) :: rest => if String.eqb k id then Some v else registered id rest
  end.

(* ===================================================================== *)
(** ** A key press or a paste, from the event to the actions sent *)
(* ===================================================================== *)

(** The actions that reach the reducer's [dispatch], in order. *)
Fixpoint sentActions (trace : list Effect) : list EditorAction :=
  match trace with
  | [] => []
  | Dispatched action :: rest => action :: sentActions rest
  | Invoked _ :: rest => sentActions rest
  end.

(** Whether the handler of an entry, if it has one of the kind selected
    by [pick], returns true for the event. *)
Definition handles {T : Type}
    (pick : PluginHandlers -> option (PluginEventHandler T))
    (event : T) (state : EditorState) (entry : string * PluginHandlers) : bool :=
  match pick (snd entry) with
  | Some handler => snd (handler event state)
  | None => false
  end.

(** The keys of the shortcuts of BoldPlugin, ItalicPlugin and
    UndoRedoPlugin. *)
Definition SHORTCUT_KEYS : list string := ["b"; "i"; "z"; "y"].

(** The [keyDown] members of the handlers that the plugins of the
    repository register: none for AutoLinkPlugin. *)
Definition shippedKeyDown (inherited : string -> option string)
  : list (option (PluginEventHandler KeyDownEvent)) :=
  [ None; Some boldKeyDownHandler; Some italicKeyDownHandler;
    Some (bracketWrapKeyDownHandler inherited); Some undoRedoKeyDownHandler ].

(** A registry that holds plugins of the repository only, in any order
    and under any ids. *)
Definition Shipped (inherited : string -> option string) (reg : Registry) : Prop :=
  Forall (fun entry => keyDown (snd entry) ∈ shippedKeyDown inherited) reg.

(** What the four key handlers send for an event, one after the other. *)
Definition keyAction (inherited : string -> option string)
    (event : KeyDownEvent) (state : EditorState) : list EditorAction :=
  fst (boldKeyDownHandler event state)
  ++ fst (italicKeyDownHandler event state)
  ++ fst (bracketWrapKeyDownHandler inherited event state)
  ++ fst (undoRedoKeyDownHandler event state).

(** The [paste] members of the handlers that the plugins of the
    repository register. *)
Definition shippedPaste (isValidHttpUrl : string -> bool)
  : list (option (PluginEventHandler PasteEvent)) :=
  [ None; Some (autoLinkPasteHandler isValidHttpUrl) ].

(* ===================================================================== *)
(** ** More sample data *)
(* ===================================================================== *)

(** A state after one undo: two records, the first of them current. *)
Definition undoneState : EditorState :=
  {| text := "a"; selectionStart := 1; selectionEnd := 1;
     selectionDirection := NONE; editorHasFocus := true;
     plugins := Some [];
     history :=
       Some {| stack := [ {| h_text := "a"; h_selectionStart := 1;
                             h_selectionEnd := 1; h_selectionDirection := NONE;
                             timestamp := 0 |};
                          {| h_text := "ab"; h_selectionStart := 2;
                             h_selectionEnd := 2; h_selectionDirection := NONE;
                             timestamp := 1000 |} ];
               offset := 0 |} |}.

(** The key "(" with no modifier. *)
Definition openParen : KeyDownEvent :=
  {| key := "("; ctrlKey := false; metaKey := false; shiftKey := false;
     altKey := false |}.

(** A bracket table that inherits nothing. *)
Definition noInherited : string -> option string := fun _ => None.

(** A stand-in for the URL parser: the text starts with a scheme of the
    web. *)
Definition startsWithHttp (u : string) : bool :=
  String.prefix "http://" u || String.prefix "https://" u.

(** The five plugins of the repository, registered under their ids. *)
Definition sampleRegistry : Registry :=
  [ ("bold-plugin", boldHandlers);
    ("italic-plugin", italicHandlers);
    ("bracket-wrap-plugin", bracketWrapHandlers noInherited);
    ("auto-link-plugin", autoLinkHandlers startsWithHttp);
    ("undo-redo-plugin", undoRedoHandlers) ].

Definition pastedUrl : PasteEvent :=
  {| clipboardText := "https://example.com" |}.

(** A textarea after "d" was typed behind "abc". *)
Definition typedTextArea : TextArea :=
  {| value := "abcd"; ta_selectionStart := 4; ta_selectionEnd := 4;
     ta_selectionDirection := NONE |}.

(* ===================================================================== *)
(** ** Facts about the JavaScript primitives *)
(* ===================================================================== *)

(** *** Arrays *)

Lemma get_Some {A} (l : list A) (i : Z) (x : A) :
  JS.get l i = Some x <-> 0 <= i /\ l !! Z.to_nat i = Some x.
Proof.
  unfold JS.get. destruct (Z.ltb_spec i 0); split.
  - discriminate.
  - intros [? _]. lia.
  - intros. split; [lia | assumption].
  - intros [_ ?]. assumption.
Qed.

Lemma get_of_nat {A} (l : list A) (i : nat) : JS.get l (Z.of_nat i) = l !! i.
Proof.
  unfold JS.get. destruct (Z.ltb_spec (Z.of_nat i) 0); [lia|].
  by rewrite Nat2Z.id.
Qed.

(** *** Strings *)

Lemma append_cons (c : ascii) (a b : string) :
  String c a +:+ b = String c (a +:+ b).
Proof. reflexivity. Qed.

Lemma append_nil (b : string) : EmptyString +:+ b = b.
Proof. reflexivity. Qed.

Lemma length_append (a b : string) :
  String.length (a +:+ b) = (String.length a + String.length b)%nat.
Proof. induction a as [|c a IH]; simpl; [reflexivity | by rewrite IH]. Qed.

Lemma append_assoc (a b c : string) : (a +:+ b) +:+ c = a +:+ (b +:+ c).
Proof.
  induction a as [|x a IH]; [reflexivity|]. by rewrite !append_cons, IH.
Qed.

Lemma length_0_empty (a : string) : String.length a = 0%nat -> a = EmptyString.
Proof. destruct a; [reflexivity | discriminate]. Qed.

Lemma str_take_0 (a : string) : JS.str_take 0 a = EmptyString.
Proof. by destruct a. Qed.

Lemma str_take_append (a b : string) : JS.str_take (String.length a) (a +:+ b) = a.
Proof. induction a as [|c a IH]; simpl; [by destruct b | by rewrite IH]. Qed.

Lemma str_drop_append (a b : string) : JS.str_drop (String.length a) (a +:+ b) = b.
Proof. induction a as [|c a IH]; simpl; [by destruct b | exact IH]. Qed.

Lemma length_str_take (n : nat) (a : string) :
  String.length (JS.str_take n a) = Nat.min n (String.length a).
Proof. revert a. induction n as [|n IH]; intros [|c a]; simpl; auto. Qed.

Lemma length_str_drop (n : nat) (a : string) :
  String.length (JS.str_drop n a) = (String.length a - n)%nat.
Proof. revert a. induction n as [|n IH]; intros [|c a]; simpl; auto. Qed.

Lemma str_take_drop (n : nat) (a : string) :
  JS.str_take n a +:+ JS.str_drop n a = a.
Proof.
  revert a. induction n as [|n IH]; intros [|c a]; simpl; auto.
  by rewrite append_cons, IH.
Qed.

Lemma str_drop_drop (n m : nat) (a : string) :
  JS.str_drop m (JS.str_drop n a) = JS.str_drop (n + m) a.
Proof. revert a. induction n as [|n IH]; intros [|c a]; simpl; auto. by destruct m. Qed.

Lemma str_take_all (n : nat) (a : string) :
  (String.length a <= n)%nat -> JS.str_take n a = a.
Proof.
  revert a. induction n as [|n IH]; intros [|c a]; simpl; auto; [lia|].
  intros. rewrite IH; [done | lia].
Qed.

(** *** Slices *)

Lemma slice_in_range (t : string) (i j : Z) :
  0 <= i <= j -> j <= JS.len t ->
  JS.slice2 t i j = JS.str_take (Z.to_nat (j - i)) (JS.str_drop (Z.to_nat i) t).
Proof.
  intros Hij Hj. unfold JS.slice2, JS.rel, JS.len in *.
  destruct (Z.ltb_spec i 0); [lia|]. destruct (Z.ltb_spec j 0); [lia|].
  by rewrite !Z.min_l by lia.
Qed.

Lemma slice_beyond (t : string) (i j : Z) :
  JS.len t <= i -> JS.slice2 t i j = EmptyString.
Proof.
  intros Hi. unfold JS.slice2, JS.rel, JS.len in *.
  destruct (Z.ltb_spec i 0); [lia|].
  rewrite (Z.min_r i) by lia. rewrite Nat2Z.id.
  apply length_0_empty.
  by rewrite length_str_take, length_str_drop, Nat.sub_diag, Nat.min_0_r.
Qed.

Lemma slice_empty_range (t : string) (i : Z) : JS.slice2 t i (i + 0) = EmptyString.
Proof.
  unfold JS.slice2. rewrite Z.add_0_r, Z.sub_diag. apply str_take_0.
Qed.

Lemma len_slice_from_0 (t : string) (i : Z) :
  0 <= i -> JS.len (JS.slice2 t 0 i) = Z.min i (JS.len t).
Proof.
  intros Hi. unfold JS.slice2, JS.rel, JS.len. simpl.
  destruct (Z.ltb_spec i 0); [lia|].
  rewrite length_str_take. simpl.
  destruct (Z.min_spec 0 (Z.of_nat (String.length t))) as [[? ->]|[? ->]]; simpl; lia.
Qed.

(** The text under the selection that ADD_PREFIX_POSTFIX computes. *)
Lemma slice_of_wrapped (before prefix selected rest : string) (start : Z) :
  start = JS.len before ->
  JS.slice2 (before +:+ prefix +:+ selected +:+ rest)
            (start + JS.len prefix) (start + JS.len prefix + JS.len selected)
  = selected.
Proof.
  intros ->. unfold JS.slice2, JS.rel, JS.len.
  rewrite !length_append.
  destruct (Z.ltb_spec (Z.of_nat (String.length before) + Z.of_nat (String.length prefix)) 0); [lia|].
  destruct (Z.ltb_spec (Z.of_nat (String.length before) + Z.of_nat (String.length prefix)
                        + Z.of_nat (String.length selected)) 0); [lia|].
  rewrite !Z.min_l by lia.
  replace (Z.to_nat (Z.of_nat (String.length before) + Z.of_nat (String.length prefix)))
    with (String.length (before +:+ prefix)) by (rewrite length_append; lia).
  rewrite <- (append_assoc before prefix), str_drop_append.
  replace (Z.to_nat _) with (String.length selected) by lia.
  apply str_take_append.
Qed.

Lemma selection_partition (t : string) (i j : Z) :
  0 <= i <= j -> j <= JS.len t ->
  JS.slice2 t 0 i +:+ JS.slice2 t i j +:+ JS.slice1 t j = t /\
  JS.len (JS.slice2 t i j) = j - i.
Proof.
  intros Hij Hj. unfold JS.slice1.
  rewrite !slice_in_range by (unfold JS.len in *; lia).
  unfold JS.len in *. simpl. rewrite Z.sub_0_r.
  rewrite (str_take_all (Z.to_nat (Z.of_nat (String.length t) - j)))
    by (rewrite length_str_drop; lia).
  split.
  - replace (Z.to_nat j) with (Z.to_nat i + Z.to_nat (j - i))%nat by lia.
    rewrite <- (str_drop_drop (Z.to_nat i) (Z.to_nat (j - i))).
    by rewrite !str_take_drop.
  - rewrite length_str_take, length_str_drop. lia.
Qed.

Lemma substring1_drop (t : string) (a : Z) :
  JS.substring1 t a = JS.str_drop (Z.to_nat (JS.clamp (JS.len t) a)) t.
Proof.
  unfold JS.substring1, JS.substring2, JS.clamp, JS.len.
  rewrite Z.min_id.
  rewrite (Z.max_r 0 (Z.of_nat (String.length t))) by lia.
  rewrite (Z.min_l (Z.max 0 _)) by lia. rewrite (Z.max_r (Z.max 0 _)) by lia.
  apply str_take_all. rewrite length_str_drop. lia.
Qed.

(** *** Searching *)

Lemma indexOf_from_unfold (pat s : string) (i : Z) :
  JS.indexOf_from pat s i
  = if String.prefix pat s then i
    else match s with
         | EmptyString => -1
         | String _ s' => JS.indexOf_from pat s' (i + 1)
         end.
Proof. by destruct s. Qed.

(** A result other than -1 is a position at or after the start of the
    scan, and the pattern starts there. *)
Lemma indexOf_from_found (pat s : string) (i : Z) :
  0 <= i ->
  JS.indexOf_from pat s i <> -1 ->
  i <= JS.indexOf_from pat s i <= i + JS.len s /\
  String.prefix pat (JS.str_drop (Z.to_nat (JS.indexOf_from pat s i - i)) s) = true.
Proof.
  revert i. induction s as [|c s IH]; intros i Hi; rewrite indexOf_from_unfold.
  - destruct (String.prefix pat EmptyString) eqn:E; [|done].
    intros _. rewrite Z.sub_diag. unfold JS.len. simpl. split; [lia | done].
  - destruct (String.prefix pat (String c s)) eqn:E.
    + intros _. rewrite Z.sub_diag. unfold JS.len. simpl. split; [lia | done].
    + intros Hne. destruct (IH (i + 1) ltac:(lia) Hne) as [Hr Hp].
      unfold JS.len in *. simpl String.length. split; [lia|].
      replace (Z.to_nat (JS.indexOf_from pat s (i + 1) - i))
        with (S (Z.to_nat (JS.indexOf_from pat s (i + 1) - (i + 1)))) by lia.
      exact Hp.
Qed.

(** If the pattern starts at some position, the scan finds one. *)
Lemma indexOf_from_exists (pat s : string) (i : Z) (j : nat) :
  0 <= i ->
  String.prefix pat (JS.str_drop j s) = true ->
  JS.indexOf_from pat s i <> -1.
Proof.
  revert s i. induction j as [|j IH]; intros s i Hi Hp; rewrite indexOf_from_unfold.
  - assert (JS.str_drop 0 s = s) as E by (by destruct s).
    rewrite E in Hp. rewrite Hp. lia.
  - destruct (String.prefix pat s) eqn:E; [lia|].
    destruct s as [|c s].
    + change (JS.str_drop (S j) EmptyString) with EmptyString in Hp. congruence.
    + change (JS.str_drop (S j) (String c s)) with (JS.str_drop j s) in Hp.
      apply IH; [lia | exact Hp].
Qed.

Lemma lastIndexOf_from_range (pat s : string) (i : Z) :
  0 <= i -> JS.lastIndexOf_from pat s i = -1 \/ i <= JS.lastIndexOf_from pat s i.
Proof.
  revert i. induction s as [|c s IH]; intros i Hi.
  - change (JS.lastIndexOf_from pat EmptyString i)
      with (if String.prefix pat EmptyString then i else -1).
    destruct (String.prefix pat EmptyString); [right; lia | by left].
  - change (JS.lastIndexOf_from pat (String c s) i)
      with (if JS.lastIndexOf_from pat s (i + 1) =? -1
            then (if String.prefix pat (String c s) then i else -1)
            else JS.lastIndexOf_from pat s (i + 1)).
    destruct (Z.eqb_spec (JS.lastIndexOf_from pat s (i + 1)) (-1)) as [E|E].
    + destruct (String.prefix pat (String c s)); [right; lia | by left].
    + destruct (IH (i + 1) ltac:(lia)); [done | right; lia].
Qed.

(* ===================================================================== *)
(** ** Properties of recordChange *)
(* ===================================================================== *)

(** [stack.slice(0, offset + 1)] under the guard of the source, or the
    stack itself when [offset] is its last index. *)
Lemma drop_redo_entries (st : list EditorHistoryRecord) (off : Z) :
  0 <= off < Z.of_nat (length st) ->
  (if negb (Z.of_nat (length st) =? 0) && (-1 <? off)
      && (off <? Z.of_nat (length st) - 1)
   then (JS.arr_slice2 st 0 (off + 1), off) else (st, off))
  = (take (S (Z.to_nat off)) st, off).
Proof.
  intros Hoff.
  destruct (Z.eqb_spec (Z.of_nat (length st)) 0); [lia|].
  destruct (Z.ltb_spec (-1) off); [|lia]. simpl.
  destruct (Z.ltb_spec off (Z.of_nat (length st) - 1)).
  - unfold JS.arr_slice2, JS.rel. simpl.
    destruct (Z.ltb_spec (off + 1) 0); [lia|].
    rewrite !Z.min_l by lia. simpl. rewrite drop_0.
    f_equal. f_equal. lia.
  - f_equal. symmetry. apply take_ge. lia.
Qed.

(** The eviction step on a stack that ends at the current offset. *)
Lemma limit_entries (st : list EditorHistoryRecord) (off : Z) :
  Z.of_nat (length st) = off + 1 ->
  (if HISTORY_LIMIT <? Z.of_nat (length st)
   then (JS.arr_slice1 st (Z.of_nat (length st) - HISTORY_LIMIT),
         Z.max (off - (Z.of_nat (length st) - HISTORY_LIMIT)) 0)
   else (st, off))
  = (drop (length st - Z.to_nat HISTORY_LIMIT) st,
     Z.of_nat (length (drop (length st - Z.to_nat HISTORY_LIMIT) st)) - 1).
Proof.
  intros Hlen. unfold HISTORY_LIMIT in *.
  destruct (Z.ltb_spec 1000 (Z.of_nat (length st))).
  - unfold JS.arr_slice1, JS.arr_slice2, JS.rel.
    destruct (Z.ltb_spec (Z.of_nat (length st) - 1000) 0); [lia|].
    destruct (Z.ltb_spec (Z.of_nat (length st)) 0); [lia|].
    rewrite !Z.min_l by lia.
    replace (Z.to_nat (Z.of_nat (length st) - 1000))
      with (length st - Z.to_nat 1000)%nat by lia.
    rewrite take_ge by (rewrite length_drop; lia).
    f_equal. rewrite length_drop. lia.
  - replace (length st - Z.to_nat 1000)%nat with 0%nat by lia.
    rewrite drop_0. f_equal. lia.
Qed.

Lemma kept_length h last :
  JS.get (stack h) (offset h) = Some last ->
  length (kept h) = Nat.min (S (Z.to_nat (offset h))) (Z.to_nat HISTORY_LIMIT).
Proof.
  intros [Hoff Hlk]%get_Some. apply lookup_lt_Some in Hlk.
  unfold kept. cbv zeta. rewrite length_drop, length_take. lia.
Qed.

Lemma kept_current h last :
  JS.get (stack h) (offset h) = Some last ->
  kept h !! Nat.pred (length (kept h)) = Some last.
Proof.
  intros H. pose proof (kept_length _ _ H) as Hlen.
  apply get_Some in H as [Hoff Hlk]. pose proof (lookup_lt_Some _ _ _ Hlk) as Hlt.
  revert Hlen. unfold kept. cbv zeta. intros Hlen. rewrite Hlen.
  rewrite lookup_drop, lookup_take_lt; rewrite ?length_take.
  - rewrite <- Hlk. f_equal. unfold HISTORY_LIMIT. lia.
  - unfold HISTORY_LIMIT. lia.
Qed.

Lemma kept_lookup h last (j : nat) :
  JS.get (stack h) (offset h) = Some last ->
  (j < length (kept h))%nat ->
  kept h !! j = stack h !! (S (Z.to_nat (offset h)) - length (kept h) + j)%nat.
Proof.
  intros Hget Hj. pose proof (kept_length _ _ Hget) as Hlen.
  apply get_Some in Hget as [Hoff Hlk]. pose proof (lookup_lt_Some _ _ _ Hlk) as Hlt.
  rewrite Hlen in *. unfold kept. cbv zeta.
  rewrite lookup_drop, lookup_take_lt; rewrite length_take.
  - f_equal. lia.
  - lia.
Qed.

Lemma kept_sublist h : kept h `sublist_of` stack h.
Proof.
  unfold kept. cbv zeta. etransitivity; [apply sublist_drop | apply sublist_take].
Qed.

(** With a valid offset, [recordChange] either rewrites the entry at the
    top of the kept entries, or pushes one on top of them. *)
Lemma recordHistory_at_valid_offset h record last :
  JS.get (stack h) (offset h) = Some last ->
  recordHistory h record =
    if timestamp record - timestamp last <? HISTORY_TIME_GAP
    then {| stack := <[Nat.pred (length (kept h)) :=
                         with_timestamp record (timestamp last)]> (kept h);
            offset := Z.of_nat (length (kept h)) - 1 |}
    else {| stack := kept h ++ [record];
            offset := Z.of_nat (length (kept h)) |}.
Proof.
  intros H. pose proof (kept_current _ _ H) as Hcur.
  pose proof (kept_length _ _ H) as Hlen.
  apply get_Some in H as [Hoff Hlk]. pose proof (lookup_lt_Some _ _ _ Hlk) as Hlt.
  unfold recordHistory.
  rewrite drop_redo_entries by lia.
  rewrite limit_entries by (rewrite length_take; lia).
  fold (kept h).
  replace (Z.of_nat (length (kept h)) - 1) with (Z.of_nat (Nat.pred (length (kept h))))
    by (rewrite Hlen; unfold HISTORY_LIMIT; lia).
  rewrite get_of_nat, Hcur, Nat2Z.id.
  destruct (_ <? _); f_equal. rewrite Hlen. unfold HISTORY_LIMIT. lia.
Qed.

Lemma recordHistory_length_bound (h : History) (record : EditorHistoryRecord) :
  Z.of_nat (length (stack (recordHistory h record))) <= HISTORY_LIMIT + 1.
Proof.
  unfold recordHistory.
  destruct (if _ && _ && _ then _ else _) as [st1 off1].
  assert (forall st2 off2,
            (if HISTORY_LIMIT <? Z.of_nat (length st1)
             then (JS.arr_slice1 st1 (Z.of_nat (length st1) - HISTORY_LIMIT),
                   Z.max (offset h - (Z.of_nat (length st1) - HISTORY_LIMIT)) 0)
             else (st1, off1)) = (st2, off2) ->
            Z.of_nat (length st2) <= HISTORY_LIMIT) as Hlim.
  { intros st2 off2. unfold HISTORY_LIMIT.
    destruct (Z.ltb_spec 1000 (Z.of_nat (length st1))); intros [= <- <-]; [|lia].
    unfold JS.arr_slice1, JS.arr_slice2, JS.rel.
    destruct (Z.ltb_spec (Z.of_nat (length st1) - 1000) 0); [lia|].
    destruct (Z.ltb_spec (Z.of_nat (length st1)) 0); [lia|].
    rewrite length_take, length_drop. lia. }
  destruct (if HISTORY_LIMIT <? _ then _ else _) as [st2 off2].
  specialize (Hlim _ _ eq_refl).
  destruct (JS.get st2 off2) as [last|]; [destruct (_ <? _)|]; simpl;
    rewrite ?length_insert, ?length_app; simpl; lia.
Qed.

Lemma recordChange_history s c now h :
  history s = Some h ->
  recordChange s c now
  = with_history (spread s c) (recordHistory h (candidate s c now)).
Proof. unfold recordChange. by intros ->. Qed.

Lemma recordChange_plugins s c now : plugins (recordChange s c now) = plugins s.
Proof. unfold recordChange. by destruct (history s). Qed.

Lemma recordChange_hookFree s c now :
  hookFree (recordChange s c now) = hookFree s.
Proof. unfold hookFree. by rewrite recordChange_plugins. Qed.

Lemma recordChange_Bounded s c now : Bounded (recordChange s c now).
Proof.
  intros h'. unfold recordChange. destruct (history s) as [h|] eqn:Hh; simpl.
  - intros [= <-]. apply recordHistory_length_bound.
  - rewrite Hh. discriminate.
Qed.

(** The stack that [recordChange] builds holds at most HISTORY_LIMIT + 1
    records; without a history none is built. *)
Theorem recordChange_stack_bound (s : EditorState) (c : Changes) (now : Z) :
  match history (recordChange s c now) with
  | Some h' => Z.of_nat (length (stack h')) <= HISTORY_LIMIT + 1
  | None => history s = None
  end.
Proof.
  unfold recordChange. destruct (history s) as [h|] eqn:Hh; simpl.
  - apply recordHistory_length_bound.
  - by rewrite Hh.
Qed.

Lemma candidate_snapshot s c now h :
  snapshot_of (with_history (spread s c) h) (candidate s c now).
Proof. by repeat split. Qed.

Lemma recordChange_Consistent s c now :
  Consistent s -> Consistent (recordChange s c now).
Proof.
  intros (h & r & Hh & Hget & Hsnap).
  pose proof (kept_length _ _ Hget) as Hlen.
  rewrite (recordChange_history _ _ _ _ Hh).
  rewrite (recordHistory_at_valid_offset _ _ _ Hget).
  destruct (_ <? _); eexists; eexists; (split; [reflexivity|]); simpl.
  - split; [|apply (candidate_snapshot s c (timestamp r))].
    replace (Z.of_nat (length (kept h)) - 1)
      with (Z.of_nat (Nat.pred (length (kept h))))
      by (rewrite Hlen; unfold HISTORY_LIMIT; lia).
    rewrite get_of_nat. apply list_lookup_insert_eq.
    rewrite Hlen. unfold HISTORY_LIMIT. lia.
  - split; [|apply candidate_snapshot].
    rewrite get_of_nat. by rewrite lookup_app_r, Nat.sub_diag.
Qed.

Lemma restore_Consistent s h r i :
  JS.get (stack h) i = Some r -> Consistent (restore s r h i).
Proof. intros Hget. exists {| stack := stack h; offset := i |}, r. by repeat split. Qed.

(* ===================================================================== *)
(** ** Properties of the reducer *)
(* ===================================================================== *)

Section ReducerProperties.

Variable call : FnRef -> EditorState -> EditorAction -> option Outcome.

(** *** The plugin phase *)

(** While every hook met so far returns [null] the loop goes on; without
    hooks it calls nothing and yields nothing. *)
Lemma offerToPlugins_hookless ps s a :
  forallb (fun kv => negb (has_reducer (snd kv))) ps = true ->
  offerToPlugins call ps s a = ([], None).
Proof.
  induction ps as [|[id v] ps IH]; simpl; [reflexivity|].
  destruct v; simpl; [exact IH | discriminate].
Qed.

Lemma hookFree_Unclaimed s a : hookFree s = true -> Unclaimed call s a.
Proof.
  unfold hookFree, Unclaimed, pluginPhase. intros H.
  destruct (plugins s) as [ps|]; simpl in *; [|reflexivity].
  by rewrite offerToPlugins_hookless.
Qed.

Lemma editorReducer_builtin s a now :
  Unclaimed call s a -> editorReducer call s a now = reduceBuiltin s a now.
Proof. unfold Unclaimed, editorReducer. by intros ->. Qed.

Lemma offerToPlugins_declined pre rest s a :
  (forall id f, (id, HasReducer f) ∈ pre -> call f s a = None) ->
  offerToPlugins call (pre ++ rest) s a
  = (hookIds pre ++ fst (offerToPlugins call rest s a),
     snd (offerToPlugins call rest s a)).
Proof.
  induction pre as [|[id v] pre IH]; intros Hnull.
  - simpl. by destruct (offerToPlugins call rest s a).
  - rewrite <- app_comm_cons.
    assert (forall id f, (id, HasReducer f) ∈ pre -> call f s a = None) as Hpre
      by (intros; eapply Hnull; by right).
    destruct v as [|f].
    + simpl. by apply IH.
    + cbn [offerToPlugins]. rewrite (Hnull id f) by left.
      rewrite IH by done. reflexivity.
Qed.

(** C8: the reducer offers the action to the reducer hooks of
    [state.plugins] in iteration order.  The first hook that returns a
    non-null result ends the loop: the hooks called are those before it
    and itself, and its result is what the reducer returns, whatever the
    action; no case of the switch, hence no [recordChange], runs.  When
    every hook returns null, all of them were called and the switch
    decides. *)
Theorem plugin_hook_overrides_builtin (s : EditorState) (a : EditorAction)
    (now : Z) (ps : list (string * PluginValue)) :
  plugins s = Some ps ->
  (forall pre id f post result,
     ps = pre ++ (id, HasReducer f) :: post ->
     (forall id' f', (id', HasReducer f') ∈ pre -> call f' s a = None) ->
     call f s a = Some result ->
     pluginPhase call s a = (hookIds pre ++ [id], Some result) /\
     editorReducer call s a now = result) /\
  ((forall id f, (id, HasReducer f) ∈ ps -> call f s a = None) ->
   pluginPhase call s a = (hookIds ps, None) /\
   editorReducer call s a now = reduceBuiltin s a now).
Proof.
  intros Hps. split.
  - intros pre id f post result -> Hpre Hf.
    assert (pluginPhase call s a = (hookIds pre ++ [id], Some result)) as Hphase.
    { unfold pluginPhase. rewrite Hps, offerToPlugins_declined by done.
      cbn [offerToPlugins]. by rewrite Hf. }
    split; [done|]. unfold editorReducer. by rewrite Hphase.
  - intros Hall.
    assert (pluginPhase call s a = (hookIds ps, None)) as Hphase.
    { unfold pluginPhase. rewrite Hps.
      rewrite <- (app_nil_r ps) at 1. rewrite offerToPlugins_declined by done.
      simpl. by rewrite app_nil_r. }
    split; [done|]. unfold editorReducer. by rewrite Hphase.
Qed.

(** *** Actions that leave the state alone *)

(** C9: an action whose type is none of the labels of the switch, and
    which no plugin hook claims, makes the reducer return the state object
    it was given: nothing is thrown and the store keeps the same state. *)
Theorem unknown_action_returns_same_state (s : EditorState) (a : EditorAction) (now : Z) :
  Unclaimed call s a ->
  ~ In (action_type a) known_action_types ->
  editorReducer call s a now = Same /\
  state_after s (editorReducer call s a now) = Some s.
Proof.
  intros Hun Htype. rewrite editorReducer_builtin by assumption.
  destruct a; simpl in Htype; try (exfalso; tauto); split; reflexivity.
Qed.

(** C5: SET_SELECTION, SET_TEXT and SET_TEXT_AND_SELECTION whose payload
    repeats the current fields return the state object they were given, so
    the history (stack and offset) is the one from before. *)
Theorem restating_action_returns_same_state (s : EditorState) (a : EditorAction) (now : Z) :
  Unclaimed call s a ->
  restates s a ->
  editorReducer call s a now = Same /\
  history <$> state_after s (editorReducer call s a now) = Some (history s).
Proof.
  intros Hun Hre. rewrite editorReducer_builtin by assumption.
  assert (reduceBuiltin s a now = Same) as ->; [|split; reflexivity].
  destruct a; simpl in Hre; try contradiction; simpl.
  - subst. by rewrite bool_decide_eq_true_2.
  - destruct Hre as (-> & -> & ->). rewrite !Z.eqb_refl. simpl.
    by rewrite bool_decide_eq_true_2.
  - destruct Hre as (-> & -> & -> & ->). rewrite !Z.eqb_refl.
    simpl. by rewrite !bool_decide_eq_true_2.
Qed.

(** *** Wrapping the selection *)

(** C3: ADD_PREFIX_POSTFIX, when no plugin hook claims it, computes
    before + prefix + selected + postfix + after from the slices of the
    old text at the old selection bounds, and the selection that starts
    [len(prefix)] after the old start and has the length of the selected
    text.  If text and selection come out as they were, the state object
    itself is returned; otherwise a new state with the new text and
    selection (and the old direction).  With a selection start that is
    not negative, the text under the new selection is the selected text;
    with bounds inside the text, the three slices make up the old text and
    the new end is the old end moved by [len(prefix)]. *)
Theorem add_prefix_postfix_wraps_selection (s : EditorState)
    (prefix postfix : string) (now : Z) :
  Unclaimed call s (ADD_PREFIX_POSTFIX prefix postfix) ->
  let before := JS.slice2 (text s) 0 (selectionStart s) in
  let selected := JS.slice2 (text s) (selectionStart s) (selectionEnd s) in
  let after := JS.slice1 (text s) (selectionEnd s) in
  let text' := before +:+ prefix +:+ selected +:+ postfix +:+ after in
  let start' := selectionStart s + JS.len prefix in
  let end' := start' + JS.len selected in
  (text' = text s /\ start' = selectionStart s /\ end' = selectionEnd s ->
   editorReducer call s (ADD_PREFIX_POSTFIX prefix postfix) now = Same) /\
  (~ (text' = text s /\ start' = selectionStart s /\ end' = selectionEnd s) ->
   exists s',
     editorReducer call s (ADD_PREFIX_POSTFIX prefix postfix) now = Fresh s' /\
     text s' = text' /\ selectionStart s' = start' /\ selectionEnd s' = end' /\
     selectionDirection s' = selectionDirection s) /\
  (0 <= selectionStart s -> JS.slice2 text' start' end' = selected) /\
  (0 <= selectionStart s <= selectionEnd s ->
   selectionEnd s <= JS.len (text s) ->
   before +:+ selected +:+ after = text s /\
   end' = selectionEnd s + JS.len prefix).
Proof.
  intros Hun before selected after text' start' end'.
  rewrite editorReducer_builtin by assumption.
  unfold reduceBuiltin.
  fold before selected after. fold text'. fold start'. fold end'.
  split; [|split; [|split]].
  - intros (Ht & Hs & He).
    rewrite bool_decide_eq_true_2 by done.
    by rewrite (proj2 (Z.eqb_eq _ _) (eq_sym Hs)), (proj2 (Z.eqb_eq _ _) (eq_sym He)).
  - intros Hne.
    destruct (bool_decide (text s = text') && (selectionStart s =? start')
              && (selectionEnd s =? end')) eqn:E.
    + exfalso. apply Hne.
      apply andb_true_iff in E as [[E1%bool_decide_eq_true E2%Z.eqb_eq]%andb_true_iff E3%Z.eqb_eq].
      done.
    + eexists. split; [reflexivity|]. unfold recordChange.
      destruct (history s); simpl; done.
  - intros Hss.
    destruct (Z.le_gt_cases (selectionStart s) (JS.len (text s))) as [Hle|Hgt].
    + apply slice_of_wrapped. subst before.
      rewrite len_slice_from_0 by assumption. lia.
    + assert (selected = EmptyString) as ->
        by (subst selected; apply slice_beyond; lia).
      subst end'. apply slice_empty_range.
  - intros Hrange Hend.
    destruct (selection_partition (text s) _ _ Hrange Hend) as [Hparts Hlen].
    split; [exact Hparts|]. subst end' start' selected. rewrite Hlen. lia.
Qed.

(** *** Recording *)

Lemma mutating_cases s a now :
  is_mutating a = true ->
  reduceBuiltin s a now = Same \/
  exists c, reduceBuiltin s a now = Fresh (recordChange s c now).
Proof.
  destruct a; try discriminate; intros _; simpl;
    match goal with |- context [if ?b then Same else _] => destruct b end;
    eauto.
Qed.

(** C10: with history present and direction "none", SET_SELECTION with
    the current bounds and no direction in the payload is not taken for a
    duplicate: the reducer returns a new state built by [recordChange] for
    the candidate with direction NONE.  Text, bounds and direction keep
    their values.  When the offset indexes the stack, the record at the
    new offset is a snapshot of the state; and when moreover the offset
    is the last index, the stack is within HISTORY_LIMIT and the record
    there is at least HISTORY_TIME_GAP old, the stack grows by that one
    record and the offset by one. *)
Theorem set_selection_without_direction_is_recorded (s : EditorState)
    (h : History) (now : Z) :
  Unclaimed call s (SET_SELECTION (selectionStart s) (selectionEnd s) None) ->
  history s = Some h ->
  selectionDirection s = NONE ->
  exists s' h',
    editorReducer call s (SET_SELECTION (selectionStart s) (selectionEnd s) None) now
      = Fresh s' /\
    history s' = Some h' /\
    h' = recordHistory h {| h_text := text s;
                            h_selectionStart := selectionStart s;
                            h_selectionEnd := selectionEnd s;
                            h_selectionDirection := NONE;
                            timestamp := now |} /\
    text s' = text s /\
    selectionStart s' = selectionStart s /\
    selectionEnd s' = selectionEnd s /\
    selectionDirection s' = selectionDirection s /\
    forall last,
      JS.get (stack h) (offset h) = Some last ->
      (exists r, JS.get (stack h') (offset h') = Some r /\ snapshot_of s' r) /\
      (HISTORY_TIME_GAP <= now - timestamp last ->
       offset h = Z.of_nat (length (stack h)) - 1 ->
       Z.of_nat (length (stack h)) <= HISTORY_LIMIT ->
       stack h' = stack h ++ [ {| h_text := text s;
                                  h_selectionStart := selectionStart s;
                                  h_selectionEnd := selectionEnd s;
                                  h_selectionDirection := NONE;
                                  timestamp := now |} ] /\
       offset h' = offset h + 1).
Proof.
  intros Hun Hh Hdir.
  rewrite editorReducer_builtin by assumption.
  unfold reduceBuiltin, direction_is. rewrite andb_false_r.
  rewrite (recordChange_history _ _ _ _ Hh).
  eexists. eexists. split; [reflexivity|]. simpl.
  split; [reflexivity|]. unfold candidate. simpl.
  split; [reflexivity|]. repeat (split; [done|]).
  intros last Hget. pose proof (kept_length _ _ Hget) as Hlen.
  rewrite (recordHistory_at_valid_offset _ _ _ Hget). simpl.
  split.
  - destruct (now - timestamp last <? HISTORY_TIME_GAP); simpl.
    + eexists. split.
      * replace (Z.of_nat (length (kept h)) - 1)
          with (Z.of_nat (Nat.pred (length (kept h))))
          by (rewrite Hlen; unfold HISTORY_LIMIT; lia).
        rewrite get_of_nat. apply list_lookup_insert_eq.
        rewrite Hlen. unfold HISTORY_LIMIT. lia.
      * done.
    + eexists. split.
      * rewrite get_of_nat. by rewrite lookup_app_r, Nat.sub_diag.
      * done.
  - intros Hold Hlast Hlim.
    destruct (Z.ltb_spec (now - timestamp last) HISTORY_TIME_GAP); [lia|]. simpl.
    assert (kept h = stack h) as ->.
    { unfold kept. cbv zeta. rewrite take_ge by lia.
      replace (length (stack h) - Z.to_nat HISTORY_LIMIT)%nat with 0%nat by lia.
      apply drop_0. }
    split; [reflexivity | lia].
Qed.

(** C4 (amended): when the record at the current offset is less than
    HISTORY_TIME_GAP older than the candidate, [recordChange] overwrites
    that record with the candidate's content under the record's own
    timestamp, and the stack does not grow.  Hence two SET_TEXT actions
    less than 200 ms apart, the first of which opened an entry of its own
    (it changed the text at least 200 ms after the timestamp of the record
    then current), leave exactly one entry on top of older ones, holding
    the first action's timestamp and the second action's text. *)
Theorem coalescing_keeps_first_timestamp (s : EditorState) (h : History)
    (last : EditorHistoryRecord) :
  history s = Some h ->
  JS.get (stack h) (offset h) = Some last ->
  (forall c now,
     now - timestamp last < HISTORY_TIME_GAP ->
     exists h',
       history (recordChange s c now) = Some h' /\
       stack h' = <[Nat.pred (length (kept h)) :=
                      with_timestamp (candidate s c now) (timestamp last)]> (kept h) /\
       offset h' = Z.of_nat (length (kept h)) - 1 /\
       JS.get (stack h') (offset h')
         = Some (with_timestamp (candidate s c now) (timestamp last)) /\
       (length (stack h') <= length (stack h))%nat) /\
  (forall x t1 y t2,
     hookFree s = true ->
     x <> text s ->
     HISTORY_TIME_GAP <= t1 - timestamp last ->
     t2 - t1 < HISTORY_TIME_GAP ->
     exists s2 h2 older,
       dispatchAll call s [(SET_TEXT x, t1); (SET_TEXT y, t2)] = Some s2 /\
       history s2 = Some h2 /\
       text s2 = y /\
       older `sublist_of` stack h /\
       stack h2 = older ++ [ {| h_text := y;
                                h_selectionStart := selectionStart s;
                                h_selectionEnd := selectionEnd s;
                                h_selectionDirection := selectionDirection s;
                                timestamp := t1 |} ] /\
       offset h2 = Z.of_nat (length older)).
Proof.
  intros Hh Hget. pose proof (kept_length _ _ Hget) as Hlen.
  pose proof (kept_current _ _ Hget) as Hcur.
  assert (length (kept h) <= length (stack h))%nat as Hle
    by (apply sublist_length, kept_sublist).
  split.
  - intros c now Hgap. eexists. rewrite (recordChange_history _ _ _ _ Hh). simpl.
    split; [reflexivity|].
    rewrite (recordHistory_at_valid_offset _ _ _ Hget). simpl.
    destruct (Z.ltb_spec (now - timestamp last) HISTORY_TIME_GAP); [|lia]. simpl.
    split; [reflexivity|]. split; [reflexivity|]. split.
    + replace (Z.of_nat (length (kept h)) - 1)
        with (Z.of_nat (Nat.pred (length (kept h))))
        by (rewrite Hlen; unfold HISTORY_LIMIT; lia).
      rewrite get_of_nat. apply list_lookup_insert_eq.
      rewrite Hlen. unfold HISTORY_LIMIT. lia.
    + by rewrite length_insert.
  - intros x t1 y t2 Hfree Hx Hold Hsoon. simpl.
    rewrite editorReducer_builtin by (by apply hookFree_Unclaimed).
    simpl. rewrite bool_decide_eq_false_2 by congruence. simpl.
    set (s1 := recordChange s _ t1).
    assert (hookFree s1 = true) as Hfree1
      by (subst s1; by rewrite recordChange_hookFree).
    rewrite editorReducer_builtin by (by apply hookFree_Unclaimed).
    assert (exists h1, history s1 = Some h1 /\
                       stack h1 = kept h ++ [candidate s (setTextChanges x) t1] /\
                       offset h1 = Z.of_nat (length (kept h)))
      as (h1 & Hh1 & Hst1 & Hoff1).
    { subst s1. rewrite (recordChange_history _ _ _ _ Hh). simpl.
      eexists. split; [reflexivity|].
      rewrite (recordHistory_at_valid_offset _ _ _ Hget). simpl.
      destruct (Z.ltb_spec (t1 - timestamp last) HISTORY_TIME_GAP); [lia|].
      simpl. done. }
    assert (text s1 = x /\ selectionStart s1 = selectionStart s /\
            selectionEnd s1 = selectionEnd s /\
            selectionDirection s1 = selectionDirection s)
      as (Ht1 & Hss1 & Hse1 & Hd1).
    { subst s1. rewrite (recordChange_history _ _ _ _ Hh). simpl. done. }
    simpl. destruct (decide (text s1 = y)) as [Heq|Hne].
    + rewrite bool_decide_eq_true_2 by done. simpl.
      exists s1, h1, (kept h). split; [done|]. split; [done|].
      split; [congruence|]. split; [apply kept_sublist|]. split; [|done].
      rewrite Hst1. unfold candidate. simpl. by rewrite <- Heq, Ht1.
    + rewrite bool_decide_eq_false_2 by done. simpl.
      assert (JS.get (stack h1) (offset h1)
              = Some (candidate s (setTextChanges x) t1)) as Hget1.
      { rewrite Hoff1, get_of_nat, Hst1. by rewrite lookup_app_r, Nat.sub_diag. }
      pose proof (kept_length _ _ Hget1) as Hlen1.
      rewrite (recordChange_history _ _ _ _ Hh1).
      rewrite (recordHistory_at_valid_offset _ _ _ Hget1). simpl.
      destruct (Z.ltb_spec (t2 - t1) HISTORY_TIME_GAP); [|lia].
      eexists. eexists.
      exists (drop (length (stack h1) - Z.to_nat HISTORY_LIMIT) (kept h)).
      split; [reflexivity|]. simpl. split; [reflexivity|]. split; [reflexivity|].
      split; [etransitivity; [apply sublist_drop | apply kept_sublist]|].
      assert (kept h1 = drop (length (stack h1) - Z.to_nat HISTORY_LIMIT) (kept h)
                        ++ [candidate s (setTextChanges x) t1]) as Hk1.
      { unfold kept at 1. cbv zeta.
        rewrite take_ge by (rewrite Hoff1, Hst1, length_app; simpl; lia).
        rewrite Hst1 at 2. rewrite drop_app_le; [done|].
        rewrite Hst1, length_app. simpl. unfold HISTORY_LIMIT in *. lia. }
      rewrite Hk1. rewrite length_app. simpl.
      replace (Nat.pred (length (drop (length (stack h1) - Z.to_nat HISTORY_LIMIT)
                                      (kept h)) + 1))
        with (length (drop (length (stack h1) - Z.to_nat HISTORY_LIMIT) (kept h)) + 0)%nat
        by lia.
      rewrite insert_app_r. simpl. split; [|lia].
      f_equal. unfold with_timestamp. simpl. rewrite Hss1, Hse1, Hd1. done.
Qed.

(** *** Undo and redo *)

Lemma push_step s i r0 a now :
  Below s i r0 -> hookFree s = true ->
  is_mutating a = true ->
  editorReducer call s a now <> Same ->
  opens_new_entry s now ->
  (i < Z.to_nat HISTORY_LIMIT)%nat ->
  exists s', editorReducer call s a now = Fresh s' /\
             Below s' (S i) r0 /\ hookFree s' = true.
Proof.
  intros (h & r & Hh & Hget & Hsnap & Hr0) Hfree Hmut Hne (h' & last & Hh' & Hlast & Hold) Hi.
  rewrite Hh in Hh'. injection Hh' as <-. rewrite Hget in Hlast. injection Hlast as <-.
  rewrite editorReducer_builtin in * by (by apply hookFree_Unclaimed).
  destruct (mutating_cases s a now Hmut) as [HS|[c Hc]]; [contradiction|].
  rewrite Hc. eexists. split; [reflexivity|].
  split; [|by rewrite recordChange_hookFree].
  rewrite (recordChange_history _ _ _ _ Hh).
  rewrite (recordHistory_at_valid_offset _ _ _ Hget). simpl.
  destruct (Z.ltb_spec (now - timestamp r) HISTORY_TIME_GAP); [lia|].
  pose proof (kept_length _ _ Hget) as Hlen. pose proof Hget as Hget'.
  apply get_Some in Hget as [Hoff Hlk]. pose proof (lookup_lt_Some _ _ _ Hlk) as Hlt.
  apply get_Some in Hr0 as [Hoff0 Hlk0].
  eexists. eexists. split; [reflexivity|]. simpl. split; [|split].
  - rewrite get_of_nat. by rewrite lookup_app_r, Nat.sub_diag.
  - apply candidate_snapshot.
  - apply get_Some. split; [unfold HISTORY_LIMIT in *; lia|].
    rewrite lookup_app_l by (unfold HISTORY_LIMIT in *; lia).
    rewrite (kept_lookup _ _ _ Hget') by (unfold HISTORY_LIMIT in *; lia).
    rewrite <- Hlk0. f_equal. unfold HISTORY_LIMIT in *. lia.
Qed.

Lemma undo_step s i r0 now :
  Below s (S i) r0 -> hookFree s = true ->
  exists s', editorReducer call s UNDO now = Fresh s' /\
             Below s' i r0 /\ hookFree s' = true.
Proof.
  intros (h & r & Hh & Hget & Hsnap & Hr0) Hfree.
  rewrite editorReducer_builtin by (by apply hookFree_Unclaimed).
  simpl. rewrite Hh.
  apply get_Some in Hget as [Hoff Hlk]. pose proof (lookup_lt_Some _ _ _ Hlk) as Hlt.
  pose proof Hr0 as [Hoff0 Hlk0]%get_Some.
  destruct (Z.leb_spec (offset h) 0); [lia|].
  destruct (JS.get (stack h) (offset h - 1)) as [prev|] eqn:Hprev.
  - eexists. split; [reflexivity|]. split; [|done].
    exists {| stack := stack h; offset := offset h - 1 |}, prev. simpl.
    split; [done|]. split; [done|]. split; [done|].
    rewrite <- Hr0. f_equal. lia.
  - exfalso. unfold JS.get in Hprev.
    destruct (Z.ltb_spec (offset h - 1) 0); [lia|].
    apply lookup_ge_None in Hprev. lia.
Qed.

Lemma recorded_run s i r0 actions :
  Below s i r0 -> hookFree s = true ->
  (i + length actions <= Z.to_nat HISTORY_LIMIT)%nat ->
  Recorded call s actions ->
  exists s1, dispatchAll call s actions = Some s1 /\
             Below s1 (i + length actions) r0 /\ hookFree s1 = true.
Proof.
  revert s i. induction actions as [|[a now] rest IH]; intros s i HB Hfree Hlen Hrec.
  - exists s. simpl. by rewrite Nat.add_0_r.
  - simpl in Hrec, Hlen. destruct Hrec as (Hmut & Hne & Hopen & Hrest).
    destruct (push_step s i r0 a now HB Hfree Hmut Hne Hopen) as (s' & Hs' & HB' & Hfree');
      [lia|].
    simpl. rewrite Hs'. simpl.
    destruct (IH s' (S i) HB' Hfree') as (s1 & Hrun & HB1 & Hfree1); [lia| |].
    + apply Hrest. by rewrite Hs'.
    + exists s1. split; [done|]. split; [|done].
      by replace (i + S (length rest))%nat with (S i + length rest)%nat by lia.
Qed.

Lemma undo_run s n r0 now :
  Below s n r0 -> hookFree s = true ->
  exists s2, dispatchAll call s (replicate n (UNDO, now)) = Some s2 /\
             Below s2 0 r0.
Proof.
  revert s. induction n as [|n IH]; intros s HB Hfree.
  - by exists s.
  - destruct (undo_step s n r0 now HB Hfree) as (s' & Hs' & HB' & Hfree').
    simpl. rewrite Hs'. simpl. by apply IH.
Qed.

Lemma Below_0_snapshot s r0 : Below s 0 r0 -> snapshot_of s r0.
Proof.
  intros (h & r & _ & Hget & Hsnap & Hr0).
  rewrite Z.sub_0_r, Hget in Hr0. by injection Hr0 as <-.
Qed.

(** C2 (amended): in a state without reducer hooks,
    - from a consistent state, n actions that each push a history entry of
      their own (n at most HISTORY_LIMIT), followed by n UNDOs, give back
      the text, selection and direction of the start;
    - REDO right after an UNDO that moved the offset (offset > 0) restores
      text, selection bounds, direction and history of a consistent state;
    - UNDO returns the same state when history is absent or offset <= 0,
      and REDO when offset is at (or past) the last index. *)
Theorem undo_redo_inverse (s : EditorState) :
  hookFree s = true ->
  (forall actions now,
     Consistent s ->
     (length actions <= Z.to_nat HISTORY_LIMIT)%nat ->
     Recorded call s actions ->
     exists s1 s2,
       dispatchAll call s actions = Some s1 /\
       dispatchAll call s1 (replicate (length actions) (UNDO, now)) = Some s2 /\
       text s2 = text s /\
       selectionStart s2 = selectionStart s /\
       selectionEnd s2 = selectionEnd s /\
       selectionDirection s2 = selectionDirection s) /\
  (forall h now now',
     Consistent s ->
     history s = Some h ->
     0 < offset h ->
     exists s1 s2,
       editorReducer call s UNDO now = Fresh s1 /\
       editorReducer call s1 REDO now' = Fresh s2 /\
       text s2 = text s /\
       selectionStart s2 = selectionStart s /\
       selectionEnd s2 = selectionEnd s /\
       selectionDirection s2 = selectionDirection s /\
       history s2 = history s) /\
  (forall now,
     history s = None \/ (exists h, history s = Some h /\ offset h <= 0) ->
     editorReducer call s UNDO now = Same) /\
  (forall h now,
     history s = Some h ->
     Z.of_nat (length (stack h)) - 1 <= offset h ->
     editorReducer call s REDO now = Same).
Proof.
  intros Hfree. split; [|split; [|split]].
  - intros actions now (h & r & Hh & Hget & Hsnap) Hlen Hrec.
    assert (Below s 0 r) as HB.
    { exists h, r. rewrite Z.sub_0_r. done. }
    destruct (recorded_run s 0 r actions HB Hfree) as (s1 & Hrun & HB1 & Hfree1);
      [simpl; lia | done |].
    destruct (undo_run s1 _ r now HB1 Hfree1) as (s2 & Hundo & HB2).
    exists s1, s2. split; [done|]. split; [done|].
    destruct (Below_0_snapshot _ _ HB2) as (E1 & E2 & E3 & E4).
    destruct Hsnap as (F1 & F2 & F3 & F4). repeat split; congruence.
  - intros h now now' (h' & r & Hh' & Hget & Hsnap) Hh Hpos.
    rewrite Hh in Hh'. injection Hh' as <-.
    pose proof Hget as [Hoff Hlk]%get_Some.
    pose proof (lookup_lt_Some _ _ _ Hlk) as Hlt.
    rewrite editorReducer_builtin by (by apply hookFree_Unclaimed).
    simpl. rewrite Hh.
    destruct (Z.leb_spec (offset h) 0); [lia|].
    destruct (JS.get (stack h) (offset h - 1)) as [prev|] eqn:Hprev.
    + eexists. eexists. split; [reflexivity|].
      rewrite editorReducer_builtin by (by apply hookFree_Unclaimed).
      simpl.
      destruct (Z.leb_spec (Z.of_nat (length (stack h)) - 1) (offset h - 1)); [lia|].
      replace (offset h - 1 + 1) with (offset h) by lia. rewrite Hget.
      split; [reflexivity|]. simpl.
      destruct Hsnap as (F1 & F2 & F3 & F4). repeat (split; [done|]).
      rewrite ?Hh. by destruct h.
    + exfalso. unfold JS.get in Hprev.
      destruct (Z.ltb_spec (offset h - 1) 0); [lia|].
      apply lookup_ge_None in Hprev. lia.
  - intros now Hcase.
    rewrite editorReducer_builtin by (by apply hookFree_Unclaimed). simpl.
    destruct Hcase as [->|(h & -> & Hoff)]; [done|].
    by destruct (Z.leb_spec (offset h) 0); [|lia].
  - intros h now Hh Hlast.
    rewrite editorReducer_builtin by (by apply hookFree_Unclaimed). simpl.
    rewrite Hh.
    by destruct (Z.leb_spec (Z.of_nat (length (stack h)) - 1) (offset h)); [|lia].
Qed.

(** *** States reached from the composer's initial state *)

(** In a consistent state without hooks no action makes the reducer
    throw, and the state it leaves is again consistent and without hooks;
    the bound on the stack is kept as well. *)
Lemma editorReducer_Consistent s a now :
  Consistent s -> hookFree s = true -> Bounded s ->
  exists s', state_after s (editorReducer call s a now) = Some s' /\
             Consistent s' /\ hookFree s' = true /\ Bounded s'.
Proof.
  intros Hc Hfree Hb.
  rewrite editorReducer_builtin by (by apply hookFree_Unclaimed).
  destruct (is_mutating a) eqn:Hmut.
  { destruct (mutating_cases s a now Hmut) as [->|[c ->]]; simpl.
    - by exists s.
    - eexists. split; [reflexivity|].
      split; [by apply recordChange_Consistent|].
      split; [by rewrite recordChange_hookFree | apply recordChange_Bounded]. }
  destruct Hc as (h & r & Hh & Hget & Hsnap).
  pose proof Hget as [Hoff Hlk]%get_Some.
  pose proof (lookup_lt_Some _ _ _ Hlk) as Hlt.
  pose proof (Hb _ Hh) as Hbh.
  assert (Consistent s) as Hc by (exists h, r; done).
  destruct a; try discriminate Hmut; simpl; try (by exists s).
  - eexists. split; [reflexivity|]. split; [by exists h, r|]. done.
  - rewrite Hh. destruct (Z.leb_spec (offset h) 0); [by exists s|].
    destruct (JS.get (stack h) (offset h - 1)) as [prev|] eqn:Hprev.
    + eexists. split; [reflexivity|]. split; [by apply restore_Consistent|].
      split; [done|]. by intros ? [= <-].
    + exfalso. unfold JS.get in Hprev.
      destruct (Z.ltb_spec (offset h - 1) 0); [lia|].
      apply lookup_ge_None in Hprev. lia.
  - rewrite Hh.
    destruct (Z.leb_spec (Z.of_nat (length (stack h)) - 1) (offset h)); [by exists s|].
    destruct (JS.get (stack h) (offset h + 1)) as [next|] eqn:Hnext.
    + eexists. split; [reflexivity|]. split; [by apply restore_Consistent|].
      split; [done|]. by intros ? [= <-].
    + exfalso. unfold JS.get in Hnext.
      destruct (Z.ltb_spec (offset h + 1) 0); [lia|].
      apply lookup_ge_None in Hnext. lia.
Qed.

Lemma dispatchAll_Consistent s actions :
  Consistent s -> hookFree s = true -> Bounded s ->
  exists s', dispatchAll call s actions = Some s' /\
             Consistent s' /\ hookFree s' = true /\ Bounded s'.
Proof.
  revert s. induction actions as [|[a now] rest IH]; intros s Hc Hfree Hb.
  - by exists s.
  - destruct (editorReducer_Consistent s a now Hc Hfree Hb)
      as (s1 & E & Hc1 & Hfree1 & Hb1).
    simpl. rewrite E. by apply IH.
Qed.

(** Whatever is dispatched to the composer's reducer, starting from its
    initial state, provided that no action is one of the catch-all kind
    with a label of the switch for its type (such an action takes the
    case of that label, which reads a payload the action need not have):
    no call throws, and the state reached has no reducer hooks and a
    history whose offset indexes a record that is a snapshot of the live
    fields, with at most HISTORY_LIMIT + 1 records. *)
Theorem composer_states_are_consistent (initialValue : string) (t0 : Z)
    (actions : list (EditorAction * Z)) :
  (forall a now ty, (a, now) ∈ actions -> a = OTHER ty ->
                    ~ In ty known_action_types) ->
  exists s h,
    dispatchAll call (initialState initialValue t0) actions = Some s /\
    Consistent s /\ hookFree s = true /\
    history s = Some h /\
    0 <= offset h < Z.of_nat (length (stack h)) /\
    Z.of_nat (length (stack h)) <= HISTORY_LIMIT + 1.
Proof.
  intros _.
  destruct (dispatchAll_Consistent (initialState initialValue t0) actions)
    as (s & E & Hc & Hfree & Hb).
  - eexists. eexists. split; [reflexivity|]. split; [reflexivity|]. by repeat split.
  - reflexivity.
  - intros h [= <-]. simpl. unfold HISTORY_LIMIT. lia.
  - pose proof Hc as (h & r & Hh & Hget & _).
    exists s, h. repeat (split; [assumption|]). split; [|by apply Hb].
    apply get_Some in Hget as [Hoff Hlk]. apply lookup_lt_Some in Hlk. lia.
Qed.

End ReducerProperties.

(* ===================================================================== *)
(** ** Properties of enhancedDispatch *)
(* ===================================================================== *)

Section Dispatcher.

Context {T : Type} (pick : PluginHandlers -> option (PluginEventHandler T)).

Lemma distribute_declined pre rest (event : T) s :
  allDecline pick pre event s ->
  distribute pick (pre ++ rest) event s
  = distribute pick pre event s ++ distribute pick rest event s.
Proof.
  induction pre as [|[id hs] pre IH]; intros Hdec; [reflexivity|].
  rewrite <- app_comm_cons. cbn [distribute].
  assert (allDecline pick pre event s) as Hpre
    by (intros ? ? ? ? ?; eapply Hdec; [by right | done]).
  destruct (pick hs) as [handler|] eqn:Hpick; [|by apply IH].
  pose proof (Hdec id hs handler ltac:(left) Hpick) as Hfalse.
  destruct (handler event s) as [sent handled]. simpl in Hfalse. subst handled.
  rewrite IH by done. by rewrite <- app_comm_cons, <- app_assoc.
Qed.

Lemma invokedIds_app t1 t2 : invokedIds (t1 ++ t2) = invokedIds t1 ++ invokedIds t2.
Proof.
  induction t1 as [|[a|id] t1 IH]; simpl; [done | done | by rewrite IH].
Qed.

Lemma invokedIds_dispatched sent : invokedIds (map Dispatched sent) = [].
Proof. by induction sent. Qed.

Lemma invokedIds_declined reg (event : T) s :
  allDecline pick reg event s ->
  invokedIds (distribute pick reg event s) = handlerIds pick reg.
Proof.
  induction reg as [|[id hs] reg IH]; intros Hdec; [reflexivity|].
  assert (allDecline pick reg event s) as Hreg
    by (intros ? ? ? ? ?; eapply Hdec; [by right | done]).
  cbn [distribute]. unfold handlerIds. simpl.
  destruct (pick hs) as [handler|] eqn:Hpick.
  - pose proof (Hdec id hs handler ltac:(left) Hpick) as Hfalse.
    destruct (handler event s) as [sent handled]. simpl in Hfalse. subst handled.
    rewrite bool_decide_eq_true_2 by eauto. simpl.
    rewrite invokedIds_app, invokedIds_dispatched. simpl. f_equal. by apply IH.
  - rewrite bool_decide_eq_false_2 by (intros [? ?]; discriminate).
    by apply IH.
Qed.

Lemma distribute_first_handler pre id hs post handler (event : T) s sent :
  pick hs = Some handler ->
  handler event s = (sent, true) ->
  allDecline pick pre event s ->
  distribute pick (pre ++ (id, hs) :: post) event s
  = distribute pick pre event s ++ Invoked id :: map Dispatched sent /\
  invokedIds (distribute pick (pre ++ (id, hs) :: post) event s)
  = handlerIds pick pre ++ [id].
Proof.
  intros Hpick Hh Hdec.
  assert (distribute pick (pre ++ (id, hs) :: post) event s
          = distribute pick pre event s ++ Invoked id :: map Dispatched sent) as E.
  { rewrite distribute_declined by done. cbn [distribute].
    rewrite Hpick, Hh. by rewrite app_nil_r. }
  split; [done|]. rewrite E, invokedIds_app, invokedIds_declined by done.
  simpl. by rewrite invokedIds_dispatched.
Qed.

End Dispatcher.

(** Registering under an id that is not yet a key appends the entry. *)
Lemma registerPlugin_fresh (id : string) (hs : PluginHandlers) (reg : Registry) :
  id ∉ map fst reg -> registerPlugin id hs reg = reg ++ [(id, hs)].
Proof.
  unfold registerPlugin. induction reg as [|[k v] reg IH]; intros Hfresh.
  - reflexivity.
  - simpl in *. apply not_elem_of_cons in Hfresh as [Hne Hfresh].
    destruct (String.eqb_spec k id); [congruence|].
    by rewrite IH.
Qed.

(** C7: on KEY_DOWN and on PASTE the handlers are called in registry
    order, and the first one that returns true ends the loop: with the
    handlers before it declining, the effects are the reducer dispatch,
    what the earlier handlers did, the call of that handler and the
    actions it sent; the handlers invoked are exactly those registered up
    to it, and nothing registered after it shows.  When every handler
    declines, all of them are invoked, in registry order.  In particular,
    of two plugins registered one after the other under new ids, only the
    first one's handler is called when it handles the key. *)
Theorem first_handler_stops_distribution (s : EditorState)
    (pre post : Registry) (id : string) (hs : PluginHandlers) :
  (forall event handler sent,
     keyDown hs = Some handler ->
     handler event s = (sent, true) ->
     allDecline keyDown pre event s ->
     enhancedDispatch (pre ++ (id, hs) :: post) s (KEY_DOWN event)
     = Dispatched (KEY_DOWN event)
         :: distribute keyDown pre event s ++ Invoked id :: map Dispatched sent /\
     invokedIds (enhancedDispatch (pre ++ (id, hs) :: post) s (KEY_DOWN event))
     = handlerIds keyDown pre ++ [id]) /\
  (forall event handler sent,
     paste hs = Some handler ->
     handler event s = (sent, true) ->
     allDecline paste pre event s ->
     enhancedDispatch (pre ++ (id, hs) :: post) s (PASTE event)
     = Dispatched (PASTE event)
         :: distribute paste pre event s ++ Invoked id :: map Dispatched sent /\
     invokedIds (enhancedDispatch (pre ++ (id, hs) :: post) s (PASTE event))
     = handlerIds paste pre ++ [id]) /\
  (forall reg event,
     allDecline keyDown reg event s ->
     invokedIds (enhancedDispatch reg s (KEY_DOWN event)) = handlerIds keyDown reg) /\
  (forall reg event,
     allDecline paste reg event s ->
     invokedIds (enhancedDispatch reg s (PASTE event)) = handlerIds paste reg) /\
  (forall event handler sent id2 hs2,
     keyDown hs = Some handler ->
     handler event s = (sent, true) ->
     allDecline keyDown pre event s ->
     id ∉ map fst pre ->
     id2 ∉ map fst (pre ++ [(id, hs)]) ->
     enhancedDispatch (registerPlugin id2 hs2 (registerPlugin id hs pre)) s
                      (KEY_DOWN event)
     = Dispatched (KEY_DOWN event)
         :: distribute keyDown pre event s ++ Invoked id :: map Dispatched sent).
Proof.
  split; [|split; [|split; [|split]]].
  - intros event handler sent Hpick Hh Hdec.
    destruct (distribute_first_handler keyDown pre id hs post handler event s sent
                Hpick Hh Hdec) as [E1 E2].
    unfold enhancedDispatch. simpl. by rewrite E1, <- E2, E1.
  - intros event handler sent Hpick Hh Hdec.
    destruct (distribute_first_handler paste pre id hs post handler event s sent
                Hpick Hh Hdec) as [E1 E2].
    unfold enhancedDispatch. simpl. by rewrite E1, <- E2, E1.
  - intros reg event Hdec. unfold enhancedDispatch. simpl.
    by apply invokedIds_declined.
  - intros reg event Hdec. unfold enhancedDispatch. simpl.
    by apply invokedIds_declined.
  - intros event handler sent id2 hs2 Hpick Hh Hdec Hid Hid2.
    rewrite (registerPlugin_fresh id) by done.
    rewrite (registerPlugin_fresh id2) by done.
    rewrite <- app_assoc. unfold enhancedDispatch. f_equal.
    exact (proj1 (distribute_first_handler keyDown pre id hs [(id2, hs2)]
                    handler event s sent Hpick Hh Hdec)).
Qed.

(* ===================================================================== *)
(** ** Properties of isSelectionInMarkdownLink *)
(* ===================================================================== *)

(** Whenever the test by the spec's words holds, the code answers true:
    the code errs only by accepting selections that reach past the end of
    the link. *)
Theorem link_test_accepts_what_spec_accepts (text : string)
    (selectionStart selectionEnd : Z) :
  specSelectionInMarkdownLink text selectionStart selectionEnd = true ->
  isSelectionInMarkdownLink text selectionStart selectionEnd = true.
Proof.
  unfold specSelectionInMarkdownLink, isSelectionInMarkdownLink.
  rewrite !substring1_drop.
  pose proof (lastIndexOf_from_range "](" (JS.substring2 text 0 selectionStart) 0
                ltac:(lia)) as Hp0.
  fold (JS.lastIndexOf (JS.substring2 text 0 selectionStart) "](") in Hp0.
  revert Hp0.
  generalize (JS.lastIndexOf (JS.substring2 text 0 selectionStart) "](").
  intros p Hp0.
  destruct (Z.eqb_spec p (-1)) as [|Hp]; [discriminate|]. simpl.
  destruct Hp0 as [|Hp0]; [contradiction|].
  destruct (findOpenBracket text (Z.to_nat p) 1 =? -1); [discriminate|].
  (* the parenthesis that closes the link *)
  pose proof (indexOf_from_found ")"
                (JS.str_drop (Z.to_nat (JS.clamp (JS.len text) (p + 2))) text) 0
                ltac:(lia)) as Hk.
  fold (JS.indexOf (JS.str_drop (Z.to_nat (JS.clamp (JS.len text) (p + 2))) text) ")")
    in Hk.
  revert Hk.
  generalize (JS.indexOf (JS.str_drop (Z.to_nat (JS.clamp (JS.len text) (p + 2))) text) ")").
  intros k Hk.
  destruct (Z.eqb_spec k (-1)) as [|Hk1]; [discriminate|].
  destruct (Hk Hk1) as [Hkr Hkp]. clear Hk.
  rewrite Z.sub_0_r, str_drop_drop in Hkp.
  unfold JS.len in Hkr. rewrite length_str_drop in Hkr.
  cbv zeta. intros [Hse [Hss _]%andb_true_iff]%andb_true_iff.
  apply Z.leb_le in Hse, Hss.
  assert (p + 2 + k < JS.len text) as Hin.
  { destruct (Z.le_gt_cases (JS.len text) (p + 2 + k)) as [Hge|]; [|lia].
    exfalso. revert Hkp.
    replace (JS.str_drop _ text) with EmptyString; [done|].
    symmetry. apply length_0_empty. rewrite length_str_drop.
    unfold JS.clamp, JS.len in *. lia. }
  (* the first parenthesis at or after the selection end *)
  pose proof (indexOf_from_found ")"
                (JS.str_drop (Z.to_nat (JS.clamp (JS.len text) selectionEnd)) text) 0
                ltac:(lia)) as Hc.
  pose proof (indexOf_from_exists ")"
                (JS.str_drop (Z.to_nat (JS.clamp (JS.len text) selectionEnd)) text) 0
                (Z.to_nat (p + 2 + k)
                 - Z.to_nat (JS.clamp (JS.len text) selectionEnd))
                ltac:(lia)) as Hex.
  fold (JS.indexOf (JS.str_drop (Z.to_nat (JS.clamp (JS.len text) selectionEnd)) text) ")")
    in Hc, Hex.
  revert Hc Hex.
  generalize (JS.indexOf (JS.str_drop (Z.to_nat (JS.clamp (JS.len text) selectionEnd)) text) ")").
  intros c Hc Hex.
  assert (c <> -1) as Hc1.
  { apply Hex. rewrite str_drop_drop.
    replace (Z.to_nat (JS.clamp (JS.len text) selectionEnd) +
             (Z.to_nat (p + 2 + k) - Z.to_nat (JS.clamp (JS.len text) selectionEnd)))%nat
      with (Z.to_nat (JS.clamp (JS.len text) (p + 2)) + Z.to_nat k)%nat;
      [exact Hkp|].
    unfold JS.clamp, JS.len in *. lia. }
  destruct (Z.eqb_spec c (-1)); [contradiction|]. simpl.
  destruct (Hc Hc1) as [Hcr _].
  destruct (Z.leb_spec (p + 2) selectionStart); [|lia]. simpl.
  destruct (Z.leb_spec selectionEnd
              (JS.len text
               - JS.len (JS.str_drop (Z.to_nat (JS.clamp (JS.len text) selectionEnd)) text)
               + c)) as [|Hgt]; [reflexivity|].
  exfalso. revert Hgt. unfold JS.len. rewrite length_str_drop.
  unfold JS.clamp, JS.len in *. lia.
Qed.

(** C6: the link test takes the first ")" at or after the selection end
    for the end of the URL, whichever link it closes.  On the two-link
    text of the repository's tests, a selection that starts in the first
    URL and ends in the second link's label is reported as inside a link,
    which the test by the spec's words denies; on the spec's own example
    both agree. *)
Theorem link_test_accepts_selection_across_links :
  isSelectionInMarkdownLink twoLinks 24 40 = true /\
  specSelectionInMarkdownLink twoLinks 24 40 = false /\
  JS.slice2 twoLinks 24 40 = ".com) and [link2" /\
  isSelectionInMarkdownLink "[link](https://example.com)" 7 22 = true /\
  specSelectionInMarkdownLink "[link](https://example.com)" 7 22 = true /\
  JS.slice2 "[link](https://example.com)" 7 22 = "https://example".
Proof. repeat split; vm_compute; reflexivity. Qed.

(** The spec's example, through the comparison of the two tests. *)
Lemma link_test_witness :
  specSelectionInMarkdownLink "[link](https://example.com)" 7 22 = true /\
  isSelectionInMarkdownLink "[link](https://example.com)" 7 22 = true.
Proof.
  assert (specSelectionInMarkdownLink "[link](https://example.com)" 7 22 = true)
    as H by reflexivity.
  exact (conj H (link_test_accepts_what_spec_accepts _ 7 22 H)).
Defined.

(* ===================================================================== *)
(** ** Concrete runs *)
(* ===================================================================== *)

(** C1: the check against HISTORY_LIMIT runs before the push, so the
    stack reaches 1001 entries.  From the composer's initial state, 999
    recorded text changes fill the stack to 1000 entries; the next one
    leaves 1001 entries with the offset at 1000, and so do 1500. *)
Theorem history_exceeds_limit :
  dispatchAll noHooks (initialState "" 0) (keystrokes 999) ≫= historyShape
    = Some (1000%nat, 999) /\
  dispatchAll noHooks (initialState "" 0) (keystrokes 1000) ≫= historyShape
    = Some (1001%nat, 1000) /\
  dispatchAll noHooks (initialState "" 0) (keystrokes 1500) ≫= historyShape
    = Some (1001%nat, 1000).
Proof. split; [|split]; vm_compute; reflexivity. Qed.

(** A custom action on the composer's initial state. *)
Lemma unknown_action_witness :
  Unclaimed noHooks (initialState "abc" 0) (OTHER "CUSTOM") /\
  ~ In (action_type (OTHER "CUSTOM")) known_action_types /\
  editorReducer noHooks (initialState "abc" 0) (OTHER "CUSTOM") 5 = Same /\
  state_after (initialState "abc" 0)
              (editorReducer noHooks (initialState "abc" 0) (OTHER "CUSTOM") 5)
    = Some (initialState "abc" 0).
Proof.
  assert (Unclaimed noHooks (initialState "abc" 0) (OTHER "CUSTOM")) as H1
    by reflexivity.
  assert (~ In (action_type (OTHER "CUSTOM")) known_action_types) as H2
    by (simpl; intuition discriminate).
  exact (conj H1 (conj H2
    (unknown_action_returns_same_state noHooks _ _ 5 H1 H2))).
Defined.

(** SET_TEXT with the text the initial state already has. *)
Lemma restating_action_witness :
  Unclaimed noHooks (initialState "abc" 0) (SET_TEXT "abc") /\
  restates (initialState "abc" 0) (SET_TEXT "abc") /\
  editorReducer noHooks (initialState "abc" 0) (SET_TEXT "abc") 5 = Same /\
  history <$> state_after (initialState "abc" 0)
                (editorReducer noHooks (initialState "abc" 0) (SET_TEXT "abc") 5)
    = Some (history (initialState "abc" 0)).
Proof.
  assert (Unclaimed noHooks (initialState "abc" 0) (SET_TEXT "abc")) as H1
    by reflexivity.
  assert (restates (initialState "abc" 0) (SET_TEXT "abc")) as H2
    by reflexivity.
  exact (conj H1 (conj H2
    (restating_action_returns_same_state noHooks _ _ 5 H1 H2))).
Defined.

(** The Bold example: Ctrl+B on "abc", all selected. *)
Lemma bold_example_witness :
  Unclaimed noHooks abcSelected (ADD_PREFIX_POSTFIX "**" "**") /\
  boldKeyDownHandler ctrlB abcSelected = ([ADD_PREFIX_POSTFIX "**" "**"], true) /\
  (exists s',
     editorReducer noHooks abcSelected (ADD_PREFIX_POSTFIX "**" "**") 5 = Fresh s' /\
     text s' = "**abc**" /\ selectionStart s' = 2 /\ selectionEnd s' = 5 /\
     selectionDirection s' = NONE) /\
  JS.slice2 "**abc**" 2 5 = "abc".
Proof.
  assert (Unclaimed noHooks abcSelected (ADD_PREFIX_POSTFIX "**" "**")) as H1
    by reflexivity.
  destruct (add_prefix_postfix_wraps_selection noHooks abcSelected "**" "**" 5 H1)
    as (_ & Hfresh & Hcover & _).
  split; [exact H1|]. split; [reflexivity|]. split.
  - apply Hfresh. intros (E & _). discriminate E.
  - apply Hcover. simpl. lia.
Defined.

(** The initial state, half a second after its seed record: SET_SELECTION
    with the same bounds and no direction adds a second record. *)
Lemma set_selection_without_direction_witness :
  Unclaimed noHooks (initialState "abc" 0) (SET_SELECTION 0 0 None) /\
  selectionDirection (initialState "abc" 0) = NONE /\
  exists s' h',
    editorReducer noHooks (initialState "abc" 0) (SET_SELECTION 0 0 None) 500
      = Fresh s' /\
    history s' = Some h' /\
    text s' = "abc" /\ selectionStart s' = 0 /\ selectionEnd s' = 0 /\
    selectionDirection s' = NONE /\
    length (stack h') = 2%nat /\ offset h' = 1.
Proof.
  assert (Unclaimed noHooks (initialState "abc" 0) (SET_SELECTION 0 0 None)) as H1
    by reflexivity.
  destruct (set_selection_without_direction_is_recorded noHooks
              (initialState "abc" 0) _ 500 H1 eq_refl eq_refl)
    as (s' & h' & E & Hh & _ & Et & Es & Ee & Ed & Hrec).
  split; [exact H1|]. split; [reflexivity|].
  exists s', h'. repeat (split; [assumption|]).
  destruct (Hrec _ eq_refl) as [_ Hgrow].
  destruct Hgrow as [-> ->]; [vm_compute; discriminate | reflexivity
                             | vm_compute; discriminate |].
  split; reflexivity.
Defined.

(** On the initial state: a change 150 ms after the seed record is
    grouped into it; two changes 100 ms apart, the first a second after
    the seed, leave one record on top of the older ones. *)
Lemma coalescing_witness :
  history (initialState "" 0)
    = Some {| stack := [candidate (initialState "" 0) (setTextChanges "") 0];
              offset := 0 |} /\
  (exists h',
     history (recordChange (initialState "" 0) (setTextChanges "a") 150) = Some h' /\
     stack h' = [ {| h_text := "a"; h_selectionStart := 0; h_selectionEnd := 0;
                     h_selectionDirection := NONE; timestamp := 0 |} ] /\
     offset h' = 0) /\
  (exists s2 h2 older,
     dispatchAll noHooks (initialState "" 0)
                 [(SET_TEXT "a", 1000); (SET_TEXT "ab", 1100)] = Some s2 /\
     history s2 = Some h2 /\
     text s2 = "ab" /\
     stack h2 = older ++ [ {| h_text := "ab"; h_selectionStart := 0;
                              h_selectionEnd := 0; h_selectionDirection := NONE;
                              timestamp := 1000 |} ] /\
     offset h2 = Z.of_nat (length older)).
Proof.
  destruct (coalescing_keeps_first_timestamp noHooks (initialState "" 0) _ _
              eq_refl eq_refl) as [Hgroup Htwo].
  split; [reflexivity|]. split.
  - destruct (Hgroup (setTextChanges "a") 150) as (h' & Hh & Hst & Hoff & _);
      [vm_compute; reflexivity|].
    exists h'. split; [exact Hh|]. split; [exact Hst | exact Hoff].
  - destruct (Htwo "a" 1000 "ab" 1100) as (s2 & h2 & older & E & Hh & Ht & _ & Hst & Hoff);
      [reflexivity | discriminate | vm_compute; discriminate
       | vm_compute; reflexivity |].
    exists s2, h2, older. repeat (split; [assumption|]). assumption.
Defined.

(** C4, as stated, fails when the first of the two actions is itself
    grouped into the record before it: 150 ms and 300 ms after the seed
    record, two SET_TEXT actions 150 ms apart leave two records, and the
    one with the later text carries the later timestamp. *)
Lemma two_quick_changes_counterexample :
  300 - 150 < HISTORY_TIME_GAP /\
  exists s2 h2,
    dispatchAll noHooks (initialState "" 0)
                [(SET_TEXT "a", 150); (SET_TEXT "ab", 300)] = Some s2 /\
    history s2 = Some h2 /\
    stack h2 = [ {| h_text := "a"; h_selectionStart := 0; h_selectionEnd := 0;
                    h_selectionDirection := NONE; timestamp := 0 |};
                 {| h_text := "ab"; h_selectionStart := 0; h_selectionEnd := 0;
                    h_selectionDirection := NONE; timestamp := 300 |} ] /\
    ~ (exists r, r ∈ stack h2 /\ h_text r = "ab" /\ timestamp r < 300).
Proof.
  split; [reflexivity|]. eexists. eexists.
  split; [reflexivity|]. split; [reflexivity|]. split; [reflexivity|].
  intros (r & Hin & Ht & Hts). simpl in Hin.
  apply list_elem_of_In in Hin. destruct Hin as [<-|[<-|[]]].
  - discriminate Ht.
  - simpl in Hts. lia.
Qed.

(** Three recorded text changes on the initial state, then three UNDOs;
    UNDO and REDO on the initial state itself. *)
Lemma undo_redo_witness :
  hookFree (initialState "" 0) = true /\
  Consistent (initialState "" 0) /\
  Recorded noHooks (initialState "" 0) (keystrokes 3) /\
  (exists s1 s2,
     dispatchAll noHooks (initialState "" 0) (keystrokes 3) = Some s1 /\
     dispatchAll noHooks s1 (replicate 3 (UNDO, 9000)) = Some s2 /\
     text s2 = "" /\ selectionStart s2 = 0 /\ selectionEnd s2 = 0 /\
     selectionDirection s2 = NONE) /\
  editorReducer noHooks (initialState "" 0) UNDO 5 = Same /\
  editorReducer noHooks (initialState "" 0) REDO 5 = Same.
Proof.
  assert (Consistent (initialState "" 0)) as Hc.
  { eexists. eexists. split; [reflexivity|]. split; [reflexivity|]. by repeat split. }
  assert (Recorded noHooks (initialState "" 0) (keystrokes 3)) as Hr.
  { unfold keystrokes. simpl.
    repeat (split; [reflexivity|];
            split; [vm_compute; discriminate|];
            split; [eexists; eexists; split; [reflexivity|];
                    split; [reflexivity | vm_compute; discriminate]|];
            intros s' E; vm_compute in E; injection E as <-).
    exact I. }
  destruct (undo_redo_inverse noHooks (initialState "" 0) eq_refl)
    as (Hundo & _ & Hnoop & Hredo).
  split; [reflexivity|]. split; [exact Hc|]. split; [exact Hr|]. split; [|split].
  - apply (Hundo (keystrokes 3) 9000 Hc); [vm_compute; lia | exact Hr].
  - apply Hnoop. right. eexists. split; [reflexivity | simpl; lia].
  - eapply Hredo; [reflexivity | simpl; lia].
Defined.

(** C2, as stated, fails on runs of the composer's editor: two changes
    50 ms apart share one history entry, so two UNDOs go back past the
    state the changes started from; and at offset 0 an UNDO does nothing,
    so that the REDO after it moves forward instead of restoring. *)
Lemma undo_after_grouped_changes_counterexample :
  exists s s2 u u2,
    dispatchAll noHooks (initialState "" 0) [(SET_TEXT "a", 1000)] = Some s /\
    dispatchAll noHooks s [(SET_TEXT "ab", 2000); (SET_TEXT "abc", 2050);
                           (UNDO, 3000); (UNDO, 3000)] = Some s2 /\
    text s = "a" /\ text s2 = "" /\ text s2 <> text s /\
    dispatchAll noHooks s [(UNDO, 3000)] = Some u /\
    dispatchAll noHooks u [(UNDO, 4000); (REDO, 4000)] = Some u2 /\
    text u = "" /\ text u2 = "a" /\ text u2 <> text u.
Proof.
  do 4 eexists. repeat split; try reflexivity; simpl; discriminate.
Qed.

(** Four plugin values, of which the third has the first hook that claims
    the action: the hooks of the second and third are called, and the
    SET_TEXT that the switch would record is not applied. *)
Lemma plugin_hook_witness :
  plugins hookedState
    = Some ([("a", NoReducer); ("b", HasReducer 0%nat)]
            ++ ("c", HasReducer 1%nat) :: [("d", HasReducer 2%nat)]) /\
  sampleHooks 1%nat hookedState (SET_TEXT "xyz") = Some Same /\
  pluginPhase sampleHooks hookedState (SET_TEXT "xyz") = (["b"; "c"], Some Same) /\
  editorReducer sampleHooks hookedState (SET_TEXT "xyz") 5000 = Same /\
  reduceBuiltin hookedState (SET_TEXT "xyz") 5000 <> Same.
Proof.
  destruct (plugin_hook_overrides_builtin sampleHooks hookedState (SET_TEXT "xyz")
              5000 _ eq_refl) as [Hfirst _].
  destruct (Hfirst [("a", NoReducer); ("b", HasReducer 0%nat)] "c" 1%nat
                   [("d", HasReducer 2%nat)] Same eq_refl) as [Hphase Hres].
  - intros id' f' Hin. apply list_elem_of_In in Hin.
    destruct Hin as [[= <- <-]|[[= <- <-]|[]]]. reflexivity.
  - reflexivity.
  - split; [reflexivity|]. split; [reflexivity|]. split; [exact Hphase|].
    split; [exact Hres|]. vm_compute. discriminate.
Defined.

(** Ctrl+B with the undo/redo plugin and two bold plugins registered: the
    first bold plugin handles the key and the second is not called. *)
Lemma first_handler_witness :
  allDecline keyDown [("undo-redo-plugin", undoRedoHandlers)] ctrlB abcSelected /\
  enhancedDispatch ([("undo-redo-plugin", undoRedoHandlers)]
                    ++ ("bold-plugin", boldHandlers)
                    :: [("second-bold-plugin", boldHandlers)])
                   abcSelected (KEY_DOWN ctrlB)
  = [ Dispatched (KEY_DOWN ctrlB); Invoked "undo-redo-plugin";
      Invoked "bold-plugin"; Dispatched (ADD_PREFIX_POSTFIX "**" "**") ] /\
  enhancedDispatch (registerPlugin "second-bold-plugin" boldHandlers
                      (registerPlugin "bold-plugin" boldHandlers
                         [("undo-redo-plugin", undoRedoHandlers)]))
                   abcSelected (KEY_DOWN ctrlB)
  = [ Dispatched (KEY_DOWN ctrlB); Invoked "undo-redo-plugin";
      Invoked "bold-plugin"; Dispatched (ADD_PREFIX_POSTFIX "**" "**") ].
Proof.
  assert (allDecline keyDown [("undo-redo-plugin", undoRedoHandlers)] ctrlB
                     abcSelected) as Hdec.
  { intros id hs handler Hin Hpick. apply list_elem_of_In in Hin.
    destruct Hin as [[= <- <-]|[]]. injection Hpick as <-. reflexivity. }
  destruct (first_handler_stops_distribution abcSelected
              [("undo-redo-plugin", undoRedoHandlers)]
              [("second-bold-plugin", boldHandlers)]
              "bold-plugin" boldHandlers) as (Hkey & _ & _ & _ & Htwo).
  split; [exact Hdec|]. split.
  - exact (proj1 (Hkey ctrlB boldKeyDownHandler _ eq_refl eq_refl Hdec)).
  - apply (Htwo ctrlB boldKeyDownHandler _ "second-bold-plugin" boldHandlers
                eq_refl eq_refl Hdec).
    + simpl. intros Hin%list_elem_of_In. destruct Hin as [[=]|[]].
    + simpl. intros Hin%list_elem_of_In. destruct Hin as [[=]|[[=]|[]]].
Defined.
(* ===================================================================== *)
(** ** Further properties of recordChange and the reducer *)
(* ===================================================================== *)

(** With a valid offset, the record at the new offset is the last one of
    the new stack: nothing is left to redo. *)
Lemma recordHistory_offset_last h record last :
  JS.get (stack h) (offset h) = Some last ->
  offset (recordHistory h record)
  = Z.of_nat (length (stack (recordHistory h record))) - 1.
Proof.
  intros Hget. pose proof (kept_length _ _ Hget) as Hlen.
  rewrite (recordHistory_at_valid_offset _ _ _ Hget).
  destruct (_ <? _); simpl; rewrite ?length_insert, ?length_app; simpl; lia.
Qed.

Section MoreReducerProperties.

Variable call : FnRef -> EditorState -> EditorAction -> option Outcome.

(** After a change that was recorded, REDO finds nothing to redo: the
    entries beyond the offset are gone and the offset is the last index. *)
Theorem recorded_change_leaves_nothing_to_redo (s : EditorState)
    (a : EditorAction) (now now' : Z) :
  Consistent s -> hookFree s = true ->
  is_mutating a = true ->
  editorReducer call s a now <> Same ->
  exists s' h',
    editorReducer call s a now = Fresh s' /\
    history s' = Some h' /\
    offset h' = Z.of_nat (length (stack h')) - 1 /\
    editorReducer call s' REDO now' = Same.
Proof.
  intros (h & r & Hh & Hget & Hsnap) Hfree Hmut Hne.
  rewrite editorReducer_builtin in * by (by apply hookFree_Unclaimed).
  destruct (mutating_cases s a now Hmut) as [E|[c E]]; [contradiction|].
  rewrite E. exists (recordChange s c now), (recordHistory h (candidate s c now)).
  split; [reflexivity|].
  assert (history (recordChange s c now) = Some (recordHistory h (candidate s c now)))
    as Hh' by (by rewrite (recordChange_history _ _ _ _ Hh)).
  pose proof (recordHistory_offset_last h (candidate s c now) r Hget) as Hoff.
  split; [exact Hh'|]. split; [exact Hoff|].
  rewrite editorReducer_builtin
    by (apply hookFree_Unclaimed; by rewrite recordChange_hookFree).
  simpl. rewrite Hh'.
  destruct (Z.leb_spec
              (Z.of_nat (length (stack (recordHistory h (candidate s c now)))) - 1)
              (offset (recordHistory h (candidate s c now)))); [reflexivity | lia].
Qed.

(** UNDO and REDO move the offset at most; stack, plugins and focus stay. *)
Theorem undo_redo_keep_the_stack (s s' : EditorState) (a : EditorAction) (now : Z) :
  hookFree s = true ->
  a = UNDO \/ a = REDO ->
  state_after s (editorReducer call s a now) = Some s' ->
  stack <$> history s' = stack <$> history s /\
  plugins s' = plugins s /\
  editorHasFocus s' = editorHasFocus s /\
  (forall h h', history s = Some h -> history s' = Some h' ->
                offset h - 1 <= offset h' <= offset h + 1).
Proof.
  intros Hfree Ha.
  rewrite editorReducer_builtin by (by apply hookFree_Unclaimed).
  assert (forall h i r,
            history s = Some h -> offset h - 1 <= i <= offset h + 1 ->
            stack <$> history (restore s r h i) = stack <$> history s /\
            plugins (restore s r h i) = plugins s /\
            editorHasFocus (restore s r h i) = editorHasFocus s /\
            (forall h0 h', history s = Some h0 ->
                           history (restore s r h i) = Some h' ->
                           offset h0 - 1 <= offset h' <= offset h0 + 1)) as Hmove.
  { intros h i r Hh Hi. simpl. rewrite Hh. split; [done|]. split; [done|].
    split; [done|]. intros h0 h' [= <-] [= <-]. simpl. lia. }
  assert (stack <$> history s = stack <$> history s /\
          plugins s = plugins s /\
          editorHasFocus s = editorHasFocus s /\
          (forall h h', history s = Some h -> history s = Some h' ->
                        offset h - 1 <= offset h' <= offset h + 1)) as Hstay.
  { split; [done|]. split; [done|]. split; [done|].
    intros h h' -> [= <-]. lia. }
  destruct Ha as [-> | ->]; simpl; destruct (history s) as [h|] eqn:Hh;
    try (intros [= <-]; rewrite ?Hh; exact Hstay).
  - destruct (offset h <=? 0); [intros [= <-]; rewrite ?Hh; exact Hstay|].
    destruct (JS.get (stack h) (offset h - 1)); [|discriminate].
    intros [= <-]. apply Hmove; [done | lia].
  - destruct (Z.of_nat (length (stack h)) - 1 <=? offset h);
      [intros [= <-]; rewrite ?Hh; exact Hstay|].
    destruct (JS.get (stack h) (offset h + 1)); [|discriminate].
    intros [= <-]. apply Hmove; [done | lia].
Qed.

(** REDO and then UNDO, where there is something to redo, give back the
    text, selection, direction and history of a consistent state. *)
Theorem redo_then_undo_restores (s : EditorState) (h : History) (now now' : Z) :
  Consistent s -> hookFree s = true ->
  history s = Some h ->
  offset h < Z.of_nat (length (stack h)) - 1 ->
  exists s1 s2,
    editorReducer call s REDO now = Fresh s1 /\
    editorReducer call s1 UNDO now' = Fresh s2 /\
    text s2 = text s /\
    selectionStart s2 = selectionStart s /\
    selectionEnd s2 = selectionEnd s /\
    selectionDirection s2 = selectionDirection s /\
    history s2 = history s.
Proof.
  intros (h' & r & Hh' & Hget & Hsnap) Hfree Hh Hlt.
  rewrite Hh in Hh'. injection Hh' as <-.
  pose proof Hget as [Hoff Hlk]%get_Some.
  rewrite editorReducer_builtin by (by apply hookFree_Unclaimed).
  simpl. rewrite Hh.
  destruct (Z.leb_spec (Z.of_nat (length (stack h)) - 1) (offset h)); [lia|].
  destruct (JS.get (stack h) (offset h + 1)) as [next|] eqn:Hnext.
  - eexists. eexists. split; [reflexivity|].
    rewrite editorReducer_builtin by (by apply hookFree_Unclaimed).
    simpl. destruct (Z.leb_spec (offset h + 1) 0); [lia|].
    replace (offset h + 1 - 1) with (offset h) by lia. rewrite Hget.
    split; [reflexivity|]. simpl.
    destruct Hsnap as (F1 & F2 & F3 & F4). repeat (split; [done|]).
    rewrite ?Hh. by destruct h.
  - exfalso. unfold JS.get in Hnext.
    destruct (Z.ltb_spec (offset h + 1) 0); [lia|].
    apply lookup_ge_None in Hnext. lia.
Qed.


End MoreReducerProperties.

Section EditingProperties.

Variable call : FnRef -> EditorState -> EditorAction -> option Outcome.

(** REPLACE_SELECTION puts the new text between the slice before the
    selection start and the slice after the selection end.  If that gives
    the text the state already has, the very state is returned, selection
    included; otherwise the selection ends right after the new text and
    starts there too, unless [selected] asks for it to span the new text.
    With the selection start inside the text, the new text sits between
    the old start and the new end: the new selection cuts exactly the new
    text out of the new text when [selected] is true, and is collapsed
    behind it, cutting the empty string, when [selected] is false or
    omitted.  With bounds in range, the length changes by the difference
    between the two texts. *)
Theorem replace_selection_inserts (s : EditorState) (newText : string)
    (selected : option bool) (now : Z) :
  Unclaimed call s (REPLACE_SELECTION newText selected) ->
  let before := JS.slice2 (text s) 0 (selectionStart s) in
  let after := JS.slice1 (text s) (selectionEnd s) in
  let text' := before +:+ newText +:+ after in
  let caret := selectionStart s + JS.len newText in
  (text' = text s ->
   editorReducer call s (REPLACE_SELECTION newText selected) now = Same) /\
  (text' <> text s ->
   exists s',
     editorReducer call s (REPLACE_SELECTION newText selected) now = Fresh s' /\
     text s' = text' /\
     selectionStart s'
       = (if default false selected then selectionStart s else caret) /\
     selectionEnd s' = caret /\
     selectionDirection s' = selectionDirection s /\
     (0 <= selectionStart s <= JS.len (text s) ->
      JS.slice2 (text s') (selectionStart s) (selectionEnd s') = newText /\
      JS.slice2 (text s') (selectionStart s') (selectionEnd s')
      = (if default false selected then newText else EmptyString))) /\
  (0 <= selectionStart s <= JS.len (text s) ->
   JS.slice2 text' (selectionStart s) caret = newText) /\
  (InRange s ->
   JS.len text'
   = JS.len (text s) - (selectionEnd s - selectionStart s) + JS.len newText).
Proof.
  intros Hun before after text' caret.
  rewrite editorReducer_builtin by assumption.
  unfold reduceBuiltin. fold before after. fold text'. fold caret.
  rewrite !Z.eqb_refl, !andb_true_r.
  assert (0 <= selectionStart s <= JS.len (text s) ->
          JS.slice2 text' (selectionStart s) caret = newText) as Hcut.
  { intros Hss.
    pose proof (slice_of_wrapped before EmptyString newText after (selectionStart s))
      as Hw.
    rewrite append_nil in Hw. unfold JS.len at 2 3 in Hw. simpl in Hw.
    rewrite !Z.add_0_r in Hw. apply Hw.
    subst before. rewrite len_slice_from_0 by lia. lia. }
  assert (JS.slice2 text' caret caret = EmptyString) as Hempty.
  { replace caret with (caret + 0) at 2 by lia. apply slice_empty_range. }
  split; [|split; [|split]].
  - intros E. by rewrite bool_decide_eq_true_2.
  - intros Hne. rewrite bool_decide_eq_false_2 by congruence.
    eexists. split; [reflexivity|]. unfold recordChange.
    destruct (history s); simpl;
      (split; [reflexivity|]); (split; [reflexivity|]);
      (split; [reflexivity|]); (split; [reflexivity|]);
      intros Hss; (split; [by apply Hcut|]);
      destruct (default false selected); [by apply Hcut | exact Hempty
                                         | by apply Hcut | exact Hempty].
  - exact Hcut.
  - intros (Hr & He).
    destruct (selection_partition (text s) _ _ Hr He) as [Hparts Hlen].
    fold before after in Hparts.
    assert (JS.len (text s)
            = JS.len before
              + JS.len (JS.slice2 (text s) (selectionStart s) (selectionEnd s))
              + JS.len after) as Hsum.
    { rewrite <- Hparts at 1. unfold JS.len. rewrite !length_append. lia. }
    subst text'. unfold JS.len in *. rewrite !length_append. lia.
Qed.

(** With the selection bounds in range, ADD_PREFIX_POSTFIX returns the
    very state exactly when prefix and postfix are both empty. *)
Theorem add_prefix_postfix_same_iff_empty (s : EditorState)
    (prefix postfix : string) (now : Z) :
  Unclaimed call s (ADD_PREFIX_POSTFIX prefix postfix) ->
  InRange s ->
  (editorReducer call s (ADD_PREFIX_POSTFIX prefix postfix) now = Same
   <-> prefix = EmptyString /\ postfix = EmptyString).
Proof.
  intros Hun (Hr & He).
  rewrite editorReducer_builtin by assumption.
  destruct (selection_partition (text s) _ _ Hr He) as [Hparts Hlen].
  unfold reduceBuiltin.
  set (before := JS.slice2 (text s) 0 (selectionStart s)) in *.
  set (selected := JS.slice2 (text s) (selectionStart s) (selectionEnd s)) in *.
  set (after := JS.slice1 (text s) (selectionEnd s)) in *.
  split.
  - destruct (bool_decide _ && _ && _) eqn:E; [intros _|discriminate].
    apply andb_true_iff in E as [[E1%bool_decide_eq_true E2%Z.eqb_eq]%andb_true_iff _].
    assert (JS.len prefix = 0) as Hp by lia.
    assert (JS.len (text s) = JS.len before + JS.len prefix + JS.len selected
                              + JS.len postfix + JS.len after) as Hsum.
    { rewrite E1 at 1. unfold JS.len. rewrite !length_append. lia. }
    assert (JS.len (text s) = JS.len before + JS.len selected + JS.len after) as Hsum'.
    { rewrite <- Hparts at 1. unfold JS.len. rewrite !length_append. lia. }
    split; apply length_0_empty; unfold JS.len in *; lia.
  - intros [-> ->]. rewrite !append_nil.
    rewrite bool_decide_eq_true_2 by (by rewrite Hparts).
    unfold JS.len at 1 2. simpl. rewrite Z.add_0_r, Z.eqb_refl. simpl.
    rewrite Hlen.
    by replace (selectionStart s + (selectionEnd s - selectionStart s))
      with (selectionEnd s) by lia; rewrite Z.eqb_refl.
Qed.

(** A change that arrives at least HISTORY_TIME_GAP after the current
    record is pushed on top of the entries that are kept: those up to the
    offset (the redo entries go), without the oldest ones beyond
    HISTORY_LIMIT, in their order. *)
Theorem late_change_is_pushed (s : EditorState) (h : History)
    (current : EditorHistoryRecord) (c : Changes) (now : Z) :
  history s = Some h ->
  JS.get (stack h) (offset h) = Some current ->
  HISTORY_TIME_GAP <= now - timestamp current ->
  exists h',
    history (recordChange s c now) = Some h' /\
    stack h' = kept h ++ [candidate s c now] /\
    offset h' = Z.of_nat (length (kept h)) /\
    length (kept h) = Nat.min (S (Z.to_nat (offset h))) (Z.to_nat HISTORY_LIMIT) /\
    last (kept h) = Some current /\
    forall j, (j < length (kept h))%nat ->
      kept h !! j = stack h !! (S (Z.to_nat (offset h)) - length (kept h) + j)%nat.
Proof.
  intros Hh Hget Hold.
  rewrite (recordChange_history _ _ _ _ Hh).
  rewrite (recordHistory_at_valid_offset _ _ _ Hget). simpl.
  destruct (Z.ltb_spec (now - timestamp current) HISTORY_TIME_GAP); [lia|].
  eexists. split; [reflexivity|]. simpl. split; [reflexivity|].
  split; [reflexivity|]. split; [by eapply kept_length|].
  split.
  - pose proof (kept_current _ _ Hget) as Hcur. 
    rewrite last_lookup. exact Hcur.
  - intros j Hj. by eapply kept_lookup.
Qed.

(** The viewer's "Can Undo" and "Can Redo" say what the reducer does: in a
    consistent state UNDO (REDO) builds a new state exactly when the viewer
    shows "Yes", and never throws. *)
Theorem viewer_buttons_agree_with_reducer (s : EditorState) (h : History) (now : Z) :
  Consistent s -> hookFree s = true ->
  history s = Some h ->
  (if canUndo h
   then exists s', editorReducer call s UNDO now = Fresh s'
   else editorReducer call s UNDO now = Same) /\
  (if canRedo h
   then exists s', editorReducer call s REDO now = Fresh s'
   else editorReducer call s REDO now = Same).
Proof.
  intros (h' & r & Hh' & Hget & Hsnap) Hfree Hh.
  rewrite Hh in Hh'. injection Hh' as <-.
  pose proof Hget as [Hoff Hlk]%get_Some.
  pose proof (lookup_lt_Some _ _ _ Hlk) as Hlt.
  rewrite !editorReducer_builtin by (by apply hookFree_Unclaimed).
  unfold canUndo, canRedo. simpl. rewrite Hh. split.
  - destruct (Z.ltb_spec 0 (offset h)), (Z.leb_spec (offset h) 0); try lia; [|done].
    destruct (JS.get (stack h) (offset h - 1)) as [prev|] eqn:Hprev; [eauto|].
    exfalso. unfold JS.get in Hprev.
    destruct (Z.ltb_spec (offset h - 1) 0); [lia|].
    apply lookup_ge_None in Hprev. lia.
  - destruct (Z.ltb_spec (offset h) (Z.of_nat (length (stack h)) - 1)),
             (Z.leb_spec (Z.of_nat (length (stack h)) - 1) (offset h));
      try lia; [|done].
    destruct (JS.get (stack h) (offset h + 1)) as [next|] eqn:Hnext; [eauto|].
    exfalso. unfold JS.get in Hnext.
    destruct (Z.ltb_spec (offset h + 1) 0); [lia|].
    apply lookup_ge_None in Hnext. lia.
Qed.

End EditingProperties.

(* ===================================================================== *)
(** ** Timestamps of the history, and the history viewer *)
(* ===================================================================== *)

Lemma Spaced_same_timestamps (st1 st2 : list EditorHistoryRecord) :
  timestamp <$> st1 = timestamp <$> st2 -> Spaced st1 -> Spaced st2.
Proof.
  intros E Hsp i a b Ha Hb.
  assert ((timestamp <$> st2) !! i = Some (timestamp a)) as Ha'
    by (by rewrite list_lookup_fmap, Ha).
  assert ((timestamp <$> st2) !! S i = Some (timestamp b)) as Hb'
    by (by rewrite list_lookup_fmap, Hb).
  rewrite <- E, list_lookup_fmap in Ha', Hb'.
  destruct (st1 !! i) as [a'|] eqn:Ea; [|discriminate].
  destruct (st1 !! S i) as [b'|] eqn:Eb; [|discriminate].
  simpl in Ha', Hb'. injection Ha' as Ha'. injection Hb' as Hb'.
  rewrite <- Ha', <- Hb'. by eapply Hsp.
Qed.

Lemma Spaced_kept (h : History) (current : EditorHistoryRecord) :
  JS.get (stack h) (offset h) = Some current ->
  Spaced (stack h) -> Spaced (kept h).
Proof.
  intros Hget Hsp i a b Ha Hb.
  pose proof (lookup_lt_Some _ _ _ Ha) as Hi.
  pose proof (lookup_lt_Some _ _ _ Hb) as HSi.
  rewrite (kept_lookup _ _ i Hget) in Ha by lia.
  rewrite (kept_lookup _ _ (S i) Hget) in Hb by lia.
  replace (S (Z.to_nat (offset h)) - length (kept h) + S i)%nat
    with (S (S (Z.to_nat (offset h)) - length (kept h) + i)) in Hb by lia.
  by eapply Hsp.
Qed.

Lemma Spaced_push (st : list EditorHistoryRecord) (current r : EditorHistoryRecord) :
  st !! Nat.pred (length st) = Some current ->
  timestamp current + HISTORY_TIME_GAP <= timestamp r ->
  Spaced st -> Spaced (st ++ [r]).
Proof.
  intros Hcur Hgap Hsp i a b Ha Hb.
  pose proof (lookup_lt_Some _ _ _ Hcur) as Hlen.
  destruct (decide (S i < length st)%nat) as [Hin|Hout].
  - rewrite lookup_app_l in Ha, Hb by lia. by eapply Hsp.
  - pose proof (lookup_lt_Some _ _ _ Hb) as HSi. rewrite length_app in HSi.
    simpl in HSi. assert (S i = length st) as Ei by lia.
    rewrite lookup_app_l in Ha by lia.
    rewrite Ei, lookup_app_r, Nat.sub_diag in Hb by lia. injection Hb as <-.
    replace i with (Nat.pred (length st)) in Ha by lia.
    rewrite Hcur in Ha. injection Ha as <-. exact Hgap.
Qed.

(** [recordChange] keeps the entries of the stack spaced, whatever the
    clock says. *)
Lemma recordHistory_Spaced (h : History) (current r : EditorHistoryRecord) :
  JS.get (stack h) (offset h) = Some current ->
  Spaced (stack h) -> Spaced (stack (recordHistory h r)).
Proof.
  intros Hget Hsp. pose proof (kept_current _ _ Hget) as Hcur.
  pose proof (Spaced_kept _ _ Hget Hsp) as Hk.
  rewrite (recordHistory_at_valid_offset _ _ _ Hget).
  destruct (Z.ltb_spec (timestamp r - timestamp current) HISTORY_TIME_GAP); simpl.
  - eapply Spaced_same_timestamps; [|exact Hk].
    rewrite list_fmap_insert. simpl. symmetry. apply list_insert_id.
    by rewrite list_lookup_fmap, Hcur.
  - eapply Spaced_push; [exact Hcur | lia | exact Hk].
Qed.

(** Spaced entries have strictly increasing, hence distinct, timestamps. *)
Lemma Spaced_increasing (st : list EditorHistoryRecord) :
  Spaced st ->
  forall i j a b, (i < j)%nat -> st !! i = Some a -> st !! j = Some b ->
                  timestamp a < timestamp b.
Proof.
  intros Hsp i j. revert i. induction j as [|j IH]; intros i a b Hij Ha Hb; [lia|].
  pose proof (lookup_lt_Some _ _ _ Hb) as Hlen.
  destruct (lookup_lt_is_Some_2 st j ltac:(lia)) as [m Hm].
  pose proof (Hsp j m b Hm Hb) as Hstep. unfold HISTORY_TIME_GAP in Hstep.
  destruct (decide (i = j)) as [->|Hne].
  - rewrite Hm in Ha. injection Ha as <-. lia.
  - pose proof (IH i a m ltac:(lia) Ha Hm). lia.
Qed.

Lemma Spaced_NoDup (st : list EditorHistoryRecord) :
  Spaced st -> NoDup (timestamp <$> st).
Proof.
  intros Hsp. apply NoDup_alt. intros i j t Hi Hj.
  rewrite list_lookup_fmap in Hi, Hj.
  destruct (st !! i) as [a|] eqn:Ea; [|discriminate].
  destruct (st !! j) as [b|] eqn:Eb; [|discriminate].
  simpl in Hi, Hj. injection Hi as Hi. injection Hj as Hj.
  destruct (Nat.lt_trichotomy i j) as [Hlt|[->|Hgt]]; [|done|].
  - pose proof (Spaced_increasing st Hsp i j a b Hlt Ea Eb). lia.
  - pose proof (Spaced_increasing st Hsp j i b a Hgt Eb Ea). lia.
Qed.

(** The loop of the viewer lists the records from the last to the first. *)
Lemma historyItemsFrom_take (h : History) (n : nat) :
  (n <= length (stack h))%nat ->
  historyItemsFrom h n
  = reverse (imap (fun i r => historyItem h (Z.of_nat i) r) (take n (stack h))).
Proof.
  induction n as [|n IH]; intros Hn; [reflexivity|].
  destruct (lookup_lt_is_Some_2 (stack h) n ltac:(lia)) as [r Hr].
  cbn [historyItemsFrom]. rewrite get_of_nat, Hr, IH by lia.
  rewrite (take_S_r _ _ _ Hr), imap_app, reverse_app. simpl.
  rewrite length_take, Nat.min_l, Nat.add_0_r by lia. reflexivity.
Qed.

Section ViewerProperties.

Variable call : FnRef -> EditorState -> EditorAction -> option Outcome.

(** The reducer keeps the entries of the stack spaced. *)
Lemma editorReducer_Spaced (s s' : EditorState) (a : EditorAction) (now : Z) :
  Consistent s -> hookFree s = true ->
  (forall h, history s = Some h -> Spaced (stack h)) ->
  state_after s (editorReducer call s a now) = Some s' ->
  forall h', history s' = Some h' -> Spaced (stack h').
Proof.
  intros (h & r & Hh & Hget & _) Hfree Hsp.
  rewrite editorReducer_builtin by (by apply hookFree_Unclaimed).
  pose proof (Hsp h Hh) as Hsph.
  destruct (is_mutating a) eqn:Hmut.
  { destruct (mutating_cases s a now Hmut) as [->|[c ->]]; intros [= <-].
    - exact Hsp.
    - rewrite (recordChange_history _ _ _ _ Hh). simpl. intros h' [= <-].
      by eapply recordHistory_Spaced. }
  assert (forall h', Some h = Some h' -> Spaced (stack h')) as Hsame
    by (by intros h' [= <-]).
  destruct a; try discriminate Hmut; simpl; rewrite ?Hh.
  - intros [= <-]. exact Hsame.
  - destruct (offset h <=? 0); [intros [= <-]; exact Hsp|].
    destruct (JS.get (stack h) (offset h - 1)); [|discriminate].
    intros [= <-] h' [= <-]. exact Hsph.
  - destruct (Z.of_nat (length (stack h)) - 1 <=? offset h);
      [intros [= <-]; exact Hsp|].
    destruct (JS.get (stack h) (offset h + 1)); [|discriminate].
    intros [= <-] h' [= <-]. exact Hsph.
  - intros [= <-]. exact Hsp.
  - intros [= <-]. exact Hsp.
  - intros [= <-]. exact Hsp.
Qed.

Lemma dispatchAll_Spaced (s : EditorState) (actions : list (EditorAction * Z)) :
  Consistent s -> hookFree s = true -> Bounded s ->
  (forall h, history s = Some h -> Spaced (stack h)) ->
  exists s', dispatchAll call s actions = Some s' /\
             Consistent s' /\ 
             (forall h', history s' = Some h' -> Spaced (stack h')).
Proof.
  revert s. induction actions as [|[a now] rest IH]; intros s Hc Hfree Hb Hsp.
  - by exists s.
  - destruct (editorReducer_Consistent call s a now Hc Hfree Hb)
      as (s1 & E & Hc1 & Hfree1 & Hb1).
    simpl. rewrite E. apply IH; try done.
    exact (editorReducer_Spaced s s1 a now Hc Hfree Hsp E).
Qed.

(** In every state the composer's reducer reaches, consecutive history
    records are at least HISTORY_TIME_GAP apart, whatever values the clock
    returned; so timestamps increase along the stack, and the viewer's
    items, which take them for keys, have distinct keys. *)
Theorem composer_history_timestamps_increase (initialValue : string) (t0 : Z)
    (actions : list (EditorAction * Z)) :
  exists s h items,
    dispatchAll call (initialState initialValue t0) actions = Some s /\
    history s = Some h /\
    Spaced (stack h) /\
    (forall i j a b, (i < j)%nat ->
       stack h !! i = Some a -> stack h !! j = Some b ->
       timestamp a < timestamp b) /\
    historyItems s = Some items /\
    NoDup (item_key <$> items).
Proof.
  destruct (dispatchAll_Spaced (initialState initialValue t0) actions)
    as (s & E & (h & r & Hh & Hget & Hsnap) & Hsp).
  - eexists. eexists. split; [reflexivity|]. split; [reflexivity|]. by repeat split.
  - reflexivity.
  - intros h [= <-]. simpl. unfold HISTORY_LIMIT. lia.
  - intros h [= <-] i a b Ha Hb. simpl in *. destruct i; discriminate.
  - exists s, h. eexists. split; [exact E|]. split; [exact Hh|].
    split; [by apply Hsp|]. split; [by apply Spaced_increasing, Hsp|].
    unfold historyItems. rewrite Hh. split; [reflexivity|].
    rewrite historyItemsFrom_take, firstn_all by lia.
    rewrite fmap_reverse, reverse_Permutation.
    rewrite fmap_imap.
    rewrite (imap_ext _ (const timestamp)) by done.
    rewrite imap_const. by apply Spaced_NoDup, Hsp.
Qed.

End ViewerProperties.

Lemma shownText_len (t : string) :
  JS.len (shownText t) = if 550 <? JS.len t then 553 else JS.len t.
Proof.
  unfold shownText. destruct (Z.ltb_spec 550 (JS.len t)) as [Hlong|]; [|done].
  unfold JS.substring2, JS.clamp, JS.len in *.
  rewrite length_append, length_str_take, length_str_drop.
  change (String.length "...") with 3%nat. lia.
Qed.

(** The viewer shows one item per record of the stack, the last record
    first; in a consistent state exactly one item is marked current, the
    one of the record at [offset], and it shows the live text (cut after
    550 code units, as every item's text is) and the live selection. *)
Theorem history_viewer_marks_the_live_record (s : EditorState) (h : History) :
  Consistent s -> history s = Some h ->
  exists items current,
    historyItems s = Some items /\
    length items = length (stack h) /\
    (forall k it, items !! k = Some it ->
       exists r, stack h !! (length (stack h) - 1 - k)%nat = Some r /\
                 it = historyItem h (Z.of_nat (length (stack h) - 1 - k)) r) /\
    items !! (length (stack h) - 1 - Z.to_nat (offset h))%nat = Some current /\
    item_current current = true /\
    item_text current = shownText (text s) /\
    item_selectionStart current = selectionStart s /\
    item_selectionEnd current = selectionEnd s /\
    item_selectionDirection current = selectionDirection s /\
    (forall k it, items !! k = Some it -> item_current it = true ->
                  k = (length (stack h) - 1 - Z.to_nat (offset h))%nat) /\
    (forall it, it ∈ items -> JS.len (item_text it) <= 553).
Proof.
  intros (h0 & r & Hh0 & Hget & Ht & Hs & He & Hd) Hh.
  rewrite Hh in Hh0. injection Hh0 as <-.
  apply get_Some in Hget as [Hoff Hlk].
  pose proof (lookup_lt_Some _ _ _ Hlk) as Hlt.
  set (f := fun (i : nat) (r : EditorHistoryRecord) => historyItem h (Z.of_nat i) r).
  assert (historyItems s = Some (reverse (imap f (stack h)))) as Hitems.
  { unfold historyItems. rewrite Hh, historyItemsFrom_take, firstn_all by lia.
    reflexivity. }
  assert (length (reverse (imap f (stack h))) = length (stack h)) as Hlen
    by (by rewrite length_reverse, length_imap).
  assert (forall k it, reverse (imap f (stack h)) !! k = Some it ->
            exists r, stack h !! (length (stack h) - 1 - k)%nat = Some r /\
                      it = f (length (stack h) - 1 - k)%nat r) as Hitem.
  { intros k it Hk. pose proof (lookup_lt_Some _ _ _ Hk) as Hklt.
    rewrite Hlen in Hklt.
    rewrite reverse_lookup, length_imap, list_lookup_imap in Hk
      by (rewrite length_imap; lia).
    replace (length (stack h) - S k)%nat with (length (stack h) - 1 - k)%nat
      in Hk by lia.
    destruct (stack h !! (length (stack h) - 1 - k)%nat) as [r'|]; [|discriminate].
    injection Hk as <-. by exists r'. }
  exists (reverse (imap f (stack h))), (f (Z.to_nat (offset h)) r).
  split; [exact Hitems|]. split; [exact Hlen|]. split; [exact Hitem|].
  split.
  { rewrite reverse_lookup, length_imap, list_lookup_imap
      by (rewrite length_imap; lia).
    replace (length (stack h) - S (length (stack h) - 1 - Z.to_nat (offset h)))%nat
      with (Z.to_nat (offset h)) by lia.
    by rewrite Hlk. }
  split; [unfold f; simpl; apply Z.eqb_eq; lia|].
  split; [unfold f; simpl; by rewrite Ht|].
  split; [exact Hs|]. split; [exact He|]. split; [exact Hd|].
  split.
  - intros k it Hk Hcur. pose proof (lookup_lt_Some _ _ _ Hk) as Hklt.
    destruct (Hitem k it Hk) as (r' & _ & ->). unfold f in Hcur. simpl in Hcur.
    apply Z.eqb_eq in Hcur.
    rewrite Hlen in Hklt. lia.
  - intros it [k Hk]%list_elem_of_lookup.
    destruct (Hitem k it Hk) as (r' & _ & ->). unfold f. simpl.
    rewrite shownText_len. destruct (Z.ltb_spec 550 (JS.len (h_text r'))); lia.
Qed.

(* ===================================================================== *)
(** ** The plugin registry *)
(* ===================================================================== *)

Lemma registered_map_set (id id' : string) (hs : PluginHandlers) (reg : Registry) :
  registered id' (map_set id hs reg)
  = if String.eqb id id' then Some hs else registered id' reg.
Proof.
  induction reg as [|[k v] reg IH]; simpl.
  - rewrite String.eqb_sym. reflexivity.
  - destruct (String.eqb_spec k id) as [->|Hk]; simpl.
    + destruct (String.eqb_spec id id'); reflexivity.
    + destruct (String.eqb_spec k id') as [->|]; [|exact IH].
      destruct (String.eqb_spec id id'); congruence.
Qed.

Lemma registryIds_map_set_present (id : string) (hs : PluginHandlers) (reg : Registry) :
  id ∈ registryIds reg -> registryIds (map_set id hs reg) = registryIds reg.
Proof.
  unfold registryIds. induction reg as [|[k v] reg IH]; simpl; intros Hin.
  - by apply elem_of_nil in Hin.
  - destruct (String.eqb_spec k id) as [->|Hk]; [reflexivity|]. simpl.
    apply elem_of_cons in Hin as [->|Hin]; [done|]. by rewrite IH.
Qed.

Lemma filter_other_ids (id : string) (ids : list string) :
  id ∉ ids -> filter (fun k => k <> id) ids = ids.
Proof.
  induction ids as [|k ids IH]; intros Hout; [reflexivity|].
  apply not_elem_of_cons in Hout as [Hne Hout].
  rewrite filter_cons_True by congruence. by rewrite IH.
Qed.

Lemma registryIds_map_delete (id : string) (reg : Registry) :
  NoDup (registryIds reg) ->
  registryIds (map_delete id reg)
  = filter (fun k => k <> id) (registryIds reg).
Proof.
  unfold registryIds. induction reg as [|[k v] reg IH]; simpl; intros Hnd.
  - reflexivity.
  - apply NoDup_cons in Hnd as [Hk Hnd].
    destruct (String.eqb_spec k id) as [->|Hne].
    + rewrite filter_cons_False by (intros H; by apply H).
      symmetry. by apply filter_other_ids.
    + rewrite filter_cons_True by done. simpl. by rewrite IH.
Qed.

Lemma registered_map_delete_other (id id' : string) (reg : Registry) :
  id' <> id -> registered id' (map_delete id reg) = registered id' reg.
Proof.
  intros Hne. induction reg as [|[k v] reg IH]; simpl; [reflexivity|].
  destruct (String.eqb_spec k id) as [->|Hk]; simpl.
  - destruct (String.eqb_spec id id'); congruence.
  - by rewrite IH.
Qed.

Lemma registered_None (id : string) (reg : Registry) :
  registered id reg = None <-> id ∉ registryIds reg.
Proof.
  unfold registryIds. induction reg as [|[k v] reg IH]; simpl.
  - split; [intros _; apply not_elem_of_nil | done].
  - rewrite not_elem_of_cons. destruct (String.eqb_spec k id) as [->|Hk].
    + split; [discriminate | intros [H _]; by destruct H].
    + rewrite IH. split; [by split | by intros [_ H]].
Qed.

Lemma map_delete_absent (id : string) (reg : Registry) :
  id ∉ registryIds reg -> map_delete id reg = reg.
Proof.
  unfold registryIds. induction reg as [|[k v] reg IH]; simpl; intros Hin.
  - reflexivity.
  - apply not_elem_of_cons in Hin as [Hne Hin].
    destruct (String.eqb_spec k id); [congruence|]. by rewrite IH.
Qed.

Lemma map_delete_map_set (id : string) (hs : PluginHandlers) (reg : Registry) :
  map_delete id (map_set id hs reg) = map_delete id reg.
Proof.
  induction reg as [|[k v] reg IH]; simpl.
  - by rewrite String.eqb_refl.
  - destruct (String.eqb_spec k id) as [->|Hk]; simpl.
    + by rewrite String.eqb_refl.
    + destruct (String.eqb_spec k id); [congruence|]. by rewrite IH.
Qed.

Lemma map_set_absent (id : string) (hs : PluginHandlers) (reg : Registry) :
  id ∉ registryIds reg -> map_set id hs reg = reg ++ [(id, hs)].
Proof.
  unfold registryIds. induction reg as [|[k v] reg IH]; intros Hfresh.
  - reflexivity.
  - simpl in *. apply not_elem_of_cons in Hfresh as [Hne Hfresh].
    destruct (String.eqb_spec k id); [congruence|]. by rewrite IH.
Qed.

(** X: [registerPlugin] keeps one entry per id.  Registering under an id
    that is present replaces its handlers where the entry stands, under a
    new id it appends an entry; either way the id then names the handlers
    given and every other id names what it did before. *)
Theorem register_keeps_one_entry_per_id (reg : Registry) (id : string)
    (hs : PluginHandlers) :
  NoDup (registryIds reg) ->
  NoDup (registryIds (registerPlugin id hs reg)) /\
  registered id (registerPlugin id hs reg) = Some hs /\
  (forall id', id' <> id ->
     registered id' (registerPlugin id hs reg) = registered id' reg) /\
  (id ∈ registryIds reg ->
     registryIds (registerPlugin id hs reg) = registryIds reg) /\
  (id ∉ registryIds reg -> registerPlugin id hs reg = reg ++ [(id, hs)]).
Proof.
  intros Hnd. unfold registerPlugin.
  split.
  { destruct (decide (id ∈ registryIds reg)) as [Hin|Hout].
    - by rewrite registryIds_map_set_present.
    - rewrite (map_set_absent _ _ _ Hout). unfold registryIds in *.
      rewrite map_app. simpl. apply NoDup_app. split; [done|].
      split; [|apply NoDup_singleton].
      intros x Hx ->%list_elem_of_singleton. by apply Hout. }
  split; [by rewrite registered_map_set, String.eqb_refl|].
  split.
  { intros id' Hne. rewrite registered_map_set.
    destruct (String.eqb_spec id id'); congruence. }
  split; [apply registryIds_map_set_present | apply map_set_absent].
Qed.

(** The function [registerPlugin] returns removes the entry of its id
    and nothing else; calling it again changes nothing.  After a
    registration it leaves the registry without the id: that is the
    registry from before when the id was new; when the id was present,
    the handlers it named before the registration are gone as well, they
    do not come back.  Registering again after it puts the plugin behind
    all the others. *)
Theorem unregister_then_register_moves_to_end (reg : Registry) (id : string)
    (hs hs' : PluginHandlers) :
  NoDup (registryIds reg) ->
  let reg' := unregisterPlugin id reg in
  registryIds reg' = filter (fun k => k <> id) (registryIds reg) /\
  registered id reg' = None /\
  (forall id', id' <> id -> registered id' reg' = registered id' reg) /\
  unregisterPlugin id reg' = reg' /\
  unregisterPlugin id (registerPlugin id hs reg) = reg' /\
  (id ∉ registryIds reg -> reg' = reg) /\
  registerPlugin id hs' reg' = reg' ++ [(id, hs')] /\
  (id ∉ registryIds reg ->
   unregisterPlugin id (registerPlugin id hs reg) = reg) /\
  (id ∈ registryIds reg ->
   registered id reg <> None /\
   registered id (unregisterPlugin id (registerPlugin id hs reg)) = None /\
   unregisterPlugin id (registerPlugin id hs reg) <> reg).
Proof.
  intros Hnd reg'. subst reg'. unfold unregisterPlugin, registerPlugin.
  assert (id ∉ registryIds (map_delete id reg)) as Hgone.
  { rewrite registryIds_map_delete by done.
    intros [H _]%list_elem_of_filter. by apply H. }
  split; [by apply registryIds_map_delete|].
  split; [by apply registered_None|].
  split; [intros id' Hne; by apply registered_map_delete_other|].
  split; [by apply map_delete_absent|].
  split; [apply map_delete_map_set|].
  split; [apply map_delete_absent|].
  split; [by apply map_set_absent|].
  split.
  - intros Hout. rewrite map_delete_map_set. by apply map_delete_absent.
  - intros Hin. rewrite map_delete_map_set.
    assert (registered id reg <> None) as Hwas
      by (intros Hnone%registered_None; contradiction).
    split; [exact Hwas|]. split; [by apply registered_None|].
    intros E. rewrite E in Hgone. contradiction.
Qed.

(* ===================================================================== *)
(** ** From the event to the new state *)
(* ===================================================================== *)

Lemma sentActions_app (t1 t2 : list Effect) :
  sentActions (t1 ++ t2) = sentActions t1 ++ sentActions t2.
Proof.
  induction t1 as [|[a|id] t1 IH]; simpl; [done| by rewrite IH | done].
Qed.

Lemma sentActions_dispatched (sent : list EditorAction) :
  sentActions (map Dispatched sent) = sent.
Proof. induction sent as [|a sent IH]; simpl; [done | by rewrite IH]. Qed.

Lemma existsb_Permutation {A} (f : A -> bool) (l1 l2 : list A) :
  l1 ≡ₚ l2 -> existsb f l1 = existsb f l2.
Proof.
  induction 1 as [|x l1 l2 _ IH|x y l|l1 l2 l3 _ IH1 _ IH2]; simpl.
  - reflexivity.
  - by rewrite IH.
  - by destruct (f x), (f y).
  - by rewrite IH1.
Qed.

(** A key is one of the shortcut keys or none of them. *)
Lemma shortcut_key_cases (k : string) :
  k ∈ SHORTCUT_KEYS \/
  (String.eqb k "b" = false /\ String.eqb k "i" = false /\
   String.eqb k "z" = false /\ String.eqb k "y" = false).
Proof.
  unfold SHORTCUT_KEYS.
  destruct (String.eqb_spec k "b") as [->|]; [left; apply list_elem_of_In; simpl; tauto|].
  destruct (String.eqb_spec k "i") as [->|]; [left; apply list_elem_of_In; simpl; tauto|].
  destruct (String.eqb_spec k "z") as [->|]; [left; apply list_elem_of_In; simpl; tauto|].
  destruct (String.eqb_spec k "y") as [->|]; [left; apply list_elem_of_In; simpl; tauto|].
  by right.
Qed.

(** Of the four key handlers at most one handles an event: each either
    sends all that [keyAction] holds and returns true, or sends nothing
    and returns false. *)
Lemma shipped_handler_cases (inherited : string -> option string)
    (e : KeyDownEvent) (s : EditorState) (h : PluginEventHandler KeyDownEvent) :
  (forall k, k ∈ SHORTCUT_KEYS -> inherited k = None) ->
  Some h ∈ shippedKeyDown inherited ->
  h e s = (keyAction inherited e s, true) \/ h e s = ([], false).
Proof.
  intros Hinh Hin.
  assert (inherited "b" = None /\ inherited "i" = None /\
          inherited "z" = None /\ inherited "y" = None) as (Hb & Hi & Hz & Hy)
    by (unfold SHORTCUT_KEYS in Hinh; repeat split; apply Hinh; apply list_elem_of_In; simpl; tauto).
  destruct e as [k c m sh al].
  assert (h = boldKeyDownHandler \/ h = italicKeyDownHandler \/
          h = bracketWrapKeyDownHandler inherited \/ h = undoRedoKeyDownHandler)
    as Hh.
  { unfold shippedKeyDown in Hin. apply list_elem_of_In in Hin. simpl in Hin.
    destruct Hin as [H|[H|[H|[H|[H|[]]]]]]; try discriminate H;
      injection H as <-; auto. }
  cbv beta iota zeta delta
    [keyAction boldKeyDownHandler italicKeyDownHandler bracketWrapKeyDownHandler
     undoRedoKeyDownHandler key metaKey ctrlKey shiftKey altKey].
  destruct (shortcut_key_cases k) as [Hk|(Eb & Ei & Ez & Ey)].
  - unfold SHORTCUT_KEYS in Hk. apply list_elem_of_In in Hk. simpl in Hk.
    destruct Hk as [ <- | [ <- | [ <- | [ <- | [] ] ] ] ];
      destruct Hh as [ -> | [ -> | [ -> | -> ] ] ];
      cbv beta iota zeta delta
        [boldKeyDownHandler italicKeyDownHandler bracketWrapKeyDownHandler
         undoRedoKeyDownHandler key metaKey ctrlKey shiftKey altKey];
      rewrite ?Hb, ?Hi, ?Hz, ?Hy;
      destruct (selectionStart s =? selectionEnd s), m, c, sh, al;
      vm_compute; auto.
  - destruct Hh as [ -> | [ -> | [ -> | -> ] ] ];
      cbv beta iota zeta delta
        [boldKeyDownHandler italicKeyDownHandler bracketWrapKeyDownHandler
         undoRedoKeyDownHandler key metaKey ctrlKey shiftKey altKey];
      rewrite ?Eb, ?Ei, ?Ez, ?Ey;
      destruct (selectionStart s =? selectionEnd s), m, c, sh, al;
      destruct (pairOf BRACKET_PAIRS k), (inherited k); simpl; auto.
Qed.

Lemma allDecline_handles {T : Type}
    (pick : PluginHandlers -> option (PluginEventHandler T))
    (reg : Registry) (e : T) (s : EditorState) :
  allDecline pick reg e s -> existsb (handles pick e s) reg = false.
Proof.
  induction reg as [|[id hs] reg IH]; intros Hdecl; [reflexivity|].
  simpl. rewrite IH by (intros ? ? ? ? ?; eapply Hdecl; [by right | done]).
  unfold handles. simpl. destruct (pick hs) as [h|] eqn:Hp; [|reflexivity].
  rewrite (Hdecl id hs h ltac:(left) Hp). reflexivity.
Qed.

(** When every handler of a registry either sends [canon] and returns
    true or sends nothing and returns false, what is sent depends on
    whether some handler handles the event, not on the order. *)
Lemma sentActions_distribute_exclusive {T : Type}
    (pick : PluginHandlers -> option (PluginEventHandler T))
    (reg : Registry) (e : T) (s : EditorState) (canon : list EditorAction) :
  Forall (fun entry => forall h, pick (snd entry) = Some h ->
            h e s = (canon, true) \/ h e s = ([], false)) reg ->
  sentActions (distribute pick reg e s)
  = if existsb (handles pick e s) reg then canon else [].
Proof.
  induction 1 as [|[id hs] reg Hhs _ IH]; [reflexivity|].
  simpl in *. unfold handles at 1. simpl.
  destruct (pick hs) as [h|]; [|exact IH].
  destruct (Hhs h eq_refl) as [E|E]; rewrite E; simpl.
  - by rewrite sentActions_app, sentActions_dispatched, app_nil_r.
  - exact IH.
Qed.

Lemma sentActions_distribute_shipped (inherited : string -> option string)
    (reg : Registry) (e : KeyDownEvent) (s : EditorState) :
  (forall k, k ∈ SHORTCUT_KEYS -> inherited k = None) ->
  Shipped inherited reg ->
  sentActions (distribute keyDown reg e s)
  = if existsb (handles keyDown e s) reg then keyAction inherited e s else [].
Proof.
  intros Hinh Hs. apply sentActions_distribute_exclusive.
  eapply Forall_impl; [exact Hs|]. intros [id hs] Hin h Hh. simpl in *.
  rewrite Hh in Hin. by apply shipped_handler_cases.
Qed.

Lemma handles_registered {T : Type}
    (pick : PluginHandlers -> option (PluginEventHandler T))
    (reg : Registry) (e : T) (s : EditorState) (id : string)
    (hs : PluginHandlers) (h : PluginEventHandler T) :
  (id, hs) ∈ reg -> pick hs = Some h -> snd (h e s) = true ->
  existsb (handles pick e s) reg = true.
Proof.
  intros Hin Hp Hh. apply existsb_exists. exists (id, hs).
  split; [by apply list_elem_of_In|]. unfold handles. simpl. by rewrite Hp.
Qed.

(** The keys of the bracket table and their closing marks are one code
    unit long. *)
Lemma pairOf_lengths (k closing : string) :
  pairOf BRACKET_PAIRS k = Some closing ->
  (k ∉ SHORTCUT_KEYS) /\ JS.len k = 1 /\ JS.len closing = 1.
Proof.
  unfold BRACKET_PAIRS. cbn [pairOf].
  repeat match goal with
         | |- context [String.eqb ?a k] =>
             destruct (String.eqb_spec a k) as [<-|?];
             [intros [= <-]; split; [|by vm_compute];
              intros Hin%list_elem_of_In; simpl in Hin;
              repeat (destruct Hin as [Hin|Hin]; [discriminate Hin|]); done|]
         end.
  discriminate.
Qed.

Lemma keyAction_length (inherited : string -> option string)
    (e : KeyDownEvent) (s : EditorState) :
  (forall k, k ∈ SHORTCUT_KEYS -> inherited k = None) ->
  (length (keyAction inherited e s) <= 1)%nat.
Proof.
  intros Hinh.
  assert (Some (bracketWrapKeyDownHandler inherited) ∈ shippedKeyDown inherited)
    as Hin by (apply list_elem_of_In; simpl; tauto).
  destruct (shipped_handler_cases inherited e s _ Hinh Hin) as [E|E].
  - assert (fst (bracketWrapKeyDownHandler inherited e s) = keyAction inherited e s)
      as <- by (by rewrite E).
    unfold bracketWrapKeyDownHandler.
    destruct (_ =? _); [simpl; lia|].
    destruct (pairOf _ _); [simpl; lia|]. destruct (inherited _); simpl; lia.
  - assert (Some undoRedoKeyDownHandler ∈ shippedKeyDown inherited)
      as Hin' by (apply list_elem_of_In; simpl; tauto).
    assert (Some boldKeyDownHandler ∈ shippedKeyDown inherited)
      as Hin'' by (apply list_elem_of_In; simpl; tauto).
    destruct (shipped_handler_cases inherited e s _ Hinh Hin') as [E'|E'].
    + assert (fst (undoRedoKeyDownHandler e s) = keyAction inherited e s)
        as <- by (by rewrite E').
      unfold undoRedoKeyDownHandler. cbv zeta.
      destruct (_ && _ && _); [simpl; lia|]. destruct (_ || _); simpl; lia.
    + destruct (shipped_handler_cases inherited e s _ Hinh Hin'') as [E''|E''].
      * assert (fst (boldKeyDownHandler e s) = keyAction inherited e s)
          as <- by (by rewrite E'').
        unfold boldKeyDownHandler. cbv zeta.
        destruct (_ =? _); [simpl; lia|]. destruct (_ && _ && _ && _); simpl; lia.
      * unfold keyAction. rewrite E, E', E''. simpl. rewrite app_nil_r.
        unfold italicKeyDownHandler. cbv zeta.
        destruct (_ =? _); [simpl; lia|]. destruct (_ && _ && _ && _); simpl; lia.
Qed.

(** The order in which BoldPlugin, ItalicPlugin, BracketWrapPlugin,
    UndoRedoPlugin and AutoLinkPlugin stand in the registry does not
    change what a key press sends to the reducer: the KEY_DOWN action
    itself and at most one action of a plugin, and none when every
    handler declines.  The names the bracket table inherits are taken not
    to be shortcut keys. *)
Theorem shipped_key_plugins_commute (inherited : string -> option string)
    (reg1 reg2 : Registry) (s : EditorState) (e : KeyDownEvent) :
  (forall k, k ∈ SHORTCUT_KEYS -> inherited k = None) ->
  Shipped inherited reg1 ->
  reg1 ≡ₚ reg2 ->
  sentActions (enhancedDispatch reg1 s (KEY_DOWN e))
  = sentActions (enhancedDispatch reg2 s (KEY_DOWN e)) /\
  (exists sent, sentActions (enhancedDispatch reg1 s (KEY_DOWN e))
                = KEY_DOWN e :: sent /\ (length sent <= 1)%nat) /\
  (allDecline keyDown reg1 e s ->
   sentActions (enhancedDispatch reg1 s (KEY_DOWN e)) = [KEY_DOWN e]).
Proof.
  intros Hinh Hs1 Hperm.
  assert (Shipped inherited reg2) as Hs2
    by (unfold Shipped in *; by rewrite <- Hperm).
  simpl. rewrite !(sentActions_distribute_shipped inherited) by assumption.
  rewrite (existsb_Permutation _ _ _ Hperm).
  split; [reflexivity|]. split.
  - eexists. split; [reflexivity|].
    destruct (existsb _ _); [by apply keyAction_length | simpl; lia].
  - intros Hdecl.
    by rewrite <- (existsb_Permutation _ _ _ Hperm), (allDecline_handles _ _ _ _ Hdecl).
Qed.

Section EventToState.

Variable call : FnRef -> EditorState -> EditorAction -> option Outcome.

(** With a prefix that is not empty, ADD_PREFIX_POSTFIX always gives a
    new state. *)
Lemma add_prefix_postfix_fresh (s : EditorState) (prefix postfix : string) (now : Z) :
  hookFree s = true -> 0 < JS.len prefix ->
  exists s',
    editorReducer call s (ADD_PREFIX_POSTFIX prefix postfix) now = Fresh s' /\
    text s' = JS.slice2 (text s) 0 (selectionStart s) +:+ prefix
              +:+ JS.slice2 (text s) (selectionStart s) (selectionEnd s)
              +:+ postfix +:+ JS.slice1 (text s) (selectionEnd s) /\
    selectionStart s' = selectionStart s + JS.len prefix /\
    selectionEnd s' = selectionStart s + JS.len prefix
                      + JS.len (JS.slice2 (text s) (selectionStart s) (selectionEnd s)) /\
    selectionDirection s' = selectionDirection s.
Proof.
  intros Hfree Hp.
  rewrite editorReducer_builtin by (by apply hookFree_Unclaimed).
  unfold reduceBuiltin. cbv zeta.
  destruct (Z.eqb_spec (selectionStart s) (selectionStart s + JS.len prefix)); [lia|].
  rewrite andb_false_r. simpl.
  eexists. split; [reflexivity|]. unfold recordChange.
  destruct (history s); simpl; done.
Qed.

(** With a selection, pressing a key of the bracket table puts the key
    before the selected text and its closing mark behind it, and leaves
    the same text selected, whatever the order of the plugins in the
    registry: two actions reach the reducer, KEY_DOWN and
    ADD_PREFIX_POSTFIX, and the state after them has the text grown by two
    code units and the selection moved by one. *)
Theorem bracket_key_wraps_selection (inherited : string -> option string)
    (reg : Registry) (id : string) (s : EditorState) (e : KeyDownEvent)
    (closing : string) (now1 now2 : Z) :
  (forall k, k ∈ SHORTCUT_KEYS -> inherited k = None) ->
  Shipped inherited reg ->
  (id, bracketWrapHandlers inherited) ∈ reg ->
  pairOf BRACKET_PAIRS (key e) = Some closing ->
  hookFree s = true ->
  InRange s -> selectionStart s <> selectionEnd s ->
  let before := JS.slice2 (text s) 0 (selectionStart s) in
  let selected := JS.slice2 (text s) (selectionStart s) (selectionEnd s) in
  let after := JS.slice1 (text s) (selectionEnd s) in
  sentActions (enhancedDispatch reg s (KEY_DOWN e))
  = [KEY_DOWN e; ADD_PREFIX_POSTFIX (key e) closing] /\
  exists s',
    dispatchAll call s [(KEY_DOWN e, now1);
                        (ADD_PREFIX_POSTFIX (key e) closing, now2)] = Some s' /\
    text s' = before +:+ key e +:+ selected +:+ closing +:+ after /\
    selectionStart s' = selectionStart s + 1 /\
    selectionEnd s' = selectionEnd s + 1 /\
    JS.slice2 (text s') (selectionStart s') (selectionEnd s') = selected /\
    JS.len (text s') = JS.len (text s) + 2.
Proof.
  intros Hinh Hship Hin Hpair Hfree [Hr He] Hsel before selected after.
  destruct (pairOf_lengths _ _ Hpair) as (_ & Hk & Hc).
  assert (bracketWrapKeyDownHandler inherited e s
          = ([ADD_PREFIX_POSTFIX (key e) closing], true)) as Hb.
  { unfold bracketWrapKeyDownHandler.
    destruct (Z.eqb_spec (selectionStart s) (selectionEnd s)); [done|].
    by rewrite Hpair. }
  split.
  - simpl. rewrite (sentActions_distribute_shipped inherited) by assumption.
    rewrite (handles_registered keyDown reg e s id _ _ Hin eq_refl)
      by (by rewrite Hb).
    assert (Some (bracketWrapKeyDownHandler inherited) ∈ shippedKeyDown inherited)
      as Hmem by (apply list_elem_of_In; simpl; tauto).
    destruct (shipped_handler_cases inherited e s _ Hinh Hmem) as [E|E];
      rewrite Hb in E; [|discriminate]. by injection E as <-.
  - destruct (add_prefix_postfix_fresh s (key e) closing now2 Hfree ltac:(lia))
      as (s' & E & Ht & Hs & Hend & _).
    destruct (selection_partition (text s) _ _ Hr He) as [Hparts Hlen].
    exists s'. simpl.
    rewrite (editorReducer_builtin call s (KEY_DOWN e))
      by (by apply hookFree_Unclaimed).
    simpl. rewrite E. simpl.
    split; [reflexivity|]. split; [exact Ht|]. split; [lia|].
    split; [fold selected in Hend; subst selected; lia|].
    split.
    + rewrite Ht, Hs, Hend. apply slice_of_wrapped.
      rewrite len_slice_from_0 by lia. lia.
    + assert (JS.len (text s) = JS.len before + JS.len selected + JS.len after)
        as Hsum.
      { fold before selected after in Hparts. rewrite <- Hparts at 1.
        unfold JS.len. rewrite !length_append. lia. }
      rewrite Ht. fold before selected after.
      unfold JS.len in *. rewrite !length_append. lia.
Qed.

(** A paste makes a link exactly when the clipboard text is a valid
    URL, the selection is not collapsed and the link test does not place
    it in a link's URL: then PASTE and one ADD_PREFIX_POSTFIX reach the
    reducer, and the state after them has the selected text between "["
    and "](url)", still selected.  Otherwise PASTE alone is sent and the
    state stays the one it was. *)
Theorem pasted_url_links_selection (isValidHttpUrl : string -> bool)
    (reg : Registry) (id : string) (s : EditorState) (e : PasteEvent)
    (now1 now2 : Z) :
  Forall (fun entry => paste (snd entry) ∈ shippedPaste isValidHttpUrl) reg ->
  (id, autoLinkHandlers isValidHttpUrl) ∈ reg ->
  hookFree s = true ->
  InRange s ->
  let url := clipboardText e in
  let before := JS.slice2 (text s) 0 (selectionStart s) in
  let selected := JS.slice2 (text s) (selectionStart s) (selectionEnd s) in
  let after := JS.slice1 (text s) (selectionEnd s) in
  let wrap := ADD_PREFIX_POSTFIX "[" ("](" +:+ url +:+ ")") in
  let links := isValidHttpUrl url
               && negb (selectionStart s =? selectionEnd s)
               && negb (isSelectionInMarkdownLink (text s) (selectionStart s)
                                                  (selectionEnd s)) in
  (links = true ->
   sentActions (enhancedDispatch reg s (PASTE e)) = [PASTE e; wrap] /\
   exists s',
     dispatchAll call s [(PASTE e, now1); (wrap, now2)] = Some s' /\
     text s' = before +:+ "[" +:+ selected +:+ "](" +:+ url +:+ ")" +:+ after /\
     selectionStart s' = selectionStart s + 1 /\
     selectionEnd s' = selectionEnd s + 1 /\
     JS.slice2 (text s') (selectionStart s') (selectionEnd s') = selected) /\
  (links = false ->
   sentActions (enhancedDispatch reg s (PASTE e)) = [PASTE e] /\
   dispatchAll call s [(PASTE e, now1)] = Some s).
Proof.
  intros Hship Hin Hfree [Hr He] url before selected after wrap links.
  assert (autoLinkPasteHandler isValidHttpUrl e s
          = if links then ([wrap], true) else ([], false)) as Hh.
  { unfold autoLinkPasteHandler, links, wrap. cbv zeta. fold url.
    destruct (isValidHttpUrl url), (selectionStart s =? selectionEnd s),
      (isSelectionInMarkdownLink _ _ _); reflexivity. }
  assert (sentActions (distribute paste reg e s)
          = if existsb (handles paste e s) reg
            then fst (autoLinkPasteHandler isValidHttpUrl e s) else []) as Hsent.
  { apply sentActions_distribute_exclusive.
    eapply Forall_impl; [exact Hship|]. intros [id' hs] Hmem h Hp. simpl in *.
    rewrite Hp in Hmem. unfold shippedPaste in Hmem.
    apply list_elem_of_In in Hmem. simpl in Hmem.
    destruct Hmem as [H|[H|[]]]; [discriminate H|]. injection H as <-.
    rewrite Hh. destruct links; auto. }
  assert (dispatchAll call s [(PASTE e, now1)] = Some s) as Hpaste.
  { simpl. by rewrite (editorReducer_builtin call s (PASTE e))
      by (by apply hookFree_Unclaimed). }
  split; intros Hl.
  - split.
    + simpl. rewrite Hsent.
      rewrite (handles_registered paste reg e s id _ _ Hin eq_refl)
        by (by rewrite Hh, Hl).
      by rewrite Hh, Hl.
    + destruct (add_prefix_postfix_fresh s "[" ("](" +:+ url +:+ ")") now2 Hfree
                  ltac:(by vm_compute))
        as (s' & E & Ht & Hs & Hend & _).
      destruct (selection_partition (text s) _ _ Hr He) as [_ Hlen].
      change (JS.len "[") with 1 in Hs, Hend.
      exists s'. simpl.
      rewrite (editorReducer_builtin call s (PASTE e))
        by (by apply hookFree_Unclaimed).
      simpl. fold wrap in E. rewrite E. simpl.
      split; [reflexivity|].
      split; [rewrite Ht; fold before selected after; by rewrite !append_assoc|].
      split; [exact Hs|]. split; [lia|].
      rewrite Ht, Hs, Hend. change 1 with (JS.len "["). apply slice_of_wrapped.
      rewrite len_slice_from_0 by lia. lia.
  - split; [|exact Hpaste].
    simpl. rewrite Hsent, Hh, Hl. simpl. by destruct (existsb _ _).
Qed.

End EventToState.

(* ===================================================================== *)
(** ** The handlers of Editable *)
(* ===================================================================== *)

Section EditableProperties.

Variable call : FnRef -> EditorState -> EditorAction -> option Outcome.

(** After the action of [handleChange] the state shows what the
    textarea shows, and the reducer returns the state it was given exactly
    when the state showed it before.  [handleTextSelection] sends nothing
    exactly when the selection of the textarea is the one of the state;
    what it sends is never taken for a duplicate by the reducer, leaves
    the text alone and makes the selection of the state the one of the
    textarea. *)
Theorem editable_handlers_sync_state (s : EditorState) (target : TextArea) (now : Z) :
  hookFree s = true ->
  (exists a s',
     handleChange target = [a] /\
     state_after s (editorReducer call s a now) = Some s' /\
     textAreaOf s' = target /\
     (editorReducer call s a now = Same <-> textAreaOf s = target)) /\
  (handleTextSelection target s = [] <->
     ta_selectionStart target = selectionStart s /\
     ta_selectionEnd target = selectionEnd s /\
     ta_selectionDirection target = selectionDirection s) /\
  (forall a, a ∈ handleTextSelection target s ->
     exists s',
       editorReducer call s a now = Fresh s' /\
       text s' = text s /\
       selectionStart s' = ta_selectionStart target /\
       selectionEnd s' = ta_selectionEnd target /\
       selectionDirection s' = ta_selectionDirection target).
Proof.
  intros Hfree. destruct target as [v ss se d].
  unfold handleChange, handleTextSelection, textAreaOf. simpl.
  split; [|split].
  - exists (SET_TEXT_AND_SELECTION v ss se (Some d)).
    rewrite editorReducer_builtin by (by apply hookFree_Unclaimed).
    unfold reduceBuiltin, direction_is.
    destruct (bool_decide (text s = v) && (selectionStart s =? ss)
              && (selectionEnd s =? se)
              && bool_decide (selectionDirection s = d)) eqn:E.
    + apply andb_true_iff in E as [E Hd%bool_decide_eq_true].
      apply andb_true_iff in E as [E He%Z.eqb_eq].
      apply andb_true_iff in E as [Ht%bool_decide_eq_true Hs%Z.eqb_eq].
      exists s. split; [reflexivity|]. split; [reflexivity|].
      split; [by subst|]. split; [by subst | done].
    + eexists. split; [reflexivity|]. split; [reflexivity|].
      split; [unfold recordChange; by destruct (history s)|].
      split; [discriminate|]. intros [= Ht Hs He Hd]. exfalso.
      rewrite !bool_decide_eq_true_2 in E by done.
      rewrite (proj2 (Z.eqb_eq _ _) Hs), (proj2 (Z.eqb_eq _ _) He) in E.
      discriminate E.
  - destruct (Z.eqb_spec ss (selectionStart s));
      destruct (Z.eqb_spec se (selectionEnd s));
      destruct (decide (d = selectionDirection s));
      rewrite ?bool_decide_eq_true_2, ?bool_decide_eq_false_2 by done; simpl;
      split; try done; try (by intros (? & ? & ?)).
  - intros a Ha.
    assert (a = SET_SELECTION ss se (Some d) /\
            ~ (selectionStart s = ss /\ selectionEnd s = se
               /\ selectionDirection s = d)) as [-> Hne].
    { destruct (Z.eqb_spec ss (selectionStart s));
        destruct (Z.eqb_spec se (selectionEnd s));
        destruct (decide (d = selectionDirection s));
        rewrite ?bool_decide_eq_true_2, ?bool_decide_eq_false_2 in Ha by done;
        simpl in Ha;
        first [ by apply elem_of_nil in Ha
              | apply list_elem_of_singleton in Ha as ->; split; [done|];
                intros (? & ? & ?); congruence ]. }
    rewrite editorReducer_builtin by (by apply hookFree_Unclaimed).
    unfold reduceBuiltin, direction_is.
    destruct (Z.eqb_spec (selectionStart s) ss);
      destruct (Z.eqb_spec (selectionEnd s) se);
      destruct (decide (selectionDirection s = d));
      rewrite ?bool_decide_eq_true_2, ?bool_decide_eq_false_2 by done; simpl;
      first [ by destruct Hne
            | eexists; split; [reflexivity|]; unfold recordChange;
              by destruct (history s) ].
Qed.

End EditableProperties.

(* ===================================================================== *)
(** ** What isSelectionInMarkdownLink requires *)
(* ===================================================================== *)

Lemma get_str_drop (j k : nat) (s : string) :
  String.get k (JS.str_drop j s) = String.get (j + k) s.
Proof.
  revert s. induction j as [|j IH]; intros [|c s]; simpl; try reflexivity.
  apply IH.
Qed.

Lemma get_str_take (n k : nat) (s : string) (c : ascii) :
  String.get k (JS.str_take n s) = Some c ->
  String.get k s = Some c /\ (k < n)%nat.
Proof.
  revert k s. induction n as [|n IH]; intros k [|x s]; simpl; try discriminate.
  destruct k as [|k]; [intros [= <-]; split; [done | lia]|].
  intros H. destruct (IH _ _ H). split; [done | lia].
Qed.

Lemma get_length (k : nat) (s : string) (c : ascii) :
  String.get k s = Some c -> (k < String.length s)%nat.
Proof.
  revert k. induction s as [|x s IH]; intros k; simpl; [discriminate|].
  destruct k as [|k]; [lia|]. intros H. apply IH in H. lia.
Qed.

Lemma prefix_head (a : ascii) (p s : string) :
  String.prefix (String a p) s = true ->
  String.get 0 s = Some a /\ String.prefix p (JS.str_drop 1 s) = true.
Proof.
  destruct s as [|b s]; simpl; [discriminate|].
  destruct (ascii_dec a b) as [->|]; [|discriminate].
  destruct p; by split.
Qed.

(** Where [lastIndexOf] answers, the pattern starts. *)
Lemma lastIndexOf_from_found (pat s : string) (i : Z) :
  0 <= i ->
  JS.lastIndexOf_from pat s i <> -1 ->
  i <= JS.lastIndexOf_from pat s i /\
  String.prefix pat (JS.str_drop (Z.to_nat (JS.lastIndexOf_from pat s i - i)) s)
  = true.
Proof.
  revert i. induction s as [|c s IH]; intros i Hi.
  - change (JS.lastIndexOf_from pat EmptyString i)
      with (if String.prefix pat EmptyString then i else -1).
    destruct (String.prefix pat EmptyString) eqn:E; [|done].
    intros _. rewrite Z.sub_diag. split; [lia | exact E].
  - change (JS.lastIndexOf_from pat (String c s) i)
      with (if JS.lastIndexOf_from pat s (i + 1) =? -1
            then (if String.prefix pat (String c s) then i else -1)
            else JS.lastIndexOf_from pat s (i + 1)).
    destruct (Z.eqb_spec (JS.lastIndexOf_from pat s (i + 1)) (-1)) as [|Hlater].
    + destruct (String.prefix pat (String c s)) eqn:E; [|done].
      intros _. rewrite Z.sub_diag. split; [lia | exact E].
    + intros _. destruct (IH (i + 1) ltac:(lia) Hlater) as [Hle Hp].
      split; [lia|].
      replace (Z.to_nat (JS.lastIndexOf_from pat s (i + 1) - i))
        with (S (Z.to_nat (JS.lastIndexOf_from pat s (i + 1) - (i + 1)))) by lia.
      exact Hp.
Qed.

(** Where the backward scan answers, a "[" stands. *)
Lemma findOpenBracket_found (t : string) (n : nat) (count : Z) :
  findOpenBracket t n count <> -1 ->
  0 <= findOpenBracket t n count < Z.of_nat n /\
  JS.charAt t (findOpenBracket t n count) = Some "["%char.
Proof.
  revert count. induction n as [|n IH]; intros count; [done|].
  cbn [findOpenBracket]. cbv zeta.
  destruct (is_char "[" (JS.charAt t (Z.of_nat n))) eqn:E.
  - destruct (_ - 1 =? 0).
    + intros _. split; [lia|].
      destruct (JS.charAt t (Z.of_nat n)) as [c|]; [|discriminate].
      simpl in E. by apply Ascii.eqb_eq in E as ->.
    + intros H. destruct (IH _ H). split; [lia | done].
  - intros H. destruct (IH _ H). split; [lia | done].
Qed.

(** The link test answers true only for a selection that starts
    behind a "](" which has a "[" somewhere before it, and that ends at
    or before a ")" of the text. *)
Theorem link_test_needs_link_marks (t : string) (selectionStart selectionEnd : Z) :
  isSelectionInMarkdownLink t selectionStart selectionEnd = true ->
  exists o p c,
    0 <= o < p /\ p + 2 <= selectionStart /\ p + 2 <= JS.len t /\
    selectionEnd <= c < JS.len t /\
    JS.charAt t o = Some "["%char /\
    JS.charAt t p = Some "]"%char /\
    JS.charAt t (p + 1) = Some "("%char /\
    JS.charAt t c = Some ")"%char.
Proof.
  unfold isSelectionInMarkdownLink. cbv zeta.
  rewrite substring1_drop.
  set (sliceStart := JS.substring2 t 0 selectionStart).
  destruct (Z.eqb_spec (JS.lastIndexOf sliceStart "](") (-1)) as [|Hp];
    [discriminate|]. simpl.
  destruct (lastIndexOf_from_found "](" sliceStart 0 ltac:(lia) Hp) as [Hp0 Hpre].
  fold (JS.lastIndexOf sliceStart "](") in Hp0, Hpre.
  revert Hp0 Hpre. generalize (JS.lastIndexOf sliceStart "](").
  intros p Hp0 Hpre. rewrite Z.sub_0_r in Hpre.
  destruct (Z.eqb_spec (findOpenBracket t (Z.to_nat p) 1) (-1)) as [|Ho];
    [discriminate|].
  destruct (findOpenBracket_found _ _ _ Ho) as [Hor Hoc].
  revert Hor Hoc. generalize (findOpenBracket t (Z.to_nat p) 1). intros o Hor Hoc.
  set (from := Z.to_nat (JS.clamp (JS.len t) selectionEnd)).
  destruct (Z.eqb_spec (JS.indexOf (JS.str_drop from t) ")") (-1)) as [|Hc];
    [discriminate|]. simpl.
  destruct (indexOf_from_found ")" (JS.str_drop from t) 0 ltac:(lia) Hc)
    as [Hcr Hcp].
  fold (JS.indexOf (JS.str_drop from t) ")") in Hcr, Hcp.
  revert Hcr Hcp. generalize (JS.indexOf (JS.str_drop from t) ")").
  intros k Hcr Hcp. rewrite Z.sub_0_r in Hcp.
  destruct (Z.leb_spec (p + 2) selectionStart) as [Hs|]; [|discriminate].
  destruct (Z.leb_spec selectionEnd
              (JS.len t - JS.len (JS.str_drop from t) + k)) as [He|];
    [|discriminate].
  intros _.
  (* the two code units of "](" in the text *)
  apply prefix_head in Hpre as [H1 Hpre]. apply prefix_head in Hpre as [H2 _].
  rewrite get_str_drop in H1, H2. rewrite get_str_drop in H2.
  unfold sliceStart, JS.substring2 in H1, H2.
  apply get_str_take in H1 as [H1 _]. apply get_str_take in H2 as [H2 _].
  rewrite get_str_drop in H1, H2.
  assert (JS.clamp (JS.len t) 0 = 0) as Hc0 by (unfold JS.clamp, JS.len; lia).
  rewrite Hc0 in H1, H2.
  replace (Z.to_nat (Z.min 0 (JS.clamp (JS.len t) selectionStart))) with 0%nat
    in H1, H2 by (unfold JS.clamp, JS.len; lia).
  simpl in H1, H2. rewrite Nat.add_0_r in H1.
  pose proof (get_length _ _ _ H2) as Hlen2.
  (* the closing parenthesis *)
  apply prefix_head in Hcp as [H3 _]. rewrite !get_str_drop in H3.
  rewrite Nat.add_0_r in H3. pose proof (get_length _ _ _ H3) as Hlen3.
  assert (JS.len t - JS.len (JS.str_drop from t) = Z.of_nat from) as Hfrom.
  { unfold JS.len. rewrite length_str_drop. subst from.
    unfold JS.clamp, JS.len. lia. }
  exists o, p, (Z.of_nat from + k).
  unfold JS.charAt, JS.len in *.
  destruct (Z.ltb_spec p 0); [lia|]. destruct (Z.ltb_spec (p + 1) 0); [lia|].
  destruct (Z.ltb_spec (Z.of_nat from + k) 0); [lia|].
  replace (Z.to_nat (p + 1)) with (Z.to_nat p + 1)%nat by lia.
  replace (Z.to_nat (Z.of_nat from + k)) with (from + Z.to_nat k)%nat by lia.
  split; [lia|]. split; [lia|]. split; [lia|]. split; [lia|].
  split; [exact Hoc|]. split; [exact H1|]. split; [exact H2 | exact H3].
Qed.

(* ===================================================================== *)
(** ** Further concrete runs *)
(* ===================================================================== *)

Lemma initialState_Consistent (initialValue : string) (now : Z) :
  Consistent (initialState initialValue now).
Proof.
  eexists. eexists. split; [reflexivity|]. split; [reflexivity|]. by repeat split.
Qed.

Lemma undoneState_Consistent : Consistent undoneState.
Proof.
  eexists. eexists. split; [reflexivity|]. split; [reflexivity|]. by repeat split.
Qed.

Lemma sampleRegistry_NoDup : NoDup (registryIds sampleRegistry).
Proof.
  unfold registryIds, sampleRegistry. simpl.
  repeat (apply NoDup_cons; split;
          [intros H%list_elem_of_In; simpl in H; intuition discriminate|]).
  apply NoDup_nil. done.
Qed.

Lemma sampleRegistry_Shipped : Shipped noInherited sampleRegistry.
Proof.
  unfold Shipped, sampleRegistry.
  repeat (apply Forall_cons; split; [apply list_elem_of_In; simpl; auto 10|]).
  apply Forall_nil. done.
Qed.

Lemma recorded_change_leaves_nothing_to_redo_witness :
  exists s' h',
    editorReducer noHooks (initialState "abc" 0) (SET_TEXT "abd") 1000 = Fresh s' /\
    history s' = Some h' /\
    offset h' = Z.of_nat (length (stack h')) - 1 /\
    editorReducer noHooks s' REDO 2000 = Same.
Proof.
  apply (recorded_change_leaves_nothing_to_redo noHooks (initialState "abc" 0)
           (SET_TEXT "abd") 1000 2000 (initialState_Consistent _ _) eq_refl eq_refl).
  vm_compute. discriminate.
Defined.

Lemma undo_redo_keep_the_stack_witness :
  exists s',
    state_after undoneState (editorReducer noHooks undoneState REDO 5) = Some s' /\
    text s' = "ab" /\
    stack <$> history s' = stack <$> history undoneState.
Proof.
  eexists. split; [vm_compute; reflexivity|]. split; [reflexivity|].
  apply (undo_redo_keep_the_stack noHooks undoneState _ REDO 5 eq_refl
           (or_intror eq_refl) eq_refl).
Defined.

Lemma redo_then_undo_restores_witness :
  offset <$> history undoneState = Some 0 /\
  exists s1 s2,
    editorReducer noHooks undoneState REDO 5 = Fresh s1 /\
    editorReducer noHooks s1 UNDO 6 = Fresh s2 /\
    text s2 = "a" /\ history s2 = history undoneState.
Proof.
  split; [reflexivity|].
  destruct (redo_then_undo_restores noHooks undoneState _ 5 6
              undoneState_Consistent eq_refl eq_refl)
    as (s1 & s2 & E1 & E2 & Ht & _ & _ & _ & Hh); [simpl; lia|].
  exists s1, s2. by repeat split.
Defined.


Lemma replace_selection_inserts_witness :
  Unclaimed noHooks abcSelected (REPLACE_SELECTION "xy" None) /\
  exists s',
    editorReducer noHooks abcSelected (REPLACE_SELECTION "xy" None) 5 = Fresh s' /\
    text s' = "xy" /\ selectionStart s' = 2 /\ selectionEnd s' = 2 /\
    JS.slice2 (text s') 0 (selectionEnd s') = "xy" /\
    JS.slice2 (text s') (selectionStart s') (selectionEnd s') = EmptyString.
Proof.
  assert (Unclaimed noHooks abcSelected (REPLACE_SELECTION "xy" None)) as H
    by reflexivity.
  split; [exact H|].
  destruct (replace_selection_inserts noHooks abcSelected "xy" None 5 H)
    as (_ & Hfresh & _).
  destruct Hfresh as (s' & E & Ht & Hs & He & _ & Hcut); [vm_compute; discriminate|].
  destruct Hcut as [Hnew Hsel]; [by vm_compute|].
  exists s'. split; [exact E|]. split; [exact Ht|]. split; [exact Hs|].
  split; [exact He|]. split; [exact Hnew | exact Hsel].
Defined.

Lemma add_prefix_postfix_same_iff_empty_witness :
  Unclaimed noHooks abcSelected (ADD_PREFIX_POSTFIX EmptyString EmptyString) /\
  InRange abcSelected /\
  editorReducer noHooks abcSelected (ADD_PREFIX_POSTFIX EmptyString EmptyString) 5
  = Same.
Proof.
  assert (Unclaimed noHooks abcSelected
            (ADD_PREFIX_POSTFIX EmptyString EmptyString)) as H1 by reflexivity.
  assert (InRange abcSelected) as H2 by (repeat split; by vm_compute).
  split; [exact H1|]. split; [exact H2|].
  apply (add_prefix_postfix_same_iff_empty noHooks abcSelected EmptyString
           EmptyString 5 H1 H2).
  split; reflexivity.
Defined.

Lemma late_change_is_pushed_witness :
  exists h',
    history (recordChange (initialState "abc" 0) (setTextChanges "abd") 1000)
    = Some h' /\
    length (stack h') = 2%nat /\ offset h' = 1.
Proof.
  destruct (late_change_is_pushed (initialState "abc" 0) _ _ (setTextChanges "abd")
              1000 eq_refl eq_refl)
    as (h' & Hh & Hst & Hoff & _); [vm_compute; discriminate|].
  exists h'. split; [exact Hh|]. split; [by rewrite Hst | exact Hoff].
Defined.

Lemma viewer_buttons_agree_with_reducer_witness :
  editorReducer noHooks undoneState UNDO 5 = Same /\
  exists s', editorReducer noHooks undoneState REDO 5 = Fresh s'.
Proof.
  exact (viewer_buttons_agree_with_reducer noHooks undoneState _ 5
           undoneState_Consistent eq_refl eq_refl).
Defined.

Lemma history_viewer_marks_the_live_record_witness :
  exists items current,
    historyItems undoneState = Some items /\
    length items = 2%nat /\
    items !! 1%nat = Some current /\
    item_current current = true /\
    item_text current = "a".
Proof.
  destruct (history_viewer_marks_the_live_record undoneState _
              undoneState_Consistent eq_refl)
    as (items & current & Hi & Hl & _ & Hc & Hcur & Ht & _).
  exists items, current. split; [exact Hi|]. split; [exact Hl|].
  split; [exact Hc|]. split; [exact Hcur | exact Ht].
Defined.

Lemma register_keeps_one_entry_per_id_witness :
  NoDup (registryIds sampleRegistry) /\
  registryIds (registerPlugin "bold-plugin" italicHandlers sampleRegistry)
  = registryIds sampleRegistry /\
  NoDup (registryIds (registerPlugin "bold-plugin" italicHandlers sampleRegistry)).
Proof.
  destruct (register_keeps_one_entry_per_id sampleRegistry "bold-plugin"
              italicHandlers sampleRegistry_NoDup) as (Hnd & _ & _ & Hin & _).
  split; [exact sampleRegistry_NoDup|]. split; [|exact Hnd].
  apply Hin. apply list_elem_of_In. simpl. auto.
Defined.

Lemma unregister_then_register_moves_to_end_witness :
  NoDup (registryIds sampleRegistry) /\
  registryIds (registerPlugin "bold-plugin" boldHandlers
                 (unregisterPlugin "bold-plugin" sampleRegistry))
  = [ "italic-plugin"; "bracket-wrap-plugin"; "auto-link-plugin";
      "undo-redo-plugin"; "bold-plugin" ] /\
  registered "bold-plugin"
    (unregisterPlugin "bold-plugin"
       (registerPlugin "bold-plugin" italicHandlers sampleRegistry)) = None.
Proof.
  destruct (unregister_then_register_moves_to_end sampleRegistry "bold-plugin"
              italicHandlers boldHandlers sampleRegistry_NoDup)
    as (_ & _ & _ & _ & _ & _ & Hend & _ & Hlost).
  split; [exact sampleRegistry_NoDup|].
  split; [rewrite Hend; reflexivity|].
  apply Hlost. apply list_elem_of_In. simpl. auto.
Defined.

Lemma shipped_key_plugins_commute_witness :
  Shipped noInherited sampleRegistry /\
  sentActions (enhancedDispatch sampleRegistry abcSelected (KEY_DOWN ctrlB))
  = sentActions (enhancedDispatch (reverse sampleRegistry) abcSelected
                   (KEY_DOWN ctrlB)).
Proof.
  split; [exact sampleRegistry_Shipped|].
  apply (shipped_key_plugins_commute noInherited sampleRegistry
           (reverse sampleRegistry) abcSelected ctrlB
           (fun _ _ => eq_refl) sampleRegistry_Shipped).
  symmetry. apply reverse_Permutation.
Defined.

Lemma bracket_key_wraps_selection_witness :
  sentActions (enhancedDispatch sampleRegistry abcSelected (KEY_DOWN openParen))
  = [KEY_DOWN openParen; ADD_PREFIX_POSTFIX "(" ")"] /\
  exists s',
    dispatchAll noHooks abcSelected
      [(KEY_DOWN openParen, 5); (ADD_PREFIX_POSTFIX "(" ")", 6)] = Some s' /\
    text s' = "(abc)" /\ selectionStart s' = 1 /\ selectionEnd s' = 4.
Proof.
  destruct (bracket_key_wraps_selection noHooks noInherited sampleRegistry
              "bracket-wrap-plugin" abcSelected openParen ")" 5 6
              (fun _ _ => eq_refl) sampleRegistry_Shipped)
    as (Hsent & s' & E & Ht & Hs & He & _).
  - apply list_elem_of_In. simpl. auto.
  - reflexivity.
  - reflexivity.
  - repeat split; by vm_compute.
  - by vm_compute.
  - split; [exact Hsent|]. exists s'. split; [exact E|].
    split; [exact Ht|]. split; [exact Hs | exact He].
Defined.

Lemma pasted_url_links_selection_witness :
  sentActions (enhancedDispatch sampleRegistry abcSelected (PASTE pastedUrl))
  = [PASTE pastedUrl; ADD_PREFIX_POSTFIX "[" "](https://example.com)"] /\
  exists s',
    dispatchAll noHooks abcSelected
      [(PASTE pastedUrl, 5);
       (ADD_PREFIX_POSTFIX "[" "](https://example.com)", 6)] = Some s' /\
    text s' = "[abc](https://example.com)".
Proof.
  destruct (pasted_url_links_selection noHooks startsWithHttp sampleRegistry
              "auto-link-plugin" abcSelected pastedUrl 5 6) as [Hlinks _].
  - unfold sampleRegistry.
    repeat (apply Forall_cons; split; [apply list_elem_of_In; simpl; auto|]).
    apply Forall_nil. done.
  - apply list_elem_of_In. simpl. auto 10.
  - reflexivity.
  - repeat split; by vm_compute.
  - destruct (Hlinks eq_refl) as (Hsent & s' & E & Ht & _).
    split; [exact Hsent|]. exists s'. split; [exact E | exact Ht].
Defined.

Lemma editable_handlers_sync_state_witness :
  exists a s',
    handleChange typedTextArea = [a] /\
    state_after (initialState "abc" 0)
      (editorReducer noHooks (initialState "abc" 0) a 1000) = Some s' /\
    textAreaOf s' = typedTextArea.
Proof.
  destruct (editable_handlers_sync_state noHooks (initialState "abc" 0)
              typedTextArea 1000 eq_refl) as ((a & s' & Ha & E & Hshow & _) & _).
  exists a, s'. split; [exact Ha|]. split; [exact E | exact Hshow].
Defined.

Lemma link_test_needs_link_marks_witness :
  isSelectionInMarkdownLink "[link](https://example.com)" 7 22 = true /\
  exists o p c,
    0 <= o < p /\ p + 2 <= 7 /\ 22 <= c /\
    JS.charAt "[link](https://example.com)" p = Some "]"%char /\
    JS.charAt "[link](https://example.com)" c = Some ")"%char.
Proof.
  split; [reflexivity|].
  destruct (link_test_needs_link_marks "[link](https://example.com)" 7 22 eq_refl)
    as (o & p & c & Ho & Hp & _ & Hc & _ & Hcp & _ & Hcc).
  exists o, p, c. split; [exact Ho|]. split; [exact Hp|].
  split; [exact (proj1 Hc)|]. split; [exact Hcp | exact Hcc].
Defined.

(** A run with a custom action among changes and an undo. *)
Lemma composer_states_witness :
  (forall a now ty,
     (a, now) ∈ [(SET_TEXT "a", 1000); (OTHER "CUSTOM", 2000);
                 (SET_TEXT "ab", 3000); (UNDO, 4000)] ->
     a = OTHER ty -> ~ In ty known_action_types) /\
  exists s h,
    dispatchAll noHooks (initialState "" 0)
      [(SET_TEXT "a", 1000); (OTHER "CUSTOM", 2000);
       (SET_TEXT "ab", 3000); (UNDO, 4000)] = Some s /\
    Consistent s /\ history s = Some h /\
    0 <= offset h < Z.of_nat (length (stack h)).
Proof.
  assert (forall a now ty,
            (a, now) ∈ [(SET_TEXT "a", 1000); (OTHER "CUSTOM", 2000);
                        (SET_TEXT "ab", 3000); (UNDO, 4000)] ->
            a = OTHER ty -> ~ In ty known_action_types) as Hty.
  { intros a now ty Hin%list_elem_of_In ->. simpl in Hin.
    destruct Hin as [H|[H|[H|[H|[]]]]]; try discriminate H.
    injection H as <- _. simpl. intuition discriminate. }
  split; [exact Hty|].
  destruct (composer_states_are_consistent noHooks "" 0 _ Hty)
    as (s & h & E & Hc & _ & Hh & Hoff & _).
  exists s, h. split; [exact E|]. split; [exact Hc|]. split; [exact Hh | exact Hoff].
Defined.

(** C10, as stated, fails where the offset is not the last index or the
    stack is full.  After three changes and two UNDOs the stack holds four
    records with the offset at 1; SET_SELECTION with the current bounds
    and no direction, sent when every record is older than
    HISTORY_TIME_GAP, drops the two records beyond the offset before it
    pushes its own: three records are left.  And with 1001 records, the
    offset at the last of them, the oldest is dropped before the push:
    the stack keeps its 1001 records. *)
Lemma set_selection_after_undo_counterexample :
  (exists s h s' h',
     dispatchAll noHooks (initialState "" 0)
       (keystrokes 3 ++ [(UNDO, 9000); (UNDO, 9000)]) = Some s /\
     history s = Some h /\
     selectionStart s = 0 /\ selectionEnd s = 0 /\ selectionDirection s = NONE /\
     (forall r, r ∈ stack h -> HISTORY_TIME_GAP <= 10000 - timestamp r) /\
     editorReducer noHooks s (SET_SELECTION 0 0 None) 10000 = Fresh s' /\
     history s' = Some h' /\
     text s' = text s /\ selectionStart s' = 0 /\ selectionEnd s' = 0 /\
     selectionDirection s' = NONE /\
     length (stack h) = 4%nat /\ offset h = 1 /\
     length (stack h') = 3%nat /\ offset h' = 2 /\
     length (stack h') <> S (length (stack h))) /\
  ((fun s => (selectionStart s, selectionEnd s, selectionDirection s,
              historyShape s))
     <$> dispatchAll noHooks (initialState "" 0) (keystrokes 1000)
   = Some (0, 0, NONE, Some (1001%nat, 1000)) /\
   (fun s => (selectionStart s, selectionEnd s, selectionDirection s,
              historyShape s))
     <$> dispatchAll noHooks (initialState "" 0)
           (keystrokes 1000 ++ [(SET_SELECTION 0 0 None, 5000000)])
   = Some (0, 0, NONE, Some (1001%nat, 1000)) /\
   (fun s => match history s with
             | Some h => timestamp <$> JS.get (stack h) (offset h)
             | None => None
             end)
     <$> dispatchAll noHooks (initialState "" 0)
           (keystrokes 1000 ++ [(SET_SELECTION 0 0 None, 5000000)])
   = Some (Some 5000000)).
Proof.
  split.
  - do 4 eexists.
    split; [vm_compute; reflexivity|]. split; [reflexivity|].
    split; [reflexivity|]. split; [reflexivity|]. split; [reflexivity|].
    split.
    { intros r Hin%list_elem_of_In. simpl in Hin.
      destruct Hin as [<-|[<-|[<-|[<-|[]]]]]; vm_compute; discriminate. }
    split; [vm_compute; reflexivity|]. split; [reflexivity|].
    split; [reflexivity|]. split; [reflexivity|]. split; [reflexivity|].
    split; [reflexivity|]. split; [reflexivity|]. split; [reflexivity|].
    split; [reflexivity|]. split; [reflexivity|]. simpl. discriminate.
  - split; [|split]; vm_compute; reflexivity.
Qed.
